(** * x402 payment metering: usage ledger, payment requests, settlement
    verification and the Permit2 delegated-authorization engine.

    A shallow embedding of
      - extensions/x402-payment/src/types.ts, config.ts, payment-flow.ts, and
        verifyPayment of the x402 client wrapper,
      - the Telegram test bot, test-telegram.ts (verifyPaymentTransaction,
        handleMessage),
      - extensions/x402-payment/src/permit2: AutoPaymentProcessor, and
        checkApprovalStatus of the Permit2 client,
    followed by the properties established about them.

    Conventions.  JavaScript [number]s that hold counters and timestamps and
    [bigint]s are [Z]; [undefined] in an optional field is [None]; a [Map] or a
    [Set] keyed by strings is a [gmap] / [gset]; an [async] function is a
    [task]: the synchronous segments between two [await]s run atomically on the
    shared stores, and what the awaited promise settles to is supplied by the
    environment. *)

From Stdlib Require Import ZArith Lia Ascii String.
From stdpp Require Import gmap strings list fin_maps pretty.

Local Open Scope Z_scope.

(* ===================================================================== *)
(** ** The few string primitives of JavaScript the sources use *)
(* ===================================================================== *)

Module Js.

(** [c.toLowerCase()] on one ASCII code unit; [toLowerCase] below lowers the
    letters of ASCII and leaves every other byte as it is, which is what the
    program does on ASCII text. *)
Definition lower (c : ascii) : ascii :=
  let n := nat_of_ascii c in
  if (65 <=? n)%nat && (n <=? 90)%nat then ascii_of_nat (n + 32) else c.

Fixpoint toLowerCase (s : string) : string :=
  match s with
  | EmptyString => EmptyString
  | String c r => String (lower c) (toLowerCase r)
  end.

(** [s.startsWith(p)] *)
Definition startsWith (s p : string) : bool := String.prefix p s.

(** [s.slice(n)] for [0 <= n]. *)
Fixpoint slice (n : nat) (s : string) : string :=
  match n, s with
  | O, _ => s
  | S _, EmptyString => EmptyString
  | S m, String _ r => slice m r
  end.

(** [s.slice(0, n)] for [0 <= n]. *)
Fixpoint slice_to (n : nat) (s : string) : string :=
  match n, s with
  | O, _ => EmptyString
  | S _, EmptyString => EmptyString
  | S m, String c r => String c (slice_to m r)
  end.



(** A text is held as the bytes of its UTF-8 encoding, so a character
    outside ASCII takes two or three bytes.  [bytes] builds a text from the
    codes of its bytes. *)
Definition bytes (codes : list Z) : string :=
  fold_right (fun n r => String (ascii_of_nat (Z.to_nat n)) r) EmptyString codes.

(** The white space and the line terminators of the language, which [trim],
    [parseInt] and [BigInt] strip: U+0009 to U+000D, U+0020, U+00A0, U+1680,
    U+2000 to U+200A, U+2028, U+2029, U+202F, U+205F, U+3000 and U+FEFF. *)
Definition WHITE_SPACE : list string :=
  [ bytes [9]; bytes [10]; bytes [11]; bytes [12]; bytes [13]; bytes [32];
    bytes [194; 160];
    bytes [225; 154; 128];
    bytes [226; 128; 128]; bytes [226; 128; 129]; bytes [226; 128; 130];
    bytes [226; 128; 131]; bytes [226; 128; 132]; bytes [226; 128; 133];
    bytes [226; 128; 134]; bytes [226; 128; 135]; bytes [226; 128; 136];
    bytes [226; 128; 137]; bytes [226; 128; 138];
    bytes [226; 128; 168]; bytes [226; 128; 169]; bytes [226; 128; 175];
    bytes [226; 129; 159];
    bytes [227; 128; 128];
    bytes [239; 187; 191] ].

(** Removes from the head of [s] every text of [white] it starts with, one
    after the other; [fuel] bounds the number of removals. *)
Fixpoint strip (white : list string) (fuel : nat) (s : string) : string :=
  match fuel with
  | O => s
  | S fuel' =>
      match List.find (fun w => String.prefix w s) white with
      | Some w => strip white fuel' (slice (String.length w) s)
      | None => s
      end
  end.

Definition trimStart (s : string) : string :=
  strip WHITE_SPACE (String.length s) s.

(** The encoding of a character never ends with the encoding of another, so
    white space at the end is white space at the head of the reversed
    bytes. *)
Definition trimEnd (s : string) : string :=
  String.rev (strip (List.map String.rev WHITE_SPACE) (String.length s) (String.rev s)).

(** [s.trim()] *)
Definition trim (s : string) : string := trimEnd (trimStart s).

(** The line feed, written [\n] in the sources. *)
Definition newline : string := String (ascii_of_nat 10) EmptyString.

(** Truthiness of a string: only the empty string is falsy. *)
Definition truthy (s : string) : bool :=
  match s with EmptyString => false | _ => true end.

Definition digit (c : ascii) : option Z :=
  match Ascii.is_nat c with Some d => Some (Z.of_nat d) | None => None end.

Definition hexdigit (c : ascii) : option Z :=
  match digit c with
  | Some d => Some d
  | None =>
      let n := nat_of_ascii (lower c) in
      if (97 <=? n)%nat && (n <=? 102)%nat then Some (Z.of_nat n - 87) else None
  end.

(** Reads the longest run of digits of base [b] at the head of [s]:
    the value read so far, whether a digit was seen, and the rest. *)
Fixpoint digits (dig : ascii -> option Z) (b : Z) (acc : Z) (seen : bool)
         (s : string) : Z * bool * string :=
  match s with
  | EmptyString => (acc, seen, s)
  | String c r =>
      match dig c with
      | Some d => digits dig b (b * acc + d) true r
      | None => (acc, seen, s)
      end
  end.

(** An integer a number holds exactly; every integer up to [2 ^ 53] in size
    is one. *)
Definition exact (n : Z) : bool := Z.abs n <=? 2 ^ 53.

(** [parseInt(s, 10)]: leading white space, an optional sign, then the
    longest prefix of decimal digits; [None] stands for [NaN].  The result is
    the integer the digits stand for; the program holds the number nearest to
    it, which is that integer when it is [exact]. *)
Definition parseInt (s : string) : option Z :=
  let t := trimStart s in
  let '(neg, u) :=
    match t with
    | String "-"%char r => (true, r)
    | String "+"%char r => (false, r)
    | _ => (false, t)
    end in
  match digits digit 10 0 false u with
  | (v, true, _) => Some (if neg then - v else v)
  | (_, false, _) => None
  end.

Definition bindigit (c : ascii) : option Z :=
  match digit c with
  | Some d => if d <? 2 then Some d else None
  | None => None
  end.

Definition octdigit (c : ascii) : option Z :=
  match digit c with
  | Some d => if d <? 8 then Some d else None
  | None => None
  end.

(** The whole of [s] read as digits of base [b], at least one. *)
Definition numeral (dig : ascii -> option Z) (b : Z) (s : string) : option Z :=
  match digits dig b 0 false s with
  | (v, true, EmptyString) => Some v
  | _ => None
  end.

(** [BigInt(s)] on a string: white space is trimmed; the empty string is
    [0n]; [0x], [0o] and [0b] (in either case) start a numeral of base 16, 8
    and 2, which takes no sign; anything else is read in base 10 with an
    optional sign; [None] stands for the [SyntaxError] thrown on any other
    text. *)
Definition BigInt (s : string) : option Z :=
  let t := trim s in
  match t with
  | EmptyString => Some 0
  | String "0"%char (String x r) =>
      if Ascii.eqb x "x" || Ascii.eqb x "X" then numeral hexdigit 16 r
      else if Ascii.eqb x "o" || Ascii.eqb x "O" then numeral octdigit 8 r
      else if Ascii.eqb x "b" || Ascii.eqb x "B" then numeral bindigit 2 r
      else numeral digit 10 t
  | String "-"%char r =>
      match numeral digit 10 r with
      | Some v => Some (- v)
      | None => None
      end
  | String "+"%char r => numeral digit 10 r
  | _ => numeral digit 10 t
  end.

End Js.

(* ===================================================================== *)
(** ** Asynchronous functions *)
(* ===================================================================== *)

(** An [async] function is a [task].  Its body runs synchronously up to the
  first [await]; what follows the [await] is a continuation that receives
  what the awaited promise settled to, the value [Date.now()] has when the
  continuation runs, and the shared state as it is at that moment (other
  handlers may have run in between).  The hop between the return of a callee
  that has finished and the continuation of the caller awaiting it is not
  separated: callee and caller continue in one segment. *)

Module Async.
Section Task.
Context {St : Type} {E : Type -> Type}.

#[local] Unset Elimination Schemes.

Inductive task (R : Type) : Type :=
| Done (r : R)
| Throw (err : string)
| Await {X : Type} (e : E X) (k : X -> Z -> St -> St * task R).

#[local] Set Elimination Schemes.

Inductive outcome (R : Type) : Type :=
| Returned (r : R)
| Threw (err : string).

(** The environment of a run to completion in which no event is awaited
    twice: for each awaited event, what it settles to and the clock when the
    continuation resumes.  ([answers] below is for runs that may await the
    same event again.) *)
Definition oracle : Type := forall X, E X -> X * Z.

(** Runs a task with nothing else scheduled between its segments; [now] is
    the clock of the segment that has just run.  The result comes with the
    clock of the last segment. *)
Fixpoint run {R} (o : oracle) (now : Z) (t : task R) (s : St)
  : St * outcome R * Z :=
  match t with
  | Done _ r => (s, Returned _ r, now)
  | Throw _ err => (s, Threw _ err, now)
  | Await _ e k =>
      let '(x, now') := o _ e in
      let '(s', t') := k x now' s in
      run o now' t' s'
  end.

(** An async function, once its arguments are given: called at time [now] on
    the state [s], it runs its first segment. *)
Definition async (R : Type) : Type := Z -> St -> St * task R.

(** Calls an async function at time [now] and runs it to completion. *)
Definition call_at {R} (f : async R) (o : oracle) (now : Z) (s : St)
  : St * outcome R * Z :=
  let '(s', t) := f now s in run o now t s'.

Definition call {R} (f : async R) (o : oracle) (now : Z) (s : St)
  : St * outcome R :=
  fst (call_at f o now s).

(** The environment of a run in which the same event may be awaited more
    than once, and settle differently each time: the answers to the awaited
    events in the order in which the run awaits them, [a 0] for the first. *)
Definition answers : Type := nat -> oracle.

Definition following (a : answers) : answers := fun n => a (S n).

(** [run] with one answer for each [await]; the result comes with the answers
    that are left. *)
Fixpoint run_seq {R} (a : answers) (now : Z) (t : task R) (s : St)
  : St * outcome R * Z * answers :=
  match t with
  | Done _ r => (s, Returned _ r, now, a)
  | Throw _ err => (s, Threw _ err, now, a)
  | Await _ e k =>
      let '(x, now') := a O _ e in
      let '(s', t') := k x now' s in
      run_seq (following a) now' t' s'
  end.

Definition call_seq {R} (f : async R) (a : answers) (now : Z) (s : St)
  : St * outcome R * Z * answers :=
  let '(s', t) := f now s in run_seq a now t s'.

(** [const x = await t; f x]: the rest of the caller, [f], is appended to every
    path of the callee. *)
Fixpoint bind {A B} (t : task A) (f : A -> async B) : async B :=
  fun now s =>
    match t with
    | Done _ a => f a now s
    | Throw _ err => (s, Throw _ err)
    | Await _ e k =>
        (s, Await _ e (fun x now' s' =>
                         let '(s'', t') := k x now' s' in bind t' f now' s''))
    end.

Definition await {A B} (m : async A) (f : A -> async B) : async B :=
  fun now s => let '(s', t) := m now s in bind t f now s'.

Definition ret {A} (a : A) : async A := fun _ s => (s, Done _ a).

(** Induction on a task: the tasks an [Await] continues with are smaller. *)
Fixpoint task_ind {R} (P : task R -> Prop)
         (HDone : forall r, P (Done _ r))
         (HThrow : forall err, P (Throw _ err))
         (HAwait : forall X (e : E X) k,
             (forall x now s, P (snd (k x now s))) -> P (Await _ e k))
         (t : task R) : P t :=
  match t with
  | Done _ r => HDone r
  | Throw _ err => HThrow err
  | Await _ e k =>
      HAwait _ e k (fun x now s => task_ind P HDone HThrow HAwait (snd (k x now s)))
  end.

End Task.
Arguments task : clear implicits.
Arguments oracle : clear implicits.
Arguments answers : clear implicits.
Arguments async : clear implicits.
Arguments Done {St E R} r.
Arguments Throw {St E R} err.
Arguments Await {St E R X} e k.
Arguments Returned {R} r.
Arguments Threw {R} err.
End Async.

(* ===================================================================== *)
(** ** types.ts and payment-flow.ts *)
(* ===================================================================== *)

Module PaymentFlow.
Import Async.

Record X402PaymentConfig : Type := {
  enabled : bool;
  network : string;
  payTo : string;
  pricePerMessage : string;
  facilitatorUrl : string;
  privateKey : option string;
  freeMessagesPerSession : Z;
  telegramPaymentBotUrl : string;
}.

Record PaymentSession : Type := {
  sessionKey : string;
  channelId : string;
  userId : string;
  messageCount : Z;
  paidMessageCount : Z;
  lastPaymentTxHash : option string;
  lastPaymentTimestamp : option Z;
  pendingPaymentId : option string;
  walletAddress : option string;
}.

Inductive PaymentStatus : Type := pending | paid | expired | failed.

#[global] Instance PaymentStatus_eq_dec : EqDecision PaymentStatus.
Proof. solve_decision. Defined.

Definition status_text (st : PaymentStatus) : string :=
  match st with
  | pending => "pending" | paid => "paid" | expired => "expired" | failed => "failed"
  end.

Record PaymentRequest : Type := {
  id : string;
  owner : string;            (* the field [sessionKey] of a PaymentRequest *)
  amount : string;
  req_network : string;      (* [network] *)
  req_payTo : string;        (* [payTo] *)
  status : PaymentStatus;
  createdAt : Z;
  expiresAt : Z;
  txHash : option string;
}.

Record PaymentResult : Type := {
  success : bool;
  res_txHash : option string;
  res_network : option string;
  payer : option string;
  error : option string;
}.

(** The two module-level maps. *)
Record store : Type := {
  paymentSessions : gmap string PaymentSession;
  pendingPayments : gmap string PaymentRequest;
}.

Definition empty_store : store :=
  {| paymentSessions := ∅; pendingPayments := ∅ |}.

Definition with_sessions (m : gmap string PaymentSession) (s : store) : store :=
  {| paymentSessions := m; pendingPayments := pendingPayments s |}.

Definition with_payments (m : gmap string PaymentRequest) (s : store) : store :=
  {| paymentSessions := paymentSessions s; pendingPayments := m |}.

(** *** Field assignments on the stored objects *)

Definition set_messageCount (n : Z) (x : PaymentSession) : PaymentSession :=
  {| sessionKey := sessionKey x; channelId := channelId x; userId := userId x;
     messageCount := n; paidMessageCount := paidMessageCount x;
     lastPaymentTxHash := lastPaymentTxHash x;
     lastPaymentTimestamp := lastPaymentTimestamp x;
     pendingPaymentId := pendingPaymentId x; walletAddress := walletAddress x |}.

Definition set_paidMessageCount (n : Z) (x : PaymentSession) : PaymentSession :=
  {| sessionKey := sessionKey x; channelId := channelId x; userId := userId x;
     messageCount := messageCount x; paidMessageCount := n;
     lastPaymentTxHash := lastPaymentTxHash x;
     lastPaymentTimestamp := lastPaymentTimestamp x;
     pendingPaymentId := pendingPaymentId x; walletAddress := walletAddress x |}.

Definition set_pendingPaymentId (p : option string) (x : PaymentSession)
  : PaymentSession :=
  {| sessionKey := sessionKey x; channelId := channelId x; userId := userId x;
     messageCount := messageCount x; paidMessageCount := paidMessageCount x;
     lastPaymentTxHash := lastPaymentTxHash x;
     lastPaymentTimestamp := lastPaymentTimestamp x;
     pendingPaymentId := p; walletAddress := walletAddress x |}.

(** The four assignments [processPaymentCallback] makes on a session after a
    successful verification. *)
Definition credit (tx : option string) (now : Z) (x : PaymentSession)
  : PaymentSession :=
  {| sessionKey := sessionKey x; channelId := channelId x; userId := userId x;
     messageCount := messageCount x;
     paidMessageCount := paidMessageCount x + 1;
     lastPaymentTxHash := tx;
     lastPaymentTimestamp := Some now;
     pendingPaymentId := None; walletAddress := walletAddress x |}.

Definition set_status (st : PaymentStatus) (p : PaymentRequest) : PaymentRequest :=
  {| id := id p; owner := owner p; amount := amount p;
     req_network := req_network p; req_payTo := req_payTo p;
     status := st; createdAt := createdAt p; expiresAt := expiresAt p;
     txHash := txHash p |}.

Definition set_txHash (tx : option string) (p : PaymentRequest) : PaymentRequest :=
  {| id := id p; owner := owner p; amount := amount p;
     req_network := req_network p; req_payTo := req_payTo p;
     status := status p; createdAt := createdAt p; expiresAt := expiresAt p;
     txHash := tx |}.

(** *** Usage ledger *)

Definition getOrCreateSession (key channel user : string) (s : store)
  : store * PaymentSession :=
  match paymentSessions s !! key with
  | Some session => (s, session)
  | None =>
      let session :=
        {| sessionKey := key; channelId := channel; userId := user;
           messageCount := 0; paidMessageCount := 0;
           lastPaymentTxHash := None; lastPaymentTimestamp := None;
           pendingPaymentId := None; walletAddress := None |} in
      (with_sessions (<[key := session]> (paymentSessions s)) s, session)
  end.

Definition getSession (key : string) (s : store) : option PaymentSession :=
  paymentSessions s !! key.

(** [updateSession(key, updates)]: [Object.assign] on the stored session, when
    there is one; [updates] is given as the assignment it performs. *)
Definition updateSession (key : string)
           (updates : PaymentSession -> PaymentSession) (s : store) : store :=
  match paymentSessions s !! key with
  | Some session => with_sessions (<[key := updates session]> (paymentSessions s)) s
  | None => s
  end.

(** [config.freeMessagesPerSession || 3]: a number is falsy when it is 0
    (or [NaN], which [Z] does not have). *)
Definition freeMessages (config : X402PaymentConfig) : Z :=
  if freeMessagesPerSession config =? 0 then 3 else freeMessagesPerSession config.

Definition isPaymentRequired (session : PaymentSession) (config : X402PaymentConfig)
  : bool :=
  if negb (enabled config) then false
  else
    let unpaidMessages := messageCount session - paidMessageCount session in
    unpaidMessages >=? freeMessages config.

Definition incrementMessageCount (key : string) (s : store) : store * Z :=
  match paymentSessions s !! key with
  | Some session =>
      let n := messageCount session + 1 in
      (with_sessions (<[key := set_messageCount n session]> (paymentSessions s)) s, n)
  | None => (s, 0)
  end.

Record SessionStats : Type := {
  totalMessages : Z;
  paidMessages : Z;
  unpaidMessages : Z;
}.

(** [getSessionStats]; the display string [totalSpent], a float rendering, is
    left out. *)
Definition getSessionStats (key : string) (s : store) : option SessionStats :=
  match paymentSessions s !! key with
  | None => None
  | Some session =>
      Some {| totalMessages := messageCount session;
              paidMessages := paidMessageCount session;
              unpaidMessages := messageCount session - paidMessageCount session |}
  end.

(** *** Payment request lifecycle *)

(** [n.toString(36)] for a non-negative integer. *)
Definition digit36 (d : Z) : ascii :=
  if d <? 10 then ascii_of_nat (Z.to_nat d + 48) else ascii_of_nat (Z.to_nat d + 87).

Fixpoint toString36_go (fuel : nat) (n : Z) (acc : string) : string :=
  match fuel with
  | O => acc
  | S f =>
      let acc' := String (digit36 (n mod 36)) acc in
      if n / 36 =? 0 then acc' else toString36_go f (n / 36) acc'
  end.

Definition toString36 (n : Z) : string :=
  toString36_go (S (Z.to_nat (Z.log2 n))) n "".

(** [generatePaymentId]; [random] is
    [Math.random().toString(36).substring(2, 10)], a draw the caller supplies. *)
Definition generatePaymentId (now : Z) (random : string) : string :=
  "pay_" +:+ toString36 now +:+ "_" +:+ random.

(** [createPaymentRequest] reads the clock twice: [stamp] is the reading
    inside [generatePaymentId], [now] the one that follows it. *)
Definition createPaymentRequest (random : string) (stamp now : Z)
           (session : PaymentSession) (config : X402PaymentConfig) (s : store)
  : store * PaymentRequest :=
  let i := generatePaymentId stamp random in
  let request :=
    {| id := i; owner := sessionKey session; amount := pricePerMessage config;
       req_network := network config; req_payTo := payTo config;
       status := pending; createdAt := now;
       expiresAt := now + 30 * 60 * 1000; txHash := None |} in
  let s1 := with_payments (<[i := request]> (pendingPayments s)) s in
  (updateSession (sessionKey session) (set_pendingPaymentId (Some i)) s1, request).

Definition getPendingPayment (paymentId : string) (s : store)
  : option PaymentRequest :=
  pendingPayments s !! paymentId.

(** *** x402-client.ts: verifyPayment *)

Record VerifyBody : Type := {
  vb_signature : string;
  vb_network : string;
  vb_payTo : string;
  vb_price : string;
}.

(** What the POST to the facilitator comes to.  [Failed m]: [fetch], [text()]
    or [json()] threw, [m] being the message of the [Error] ([None] when what
    was thrown is not an [Error]). *)
Inductive exchange : Type :=
| Failed (message : option string)
| NotOk (text : string)
| Ok (transaction net pyr : option string).

Inductive event : Type -> Type :=
| Fetch (url : string) (body : VerifyBody) : event exchange.

Definition verifyPayment (paymentSignature : string) (config : X402PaymentConfig)
  : async store event PaymentResult :=
  fun _ s =>
    (s, Await (Fetch (facilitatorUrl config +:+ "/verify")
                 {| vb_signature := paymentSignature; vb_network := network config;
                    vb_payTo := payTo config; vb_price := pricePerMessage config |})
          (fun x _ s' =>
             (s', Done
                match x with
                | NotOk text =>
                    {| success := false; res_txHash := None; res_network := None;
                       payer := None; error := Some text |}
                | Ok transaction net pyr =>
                    {| success := true; res_txHash := transaction;
                       res_network := net; payer := pyr; error := None |}
                | Failed (Some m) =>
                    {| success := false; res_txHash := None; res_network := None;
                       payer := None; error := Some m |}
                | Failed None =>
                    {| success := false; res_txHash := None; res_network := None;
                       payer := None; error := Some "Unknown error" |}
                end))).

(** *** Settlement through the facilitator *)

Definition failure (msg : string) : PaymentResult :=
  {| success := false; res_txHash := None; res_network := None; payer := None;
     error := Some msg |}.

(** [payment] is the object read from the map before the [await]; the
    assignments after it go to that same object, which is the one stored under
    [paymentId] for as long as the entry has not been deleted (two requests
    never share an id). *)
Definition processPaymentCallback (paymentId paymentSignature : string)
           (config : X402PaymentConfig) : async store event PaymentResult :=
  fun now s =>
    match pendingPayments s !! paymentId with
    | None => (s, Done (failure "Payment not found"))
    | Some payment =>
        if negb (bool_decide (status payment = pending)) then
          (s, Done (failure ("Payment already " +:+ status_text (status payment))))
        else if now >? expiresAt payment then
          (with_payments (<[paymentId := set_status expired payment]> (pendingPayments s)) s,
           Done (failure "Payment expired"))
        else
          await (verifyPayment paymentSignature config)
            (fun result now' s' =>
               if success result then
                 let s1 :=
                   with_payments
                     (alter (fun p => set_txHash (res_txHash result) (set_status paid p))
                            paymentId (pendingPayments s')) s' in
                 let s2 :=
                   match paymentSessions s1 !! owner payment with
                   | Some session =>
                       with_sessions
                         (<[owner payment := credit (res_txHash result) now' session]>
                            (paymentSessions s1)) s1
                   | None => s1
                   end in
                 (s2, Done result)
               else
                 (with_payments (alter (set_status failed) paymentId (pendingPayments s')) s',
                  Done result))
            now s
    end.

(** *** The payment-required signal *)

(** [createPaymentDeepLink]: the base URL and the query parameters, before
    their encoding by [URLSearchParams]. *)
Record DeepLink : Type := {
  baseUrl : string;
  q_session : string;
  q_msg : string;
  q_amount : string;
  q_network : string;
  q_payTo : string;
}.

Definition createPaymentDeepLink (config : X402PaymentConfig)
           (key messageId amt : string) : DeepLink :=
  {| baseUrl := if Js.truthy (telegramPaymentBotUrl config)
                then telegramPaymentBotUrl config else "https://openclaw.ai/pay";
     q_session := key; q_msg := messageId; q_amount := amt;
     q_network := network config; q_payTo := payTo config |}.

Record PaymentStatusMessage : Type := {
  requiresPayment : bool;
  message : string;
  paymentUrl : option DeepLink;
  paymentId : option string;
}.

Definition generatePaymentStatusMessage (random : string) (stamp now : Z)
           (session : PaymentSession) (config : X402PaymentConfig) (s : store)
  : store * PaymentStatusMessage :=
  if negb (isPaymentRequired session config) then
    let remaining :=
      freeMessagesPerSession config - (messageCount session - paidMessageCount session) in
    (s, {| requiresPayment := false;
           message :=
             if remaining >? 0 then
               "You have " +:+ pretty remaining +:+ " free message"
                 +:+ (if remaining =? 1 then "" else "s") +:+ " remaining."
             else "";
           paymentUrl := None; paymentId := None |})
  else
    let '(s1, paymentRequest) :=
      createPaymentRequest random stamp now session config s in
    (s1, {| requiresPayment := true;
            message := "Payment required: " +:+ pricePerMessage config
                         +:+ " USDC to continue." +:+ Js.newline +:+ Js.newline
                         +:+ "Tap the button below to pay with your crypto wallet.";
            paymentUrl :=
              Some (createPaymentDeepLink config (sessionKey session)
                      (id paymentRequest) (pricePerMessage config));
            paymentId := Some (id paymentRequest) |}).

(** *** Cleanup *)

Definition DAY : Z := 24 * 60 * 60 * 1000.

(** One turn of the loop of [cleanupExpiredPayments] over the snapshot
    [Array.from(pendingPayments.entries())].  The entry's object is also the
    one the map holds, so the assignment to [status] shows in the map. *)
Definition cleanup_step (now : Z) (acc : gmap string PaymentRequest * Z)
           (entry : string * PaymentRequest) : gmap string PaymentRequest * Z :=
  let '(m, cleaned) := acc in
  let '(i, payment) := entry in
  let '(payment1, m1, cleaned1) :=
    if bool_decide (status payment = pending) && (now >? expiresAt payment) then
      (set_status expired payment, <[i := set_status expired payment]> m, cleaned + 1)
    else (payment, m, cleaned) in
  if negb (bool_decide (status payment1 = pending))
     && (now - createdAt payment1 >? DAY) then
    (delete i m1, cleaned1)
  else (m1, cleaned1).

(** The sweep over a given listing [entries] of the map. *)
Definition cleanup_over (now : Z) (entries : list (string * PaymentRequest))
           (s : store) : store * Z :=
  let '(m, cleaned) := foldl (cleanup_step now) (pendingPayments s, 0) entries in
  (with_payments m s, cleaned).

(** The source visits the entries in insertion order, [map_to_list] lists them
    in an order of its own; each key occurs once, and the result is the same
    for every listing ([cleanup_any_order] below). *)
Definition cleanupExpiredPayments (now : Z) (s : store) : store * Z :=
  cleanup_over now (map_to_list (pendingPayments s)) s.

(** What one turn of the loop does to the map. *)
Definition cleanup_entry (now : Z) (i : string) (p : PaymentRequest)
           (m : gmap string PaymentRequest) : gmap string PaymentRequest :=
  if bool_decide (status p = pending) && (now >? expiresAt p) then
    if now - createdAt p >? DAY then delete i m
    else <[i := set_status expired p]> m
  else if negb (bool_decide (status p = pending)) && (now - createdAt p >? DAY)
       then delete i m else m.

(** A request the sweep at time [now] counts: pending and past its expiry. *)
Definition lapsed (now : Z) (p : PaymentRequest) : bool :=
  bool_decide (status p = pending) && (now >? expiresAt p).

(** *** Sample data *)

Definition no_free_messages : X402PaymentConfig :=
  {| enabled := true; network := "eip155:84532";
     payTo := "0x1234567890123456789012345678901234567890";
     pricePerMessage := "$0.01"; facilitatorUrl := "https://x402.org/facilitator";
     privateKey := None; freeMessagesPerSession := 0;
     telegramPaymentBotUrl := "https://openclaw.ai/pay" |}.

Definition new_session : PaymentSession :=
  {| sessionKey := "telegram:1:2"; channelId := "telegram"; userId := "2";
     messageCount := 0; paidMessageCount := 0; lastPaymentTxHash := None;
     lastPaymentTimestamp := None; pendingPaymentId := None;
     walletAddress := None |}.

Definition sample_config : X402PaymentConfig :=
  {| enabled := true; network := "eip155:84532";
     payTo := "0x1234567890123456789012345678901234567890";
     pricePerMessage := "$0.01"; facilitatorUrl := "https://x402.org/facilitator";
     privateKey := None; freeMessagesPerSession := 3;
     telegramPaymentBotUrl := "https://openclaw.ai/pay" |}.

(** A store with one session and the request issued to it at time 1000. *)
Definition one_request : store :=
  fst (createPaymentRequest "k3x9" 1000 1000 new_session sample_config
         (fst (getOrCreateSession "telegram:1:2" "telegram" "2" empty_store))).

Definition issued_id : string := generatePaymentId 1000 "k3x9".

(** A session as the unit tests build them: created, then its two counters
    assigned. *)
Definition session_with (total paidCount : Z) : PaymentSession :=
  set_paidMessageCount paidCount (set_messageCount total new_session).

(** [one_request] with the request made to expire at time 0, as the cleanup
    test does. *)
Definition one_overdue_request : store :=
  with_payments
    (alter (fun p => {| id := id p; owner := owner p; amount := amount p;
                        req_network := req_network p; req_payTo := req_payTo p;
                        status := status p; createdAt := createdAt p;
                        expiresAt := 0; txHash := txHash p |})
           issued_id (pendingPayments one_request))
    one_request.

(** *** Notions used to state further properties *)

(** The unpaid messages of the session stored under [key]; none for a session
    yet to be created. *)
Definition unpaid (key : string) (s : store) : Z :=
  match paymentSessions s !! key with
  | Some x => messageCount x - paidMessageCount x
  | None => 0
  end.

(** What a sweep at time [now] makes of one stored request: [None] when it is
    deleted. *)
Definition swept (now : Z) (p : PaymentRequest) : option PaymentRequest :=
  if lapsed now p then
    if now - createdAt p >? DAY then None else Some (set_status expired p)
  else if negb (bool_decide (status p = pending)) && (now - createdAt p >? DAY)
       then None else Some p.

(** The result [verifyPayment] makes of what the exchange with the
    facilitator came to. *)
Definition result_of (x : exchange) : PaymentResult :=
  match x with
  | NotOk text => failure text
  | Ok transaction net pyr =>
      {| success := true; res_txHash := transaction; res_network := net;
         payer := pyr; error := None |}
  | Failed (Some m) => failure m
  | Failed None => failure "Unknown error"
  end.

(** The messages counted for the session stored under [key]. *)
Definition messages (key : string) (s : store) : Z :=
  match paymentSessions s !! key with
  | Some x => messageCount x
  | None => 0
  end.

(** The value of a digit of base 36, and the number a text of such digits
    stands for, read from the left after [v]. *)
Definition value36 (c : ascii) : Z :=
  let k := Z.of_nat (nat_of_ascii c) in
  if k <? 58 then k - 48 else k - 87.

Fixpoint decode36 (s : string) (v : Z) : Z :=
  match s with
  | EmptyString => v
  | String c r => decode36 r (36 * v + value36 c)
  end.

(** A text without the separator of the payment id. *)
Fixpoint plain (s : string) : Prop :=
  match s with
  | EmptyString => True
  | String c r => c <> "_"%char /\ plain r
  end.

(** [one_overdue_request] after a sweep at time 5000, and the request it
    then holds, expired. *)
Definition one_expired_request : store :=
  fst (cleanupExpiredPayments 5000 one_overdue_request).

Definition expired_request : PaymentRequest :=
  {| id := issued_id; owner := "telegram:1:2"; amount := "$0.01";
     req_network := "eip155:84532";
     req_payTo := "0x1234567890123456789012345678901234567890";
     status := expired; createdAt := 1000; expiresAt := 0; txHash := None |}.

End PaymentFlow.

(* ===================================================================== *)
(** ** config.ts *)
(* ===================================================================== *)

Module Config.

(** The values a configuration object holds.  [VNumber n] is the number that
    is the integer [n]; [VNearest n] is the number the program holds for an
    integer [n] that is too large to be held exactly, a number near [n];
    [VNaN] is what [parseInt] returns on text that does not start with a
    number. *)
Inductive value : Type :=
| VUndefined
| VBool (b : bool)
| VString (s : string)
| VNumber (n : Z)
| VNearest (n : Z)
| VNaN.

#[global] Instance value_eq_dec : EqDecision value.
Proof. solve_decision. Defined.

(** A plain object is a finite map from its own property names to values; a
    property may be present and hold [undefined].  [process.env] maps the
    variables that are set to their text. *)
Abbreviation object := (gmap string value).
Abbreviation environment := (gmap string string).

(** [o.k]: a missing property reads as [undefined]. *)
Definition get (o : object) (k : string) : value :=
  match o !! k with Some v => v | None => VUndefined end.

(** [{...a, ...b}]: every own property of [b], whatever its value, replaces
    that of [a]. *)
Definition spread (a b : object) : object := b ∪ a.

Definition BASE_MAINNET : string := "eip155:8453".
Definition BASE_SEPOLIA : string := "eip155:84532".
Definition FACILITATOR_TESTNET : string := "https://x402.org/facilitator".
Definition FACILITATOR_MAINNET : string := "https://api.cdp.coinbase.com/platform/v2/x402".

Definition DEFAULT_CONFIG : object :=
  list_to_map
    [ ("enabled", VBool false);
      ("network", VString BASE_SEPOLIA);
      ("payTo", VString "");
      ("pricePerMessage", VString "$0.01");
      ("facilitatorUrl", VString FACILITATOR_TESTNET);
      ("freeMessagesPerSession", VNumber 3);
      ("telegramPaymentBotUrl", VString "https://openclaw.ai/pay") ].

(** [process.env.X || undefined] *)
Definition or_undefined (x : option string) : value :=
  match x with
  | Some t => if Js.truthy t then VString t else VUndefined
  | None => VUndefined
  end.

Definition loadConfigFromEnv (env : environment) : object :=
  list_to_map
    [ ("enabled", VBool (bool_decide (env !! "X402_ENABLED" = Some "true")));
      ("network", or_undefined (env !! "X402_NETWORK"));
      ("payTo", or_undefined (env !! "X402_PAY_TO"));
      ("pricePerMessage", or_undefined (env !! "X402_PRICE_PER_MESSAGE"));
      ("facilitatorUrl", or_undefined (env !! "X402_FACILITATOR_URL"));
      ("privateKey", or_undefined (env !! "X402_PRIVATE_KEY"));
      ("freeMessagesPerSession",
        match env !! "X402_FREE_MESSAGES" with
        | Some t =>
            if Js.truthy t then
              match Js.parseInt t with
              | Some n => if Js.exact n then VNumber n else VNearest n
              | None => VNaN
              end
            else VUndefined
        | None => VUndefined
        end);
      ("telegramPaymentBotUrl", or_undefined (env !! "X402_TELEGRAM_PAYMENT_URL")) ].

(** [resolveConfig(pluginConfig?)]; spreading an absent [pluginConfig] adds
    nothing. *)
Definition resolveConfig (pluginConfig : option object) (env : environment)
  : object :=
  let envConfig := loadConfigFromEnv env in
  spread (spread DEFAULT_CONFIG (default ∅ pluginConfig)) envConfig.

(** The policy fields and the environment variable that overrides each. *)
Definition variable_of (field : string) : option string :=
  if String.eqb field "enabled" then Some "X402_ENABLED"
  else if String.eqb field "network" then Some "X402_NETWORK"
  else if String.eqb field "payTo" then Some "X402_PAY_TO"
  else if String.eqb field "pricePerMessage" then Some "X402_PRICE_PER_MESSAGE"
  else if String.eqb field "facilitatorUrl" then Some "X402_FACILITATOR_URL"
  else if String.eqb field "privateKey" then Some "X402_PRIVATE_KEY"
  else if String.eqb field "freeMessagesPerSession" then Some "X402_FREE_MESSAGES"
  else if String.eqb field "telegramPaymentBotUrl" then Some "X402_TELEGRAM_PAYMENT_URL"
  else None.

(** What overlaying in the order defaults, supplied settings, environment
    asks of a field the environment says nothing about: the supplied setting
    when there is one, the default otherwise. *)
Definition overlay_without_env (pluginConfig : option object) (field : string)
  : value :=
  match default ∅ pluginConfig !! field with
  | Some v => v
  | None => get DEFAULT_CONFIG field
  end.

(** *** validateConfig *)

(** [validateConfig(config)], on a configuration of the declared type: the
    list [errors]; [valid] is [errors.length === 0].  The text is of one-byte
    characters, for which [length] counts the characters. *)
Definition validateConfig (config : PaymentFlow.X402PaymentConfig) : list string :=
  if PaymentFlow.enabled config then
    (if negb (Js.truthy (PaymentFlow.payTo config)) then
       ["payTo wallet address is required when x402 payments are enabled"]
     else if negb (Js.startsWith (PaymentFlow.payTo config) "0x")
             || negb (String.length (PaymentFlow.payTo config) =? 42)%nat then
       ["payTo must be a valid Ethereum address (0x...)"]
     else [])
    ++ (if negb (Js.truthy (PaymentFlow.network config)) then
          ["network is required (e.g., eip155:8453 for Base Mainnet)"]
        else [])
    ++ (if negb (Js.truthy (PaymentFlow.pricePerMessage config)) then
          ["pricePerMessage is required (e.g., $0.01)"]
        else [])
  else [].

Definition valid (config : PaymentFlow.X402PaymentConfig) : bool :=
  match validateConfig config with [] => true | _ => false end.

(** *** Sample data *)

Definition supplied : object :=
  list_to_map
    [ ("enabled", VBool true);
      ("network", VString BASE_MAINNET);
      ("payTo", VString "0x1234567890123456789012345678901234567890");
      ("freeMessagesPerSession", VNumber 5) ].

End Config.

(* ===================================================================== *)
(** ** test-telegram.ts: direct on-chain verification and the bot *)
(* ===================================================================== *)

Module TelegramBot.
Import Async.

Definition USDC_CONTRACT : string := "0x036CbD53842c5426634e7929541eC2318f3dCF7e".

Definition TRANSFER_TOPIC : string :=
  "0xddf252ad1be2c89b69c2b068fc378daa952ba7f163c4a11628f55a4df523b3ef".

Definition PAYMENT_CONFIG : PaymentFlow.X402PaymentConfig :=
  {| PaymentFlow.enabled := true;
     PaymentFlow.network := "eip155:84532";
     PaymentFlow.payTo := "0xBf30B87972F7A1e1fA018615d636b2C3c7bcA8Ef";
     PaymentFlow.pricePerMessage := "$0.01";
     PaymentFlow.facilitatorUrl := "https://x402.org/facilitator";
     PaymentFlow.privateKey := None;
     PaymentFlow.freeMessagesPerSession := 3;
     PaymentFlow.telegramPaymentBotUrl := "http://localhost:8402" |}.

Record Log : Type := {
  address : string;
  topics : list string;
  data : string;
}.

Record Receipt : Type := {
  status : string;
  logs : list Log;
}.

(** What [getTransactionReceipt] settles to: it rejects ([m] is the message
    of the [Error], [None] when what was thrown is not an [Error]), or it
    resolves to nothing, or to a receipt. *)
Inductive receipt_reply : Type :=
| Rejected (m : option string)
| NoReceipt
| Found (receipt : Receipt).

(** The [error] of a failed verification, one constructor for each message of
    the source, with the values the message interpolates.  [Raised] is the
    [catch] clause: [error.message], or "Verification failed" for [None];
    [NotABigInt] is the [SyntaxError] of [BigInt(transferLog.data)], caught by
    the same clause. *)
Inductive verify_error : Type :=
| AlreadyUsed           (* "Transaction already used" *)
| NotFound              (* "Transaction not found" *)
| TransactionFailed     (* "Transaction failed" *)
| NoTransfer            (* "No USDC transfer found in transaction" *)
| WrongRecipient (expected got : string)
| InsufficientAmount (expected got : Z)
| NotABigInt (payload : string)
| Raised (m : option string).

(** The result object; [amount] is the transferred value, which the source
    renders with [formatUnits(value, 6)]. *)
Record Verification : Type := {
  valid : bool;
  error : option verify_error;
  amount : option Z;
  from : option string;
}.

Definition invalid (e : verify_error) : Verification :=
  {| valid := false; error := Some e; amount := None; from := None |}.

(** The messages the bot sends, one constructor for each text of the source
    with the values it interpolates. *)
Inductive outmsg : Type :=
| Help
| Status (used paidCount freeRemaining : Z)
| SessionReset
| PaidUsage
| Verifying
| VerificationFailed (e : option verify_error)
| PaymentVerified (amt : option Z) (sender : option string) (tx : string) (available : Z)
| UnknownCommand
| PaymentRequired (url : option PaymentFlow.DeepLink)
| AiResponse (text : string) (warning : option Z).

Inductive event : Type -> Type :=
| GetTransactionReceipt (hash : string) : event receipt_reply
| SendMessage (chatId : Z) (text : outmsg) : event (option string).

(** The state of the process: the two maps of payment-flow.ts, the set of
    verified transaction hashes, and what the calls of [generatePaymentId]
    still to come will draw: [random n] is the draw of [Math.random] of the
    [n]-th call and [stamps n] its reading of the clock; [drawn] is the
    number of calls made. *)
Record state : Type := {
  flow : PaymentFlow.store;
  verifiedTxHashes : gset string;
  random : nat -> string;
  stamps : nat -> Z;
  drawn : nat;
}.

Definition with_flow (f : PaymentFlow.store) (s : state) : state :=
  {| flow := f; verifiedTxHashes := verifiedTxHashes s;
     random := random s; stamps := stamps s; drawn := drawn s |}.

Definition with_verified (v : gset string) (s : state) : state :=
  {| flow := flow s; verifiedTxHashes := v; random := random s;
     stamps := stamps s; drawn := drawn s |}.

Definition draw (s : state) : state * string :=
  ({| flow := flow s; verifiedTxHashes := verifiedTxHashes s;
      random := random s; stamps := stamps s; drawn := S (drawn s) |},
   random s (drawn s)).

(** [`0x${t?.slice(26)}`] where [t] is [topics[i]]. *)
Definition topic_address (t : option string) : string :=
  "0x" +:+ match t with Some x => Js.slice 26 x | None => "undefined" end.

Definition is_transfer (log : Log) : bool :=
  bool_decide (Js.toLowerCase (address log) = Js.toLowerCase USDC_CONTRACT)
  && bool_decide (topics log !! 0%nat = Some TRANSFER_TOPIC).

(** The body of the [try] block once the receipt request has settled. *)
Definition check_receipt (txHash expectedTo : string) (minAmount : Z)
           (reply : receipt_reply) (s : state) : state * Verification :=
  match reply with
  | Rejected m => (s, invalid (Raised m))
  | NoReceipt => (s, invalid NotFound)
  | Found receipt =>
      if negb (bool_decide (status receipt = "success")) then
        (s, invalid TransactionFailed)
      else
        match List.find is_transfer (logs receipt) with
        | None => (s, invalid NoTransfer)
        | Some transferLog =>
            let sender := topic_address (topics transferLog !! 1%nat) in
            let to := topic_address (topics transferLog !! 2%nat) in
            match Js.BigInt (data transferLog) with
            | None => (s, invalid (NotABigInt (data transferLog)))
            | Some v =>
                if negb (bool_decide (Js.toLowerCase to = Js.toLowerCase expectedTo))
                then (s, invalid (WrongRecipient expectedTo to))
                else if v <? minAmount
                then (s, invalid (InsufficientAmount minAmount v))
                else
                  (with_verified ({[Js.toLowerCase txHash]} ∪ verifiedTxHashes s) s,
                   {| valid := true; error := None; amount := Some v;
                      from := Some sender |})
            end
        end
  end.

Definition verifyPaymentTransaction (txHash expectedTo : string) (minAmount : Z)
  : async state event Verification :=
  fun _ s =>
    if bool_decide (Js.toLowerCase txHash ∈ verifiedTxHashes s) then
      (s, Done (invalid AlreadyUsed))
    else
      (s, Await (GetTransactionReceipt txHash)
            (fun reply _ s' =>
               let '(s'', r) := check_receipt txHash expectedTo minAmount reply s' in
               (s'', Done r))).

(** [await sendMessage(chatId, text)]; the request either completes ([None])
    or throws, and then the handler is left with that error. *)
Definition sendMessage {R} (chatId : Z) (text : outmsg)
           (k : async state event R) : async state event R :=
  fun _ s =>
    (s, Await (SendMessage chatId text)
          (fun r now s' =>
             match r with
             | None => k now s'
             | Some err => (s', Throw err)
             end)).

(** [BigInt(Math.round(parseFloat("0.01") * 1_000_000))] *)
Definition minAmount : Z := 10000.

Definition free_remaining (session : PaymentFlow.PaymentSession) : Z :=
  PaymentFlow.freeMessagesPerSession PAYMENT_CONFIG
  - (PaymentFlow.messageCount session - PaymentFlow.paidMessageCount session).

(** [session.f = ...] on the session object obtained at the start of the
    handler: it is the object the map holds under [key] (sessions are never
    removed from the map). *)
Definition assign (key : string)
           (f : PaymentFlow.PaymentSession -> PaymentFlow.PaymentSession)
           (s : state) : state :=
  with_flow
    (PaymentFlow.with_sessions (alter f key (PaymentFlow.paymentSessions (flow s)))
       (flow s)) s.

Definition current (key : string) (fallback : PaymentFlow.PaymentSession)
           (s : state) : PaymentFlow.PaymentSession :=
  default fallback (PaymentFlow.paymentSessions (flow s) !! key).

Definition handleMessage (chatId userId : Z) (text : string)
  : async state event unit :=
  fun now s =>
    let key := "telegram:" +:+ pretty chatId +:+ ":" +:+ pretty userId in
    let '(f1, session) :=
      PaymentFlow.getOrCreateSession key "telegram" (pretty userId) (flow s) in
    let s1 := with_flow f1 s in
    if Js.startsWith text "/x402" then
      let command := Js.toLowerCase (Js.trim (Js.slice 5 text)) in
      if bool_decide (command = "help") || bool_decide (command = "") then
        sendMessage chatId Help (ret tt) now s1
      else if bool_decide (command = "status") then
        sendMessage chatId
          (Status (PaymentFlow.messageCount session)
             (PaymentFlow.paidMessageCount session)
             (Z.max 0 (free_remaining session)))
          (ret tt) now s1
      else if bool_decide (command = "reset") then
        let s2 :=
          assign key (fun x => PaymentFlow.set_paidMessageCount 0
                                 (PaymentFlow.set_messageCount 0 x)) s1 in
        sendMessage chatId SessionReset (ret tt) now s2
      else if Js.startsWith command "paid" then
        let txHash := Js.trim (Js.slice 4 command) in
        if negb (Js.truthy txHash) || negb (Js.startsWith txHash "0x") then
          sendMessage chatId PaidUsage (ret tt) now s1
        else
          sendMessage chatId Verifying
            (await
               (verifyPaymentTransaction txHash (PaymentFlow.payTo PAYMENT_CONFIG)
                  minAmount)
               (fun result now' s' =>
                  if negb (valid result) then
                    sendMessage chatId (VerificationFailed (error result)) (ret tt)
                      now' s'
                  else
                    let s'' :=
                      assign key
                        (fun x => PaymentFlow.set_paidMessageCount
                                    (PaymentFlow.paidMessageCount x + 3) x) s' in
                    sendMessage chatId
                      (PaymentVerified (amount result) (from result)
                         (Js.slice_to 16 txHash)
                         (Z.max 0 (free_remaining (current key session s''))))
                      (ret tt) now' s''))
            now s1
      else
        sendMessage chatId UnknownCommand (ret tt) now s1
    else if PaymentFlow.isPaymentRequired session PAYMENT_CONFIG then
      let '(s2, rnd) := draw s1 in
      let '(f3, st) :=
        PaymentFlow.generatePaymentStatusMessage rnd (stamps s1 (drawn s1)) now session
          PAYMENT_CONFIG (flow s2) in
      sendMessage chatId (PaymentRequired (PaymentFlow.paymentUrl st)) (ret tt)
        now (with_flow f3 s2)
    else
      let '(f2, _) := PaymentFlow.incrementMessageCount key (flow s1) in
      let s2 := with_flow f2 s1 in
      let remaining := free_remaining (current key session s2) in
      sendMessage chatId
        (AiResponse text
           (if (remaining >? 0) && (remaining <=? 2) then Some remaining else None))
        (ret tt) now s2.

(** *** Notions used to state the properties *)

(** A receipt that passes every check of [verifyPaymentTransaction] for the
    recipient [expectedTo] and the price [minAmount]. *)
Definition pays (receipt : Receipt) (expectedTo : string) (minAmount : Z) : Prop :=
  status receipt = "success" /\
  exists transferLog v,
    List.find is_transfer (logs receipt) = Some transferLog /\
    Js.BigInt (data transferLog) = Some v /\
    Js.toLowerCase (topic_address (topics transferLog !! 2%nat))
      = Js.toLowerCase expectedTo /\
    minAmount <= v.

(** The paid count of the session stored under [key]; a session yet to be
    created starts at 0. *)
Definition paid_count (key : string) (s : state) : Z :=
  match PaymentFlow.paymentSessions (flow s) !! key with
  | Some session => PaymentFlow.paidMessageCount session
  | None => 0
  end.

(** The verified set after a run contains the set [v]. *)
Definition keeps {R} (v : gset string) (r : state * outcome R * Z) : Prop :=
  v ⊆ verifiedTxHashes (fst (fst r)).

(** [later s s']: the process has gone from [s] to [s'] by handling messages
    and verifying transactions, each to its end, with any answers from the
    chain and from Telegram. *)
Inductive later (s : state) : state -> Prop :=
| later_now : later s s
| later_verification s' txHash expectedTo minAmount o now :
    later s s' ->
    later s (fst (call (verifyPaymentTransaction txHash expectedTo minAmount) o now s'))
| later_message s' chatId userId text o now :
    later s s' ->
    later s (fst (call (handleMessage chatId userId text) o now s')).


(** No session of the store has more unpaid messages than the bot's quota. *)
Definition within_quota (s : state) : Prop :=
  forall k, PaymentFlow.unpaid k (flow s)
            <= PaymentFlow.freeMessagesPerSession PAYMENT_CONFIG.

(** *** Sample data *)

Definition fresh : state :=
  {| flow := PaymentFlow.empty_store; verifiedTxHashes := ∅;
     random := fun _ => "k3x9"; stamps := fun _ => 1000; drawn := 0 |}.

(** A receipt with one USDC transfer of 10000 units (0.01 USDC) to the
    configured recipient. *)
Definition receipt_of_payment : Receipt :=
  {| status := "success";
     logs :=
       [ {| address := USDC_CONTRACT;
            topics :=
              [ TRANSFER_TOPIC;
                "0x0000000000000000000000001234567890abcdef1234567890abcdef12345678";
                "0x000000000000000000000000bf30b87972f7a1e1fa018615d636b2c3c7bca8ef" ];
            data := "0x2710" |} ] |}.

(** An environment in which every message is delivered and the receipt
    request settles to [reply], all at time 5000. *)
Definition chain_says (reply : receipt_reply) : oracle event :=
  fun X e => match e in event T return T * Z with
             | GetTransactionReceipt _ => (reply, 5000)
             | SendMessage _ _ => (None, 5000)
             end.

(** A transfer of 10000 units of USDC to another address, and a receipt in
    which it comes before the transfer of [receipt_of_payment]. *)
Definition transfer_elsewhere : Log :=
  {| address := USDC_CONTRACT;
     topics :=
       [ TRANSFER_TOPIC;
         "0x0000000000000000000000001234567890abcdef1234567890abcdef12345678";
         "0x0000000000000000000000009999999999999999999999999999999999999999" ];
     data := "0x2710" |}.

Definition receipt_of_two_transfers : Receipt :=
  {| status := "success"; logs := transfer_elsewhere :: logs receipt_of_payment |}.


Definition paid_command : string := "/x402 paid 0xFEED01".

End TelegramBot.

(* ===================================================================== *)
(** ** permit2: the on-chain approval status and the auto-payment processor *)
(* ===================================================================== *)

Module AutoPayment.
Import Async.

Record TokenPermissions : Type := {
  token : string;
  permitted_amount : Z;
}.

Record SignatureTransfer : Type := {
  permitted : TokenPermissions;
  spender : string;
  nonce : Z;
  deadline : Z;
}.

Record AllowanceData : Type := {
  allowance_amount : Z;
  expiration : Z;
  allowance_nonce : Z;
}.

Record Permit2ApprovalStatus : Type := {
  hasTokenApproval : bool;
  hasPermit2Allowance : bool;
  allowanceAmount : Z;
  allowanceExpiration : Z;
  needsApproval : bool;
  needsPermit2Allowance : bool;
}.

Record UserPaymentAuthorization : Type := {
  userAddress : string;
  permitSignature : option string;
  permit : option SignatureTransfer;
  authorizedAmount : Z;
  spentAmount : Z;
  expiresAt : Z;
  createdAt : Z;
}.

(** The optional [metadata], which nothing reads, is left out. *)
Record PaymentRequest : Type := {
  userId : string;
  req_userAddress : string;
  amount : Z;
  reason : string;
}.

(** The texts of [checkAuthorization], one constructor each, with the balance
    they interpolate. *)
Inductive auth_message : Type :=
| NoAuthorization        (* "No payment authorization found. ..." *)
| AuthorizationExpired   (* "Your payment authorization has expired. ..." *)
| InsufficientBalance (remaining : Z)  (* "Insufficient authorized balance. ..." *)
| OnChainExpired         (* "On-chain authorization expired. ..." *)
| AuthorizationValid (remaining : Z).

Record AuthorizationCheck : Type := {
  authorized : bool;
  check_remainingBalance : Z;
  needsReauthorization : bool;
  message : auth_message;
}.

(** The [error] of a refused payment. *)
Inductive payment_error : Type :=
| ExceedsMaximum (maximum : Z)     (* "Amount exceeds maximum: ..." *)
| Refused (m : auth_message)       (* authCheck.message *)
| AuthorizationNotFound.           (* "Authorization not found" *)

Record PaymentResult : Type := {
  success : bool;
  txHash : option string;
  error : option payment_error;
  remainingBalance : option Z;
}.

Record AutoPaymentConfig : Type := {
  chainId : Z;
  spenderAddress : string;
  recipientAddress : string;
  minBalanceThreshold : option Z;
  maxPaymentAmount : option Z;
}.

(** [parseUnits(x, 6)] for the two constants of the constructor. *)
Definition ONE_USDC : Z := 1000000.
Definition HUNDRED_USDC : Z := 100000000.

(** The constructor: the configuration the processor keeps. *)
Definition AutoPaymentProcessor (config : AutoPaymentConfig) : AutoPaymentConfig :=
  {| chainId := chainId config;
     spenderAddress := spenderAddress config;
     recipientAddress := recipientAddress config;
     minBalanceThreshold := Some (default ONE_USDC (minBalanceThreshold config));
     maxPaymentAmount := Some (default HUNDRED_USDC (maxPaymentAmount config)) |}.

(** The module-level map and queue, and the random bytes still to come
    ([entropy n] is the [n]-th draw of [crypto.getRandomValues], in hex). *)
Record state : Type := {
  userAuthorizations : gmap string UserPaymentAuthorization;
  pendingPayments : list PaymentRequest;
  entropy : nat -> string;
  drawn : nat;
}.

Definition with_authorizations (m : gmap string UserPaymentAuthorization)
           (s : state) : state :=
  {| userAuthorizations := m; pendingPayments := pendingPayments s;
     entropy := entropy s; drawn := drawn s |}.

Definition with_queue (q : list PaymentRequest) (s : state) : state :=
  {| userAuthorizations := userAuthorizations s; pendingPayments := q;
     entropy := entropy s; drawn := drawn s |}.

Definition draw (s : state) : state * string :=
  ({| userAuthorizations := userAuthorizations s;
      pendingPayments := pendingPayments s;
      entropy := entropy s; drawn := S (drawn s) |}, entropy s (drawn s)).

Definition set_spentAmount (n : Z) (a : UserPaymentAuthorization)
  : UserPaymentAuthorization :=
  {| userAddress := userAddress a; permitSignature := permitSignature a;
     permit := permit a; authorizedAmount := authorizedAmount a;
     spentAmount := n; expiresAt := expiresAt a; createdAt := createdAt a |}.

(** The two contract reads of [checkApprovalStatus], made together with
    [Promise.all]: either one of them rejects, or they resolve to the token
    allowance and the Permit2 allowance. *)
Inductive allowances : Type :=
| ReadFailed (err : string)
| Allowances (tokenAllowance : Z) (permit2Allowance : AllowanceData).

Inductive event : Type -> Type :=
| ReadAllowances (owner spender : string) : event allowances.

(** [Permit2Client.checkApprovalStatus] *)
Definition checkApprovalStatus (owner spender : string) (requiredAmount : Z)
  : async state event Permit2ApprovalStatus :=
  fun _ s =>
    (s, Await (ReadAllowances owner spender)
          (fun r nowms s' =>
             match r with
             | ReadFailed err => (s', Throw err)
             | Allowances tokenAllowance permit2Allowance =>
                 let now := nowms / 1000 in
                 let isAllowanceValid :=
                   (allowance_amount permit2Allowance >=? requiredAmount)
                   && (expiration permit2Allowance >? now) in
                 (s', Done
                        {| hasTokenApproval := tokenAllowance >=? requiredAmount;
                           hasPermit2Allowance := isAllowanceValid;
                           allowanceAmount := allowance_amount permit2Allowance;
                           allowanceExpiration := expiration permit2Allowance;
                           needsApproval := tokenAllowance <? requiredAmount;
                           needsPermit2Allowance := negb isAllowanceValid |})
             end)).

Definition getUserKey (user address : string) : string :=
  user +:+ ":" +:+ Js.toLowerCase address.

(** [registerAuthorization]: an async function without an [await], so one
    segment. *)
Definition registerAuthorization (user address : string) (ceiling : Z)
           (expires : Z) (signature : option string)
           (transfer : option SignatureTransfer) (now : Z) (s : state) : state :=
  let key := getUserKey user address in
  let authorization :=
    {| userAddress := address; permitSignature := signature; permit := transfer;
       authorizedAmount := ceiling; spentAmount := 0; expiresAt := expires;
       createdAt := now |} in
  with_authorizations (<[key := authorization]> (userAuthorizations s)) s.

Definition checkAuthorization (config : AutoPaymentConfig)
           (user address : string) (amt : Z)
  : async state event AuthorizationCheck :=
  fun nowms s =>
    let key := getUserKey user address in
    match userAuthorizations s !! key with
    | None =>
        (s, Done {| authorized := false; check_remainingBalance := 0;
                    needsReauthorization := true; message := NoAuthorization |})
    | Some auth =>
        let now := nowms / 1000 in
        if expiresAt auth <=? now then
          (s, Done {| authorized := false; check_remainingBalance := 0;
                      needsReauthorization := true;
                      message := AuthorizationExpired |})
        else
          let remaining := authorizedAmount auth - spentAmount auth in
          if remaining <? amt then
            (s, Done {| authorized := false; check_remainingBalance := remaining;
                        needsReauthorization := true;
                        message := InsufficientBalance remaining |})
          else
            await (checkApprovalStatus address (spenderAddress config) amt)
              (fun onChainStatus _ s' =>
                 if needsApproval onChainStatus || needsPermit2Allowance onChainStatus
                 then
                   (s', Done {| authorized := false;
                                check_remainingBalance := remaining;
                                needsReauthorization := true;
                                message := OnChainExpired |})
                 else
                   (s', Done {| authorized := true;
                                check_remainingBalance := remaining;
                                needsReauthorization :=
                                  remaining <? default 0 (minBalanceThreshold config);
                                message := AuthorizationValid remaining |}))
              nowms s
    end.

Definition refusal (e : payment_error) : PaymentResult :=
  {| success := false; txHash := None; error := Some e; remainingBalance := None |}.

Definition processPayment (config : AutoPaymentConfig) (request : PaymentRequest)
  : async state event PaymentResult :=
  fun nowms s =>
    if amount request >? default 0 (maxPaymentAmount config) then
      (s, Done (refusal (ExceedsMaximum (default 0 (maxPaymentAmount config)))))
    else
      await (checkAuthorization config (userId request) (req_userAddress request)
               (amount request))
        (fun authCheck _ s' =>
           if negb (authorized authCheck) then
             (s', Done (refusal (Refused (message authCheck))))
           else
             let key := getUserKey (userId request) (req_userAddress request) in
             match userAuthorizations s' !! key with
             | None => (s', Done (refusal AuthorizationNotFound))
             | Some auth =>
                 let auth' := set_spentAmount (spentAmount auth + amount request) auth in
                 let s1 :=
                   with_authorizations (<[key := auth']> (userAuthorizations s')) s' in
                 let '(s2, bytes) := draw s1 in
                 (s2, Done {| success := true;
                              txHash := Some ("0x" +:+ bytes);
                              error := None;
                              remainingBalance :=
                                Some (authorizedAmount auth' - spentAmount auth') |})
             end)
        nowms s.

Definition queuePayment (request : PaymentRequest) (s : state) : state :=
  with_queue (pendingPayments s ++ [request]) s.

(** The loop of [processPendingPayments].  The queue is read again at each
    turn, and other handlers may add to it while a payment is awaited, so the
    number of turns is not known when the loop starts: [fuel] bounds it, and a
    drain that uses it up is left with "out of fuel". *)
Fixpoint drain (config : AutoPaymentConfig) (fuel : nat)
         (results : list PaymentResult) : async state event (list PaymentResult) :=
  fun nowms s =>
    match pendingPayments s with
    | [] => (s, Done results)
    | request :: rest =>
        match fuel with
        | O => (s, Throw "out of fuel")
        | S fuel' =>
            await (processPayment config request)
              (fun result => drain config fuel' (results ++ [result]))
              nowms (with_queue rest s)
        end
    end.

Definition processPendingPayments (config : AutoPaymentConfig) (fuel : nat)
  : async state event (list PaymentResult) :=
  drain config fuel [].

Definition getAuthorizationStatus (user address : string) (s : state)
  : option UserPaymentAuthorization :=
  userAuthorizations s !! getUserKey user address.

Definition revokeAuthorization (user address : string) (s : state) : state * bool :=
  let key := getUserKey user address in
  (with_authorizations (delete key (userAuthorizations s)) s,
   bool_decide (is_Some (userAuthorizations s !! key))).

(** [getUsageStats]; the amounts are given before their rendering by
    [formatUnits], the expiry in seconds when it is positive. *)
Record UsageStats : Type := {
  totalAuthorized : Z;
  totalSpent : Z;
  stats_remainingBalance : Z;
  stats_expiresAt : option Z;
}.

Definition getUsageStats (user address : string) (s : state) : option UsageStats :=
  match getAuthorizationStatus user address s with
  | None => None
  | Some auth =>
      Some {| totalAuthorized := authorizedAmount auth;
              totalSpent := spentAmount auth;
              stats_remainingBalance := authorizedAmount auth - spentAmount auth;
              stats_expiresAt :=
                if expiresAt auth >? 0 then Some (expiresAt auth) else None |}
  end.

(** *** A call with nothing else in flight *)

(** What [processPayment], called at [nowms], comes to when no other handler
    runs while it waits for the two contract reads: [o] gives what the reads
    settle to and the clock at that moment. *)
Definition processPayment_alone (config : AutoPaymentConfig)
           (request : PaymentRequest) (o : oracle event) (nowms : Z) (s : state)
  : state * outcome PaymentResult * Z :=
  let amt := amount request in
  let key := getUserKey (userId request) (req_userAddress request) in
  if amt >? default 0 (maxPaymentAmount config) then
    (s, Returned (refusal (ExceedsMaximum (default 0 (maxPaymentAmount config)))), nowms)
  else
    match userAuthorizations s !! key with
    | None => (s, Returned (refusal (Refused NoAuthorization)), nowms)
    | Some auth =>
        let remaining := authorizedAmount auth - spentAmount auth in
        if expiresAt auth <=? nowms / 1000 then
          (s, Returned (refusal (Refused AuthorizationExpired)), nowms)
        else if remaining <? amt then
          (s, Returned (refusal (Refused (InsufficientBalance remaining))), nowms)
        else
          match o _ (ReadAllowances (req_userAddress request) (spenderAddress config)) with
          | (ReadFailed err, now') => (s, Threw err, now')
          | (Allowances tokenAllowance permit2Allowance, now') =>
              if (tokenAllowance <? amt)
                 || negb ((allowance_amount permit2Allowance >=? amt)
                          && (expiration permit2Allowance >? now' / 1000))
              then (s, Returned (refusal (Refused OnChainExpired)), now')
              else
                let auth' := set_spentAmount (spentAmount auth + amt) auth in
                let s1 := with_authorizations (<[key := auth']> (userAuthorizations s)) s in
                (fst (draw s1),
                 Returned {| success := true;
                             txHash := Some ("0x" +:+ snd (draw s1));
                             error := None;
                             remainingBalance :=
                               Some (authorizedAmount auth' - spentAmount auth') |},
                 now')
          end
    end.

(** The invariant of the data model on every stored record. *)
Definition within_ceiling (s : state) : Prop :=
  forall key a, userAuthorizations s !! key = Some a ->
                spentAmount a <= authorizedAmount a.

(** What [processPayment] does once its contract reads have settled to [reply],
    at time [nowms] and on the store [s] as it is then. *)
Definition processPayment_resumed (config : AutoPaymentConfig)
           (request : PaymentRequest) (reply : allowances) (nowms : Z) (s : state)
  : state * task state event PaymentResult :=
  let amt := amount request in
  let key := getUserKey (userId request) (req_userAddress request) in
  match reply with
  | ReadFailed err => (s, Throw err)
  | Allowances tokenAllowance permit2Allowance =>
      if (tokenAllowance <? amt)
         || negb ((allowance_amount permit2Allowance >=? amt)
                  && (expiration permit2Allowance >? nowms / 1000))
      then (s, Done (refusal (Refused OnChainExpired)))
      else
        match userAuthorizations s !! key with
        | None => (s, Done (refusal AuthorizationNotFound))
        | Some auth =>
            let auth' := set_spentAmount (spentAmount auth + amt) auth in
            let s1 := with_authorizations (<[key := auth']> (userAuthorizations s)) s in
            (fst (draw s1),
             Done {| success := true;
                     txHash := Some ("0x" +:+ snd (draw s1));
                     error := None;
                     remainingBalance :=
                       Some (authorizedAmount auth' - spentAmount auth') |})
        end
  end.

(** A charge of [amt] units to [user] at [address]. *)
Definition charge (user address : string) (amt : Z) (why : string) : PaymentRequest :=
  {| userId := user; req_userAddress := address; amount := amt; reason := why |}.

(** The operations of the engine, and what each comes to when it runs alone
    from start to end.  The chain answers each pair of contract reads in its
    turn: a drain that makes several payments may be answered differently for
    each, also for the same owner and spender. *)
Inductive operation : Type :=
| RegisterAuthorization (user address : string) (ceiling expires : Z)
                        (signature : option string) (transfer : option SignatureTransfer)
| ProcessPayment (config : AutoPaymentConfig) (request : PaymentRequest)
| RevokeAuthorization (user address : string)
| QueuePayment (request : PaymentRequest)
| ProcessPendingPayments (config : AutoPaymentConfig) (fuel : nat).

Definition perform (op : operation) (a : answers event) (now : Z) (s : state) : state :=
  match op with
  | RegisterAuthorization user address ceiling expires signature transfer =>
      registerAuthorization user address ceiling expires signature transfer now s
  | ProcessPayment config request =>
      fst (fst (fst (call_seq (processPayment config request) a now s)))
  | RevokeAuthorization user address => fst (revokeAuthorization user address s)
  | QueuePayment request => queuePayment request s
  | ProcessPendingPayments config fuel =>
      fst (fst (fst (call_seq (processPendingPayments config fuel) a now s)))
  end.

(** The assumption on registrations: the ceiling is not negative. *)
Definition nonnegative_ceiling (op : operation) : Prop :=
  match op with
  | RegisterAuthorization _ _ ceiling _ _ _ => 0 <= ceiling
  | _ => True
  end.

(** *** Overlapping calls *)

(** Calls of [processPayment] that are in flight together.  Each is a task;
    the environment starts calls, and settles the awaited read of any call that
    is waiting, in any order.  Registration and revocation have no [await] and
    take effect at once. *)
Inductive action : Type :=
| Register (now : Z) (user address : string) (ceiling expires : Z)
| Revoke (user address : string)
| Pay (now : Z) (config : AutoPaymentConfig) (request : PaymentRequest)
| Settle (i : nat) (reply : allowances) (now : Z).

Definition resume {R} (t : task state event R) (reply : allowances) (now : Z)
           (s : state) : state * task state event R :=
  match t with
  | Await e k =>
      match e in event X return (X -> Z -> state -> state * task state event R) -> _ with
      | ReadAllowances _ _ => fun k' => k' reply now s
      end k
  | _ => (s, t)
  end.

Definition step (c : state * list (task state event PaymentResult)) (a : action)
  : state * list (task state event PaymentResult) :=
  let '(s, pool) := c in
  match a with
  | Register now user address ceiling expires =>
      (registerAuthorization user address ceiling expires None None now s, pool)
  | Revoke user address => (fst (revokeAuthorization user address s), pool)
  | Pay now config request =>
      let '(s', t) := processPayment config request now s in (s', pool ++ [t])
  | Settle i reply now =>
      match pool !! i with
      | Some t => let '(s', t') := resume t reply now s in (s', <[i := t']> pool)
      | None => (s, pool)
      end
  end.

Definition exec (schedule : list action)
           (c : state * list (task state event PaymentResult))
  : state * list (task state event PaymentResult) :=
  foldl step c schedule.

(** *** Sample data *)

Definition sample_config : AutoPaymentConfig :=
  AutoPaymentProcessor
    {| chainId := 84532;
       spenderAddress := "0x1111111111111111111111111111111111111111";
       recipientAddress := "0x2222222222222222222222222222222222222222";
       minBalanceThreshold := None; maxPaymentAmount := None |}.

(** An address in lower case, which the client takes as it is. *)
Definition alice : string := "0xabcdef0123456789abcdef0123456789abcdef01".

Definition initial : state :=
  {| userAuthorizations := ∅; pendingPayments := [];
     entropy :=
       fun n =>
         match n with
         | O => "9c41d7a20b6e4f13859ac0de27b3f6481d5e90a7c3b8426f0e1d9a75c4b3e201"
         | _ => "3fa85b1c92e7d0464ab1c8f7e25d9036b7c4a1e8f90d2365c7b8a4e1d0f93c52"
         end;
     drawn := 0 |}.

Definition six (why : string) : PaymentRequest :=
  {| userId := "alice"; req_userAddress := alice; amount := 6; reason := why |}.

(** The allowance the chain reports: both approvals cover 100 units until the
    second 2000000. *)
Definition covered : allowances :=
  Allowances 100 {| allowance_amount := 100; expiration := 2000000;
                    allowance_nonce := 0 |}.

(** The same until the second 4102444800, the first of the year 2100. *)
Definition covered_for_long : allowances :=
  Allowances 100 {| allowance_amount := 100; expiration := 4102444800;
                    allowance_nonce := 0 |}.

(** An authorization of 10 units is registered; two payments of 6 are started
    one right after the other, the second while the first waits for its
    contract reads; the reads of the first settle, then those of the second. *)
Definition overlap : list action :=
  [ Register 0 "alice" alice 10 4102444800;
    Pay 1000 sample_config (six "first");
    Pay 1001 sample_config (six "second");
    Settle 0 covered_for_long 1500;
    Settle 1 covered_for_long 1600 ].

(** An environment in which every pair of contract reads settles to [covered]
    at time 1500. *)
Definition chain_covers : oracle event :=
  fun X e => match e in event T return T * Z with
             | ReadAllowances _ _ => (covered, 1500)
             end.

(** The store once Alice's authorization of 10 units is registered, and the
    record it holds. *)
Definition registered : state :=
  registerAuthorization "alice" alice 10 2000000 None None 0 initial.

Definition alice_record : UserPaymentAuthorization :=
  {| userAddress := alice; permitSignature := None; permit := None;
     authorizedAmount := 10; spentAmount := 0; expiresAt := 2000000;
     createdAt := 0 |}.

(** The store once Alice's authorization of 10 units is registered until the
    year 2100, and the record it holds. *)
Definition funded : state :=
  registerAuthorization "alice" alice 10 4102444800 None None 0 initial.

Definition funded_record : UserPaymentAuthorization :=
  {| userAddress := alice; permitSignature := None; permit := None;
     authorizedAmount := 10; spentAmount := 0; expiresAt := 4102444800;
     createdAt := 0 |}.

(** An environment in which every pair of contract reads settles to
    [covered_for_long] at time 1500. *)
Definition chain_covers_for_long : oracle event :=
  fun X e => match e in event T return T * Z with
             | ReadAllowances _ _ => (covered_for_long, 1500)
             end.

(** *** Notions used to state further properties *)

(** The conditions under which a payment, called at [nowms] with nothing else
    in flight, is charged: the amount is within the per-payment maximum, the
    record is stored, has not expired and has the room, and the contract
    reads settle to allowances that cover the amount and have not expired
    at the time they settle. *)
Definition chargeable (config : AutoPaymentConfig) (request : PaymentRequest)
           (o : oracle event) (nowms : Z) (s : state) : Prop :=
  amount request <= default 0 (maxPaymentAmount config) /\
  exists auth tokenAllowance permit2Allowance now',
    userAuthorizations s !! getUserKey (userId request) (req_userAddress request)
      = Some auth /\
    nowms / 1000 < expiresAt auth /\
    amount request <= authorizedAmount auth - spentAmount auth /\
    o _ (ReadAllowances (req_userAddress request) (spenderAddress config))
      = (Allowances tokenAllowance permit2Allowance, now') /\
    amount request <= tokenAllowance /\
    amount request <= allowance_amount permit2Allowance /\
    now' / 1000 < expiration permit2Allowance.

(** The record of a registration. *)
Definition registration (address : string) (ceiling expires : Z)
           (signature : option string) (transfer : option SignatureTransfer)
           (now : Z) : UserPaymentAuthorization :=
  {| userAddress := address; permitSignature := signature; permit := transfer;
     authorizedAmount := ceiling; spentAmount := 0; expiresAt := expires;
     createdAt := now |}.

(** The result of a check that finds no record. *)
Definition no_authorization : AuthorizationCheck :=
  {| authorized := false; check_remainingBalance := 0;
     needsReauthorization := true; message := NoAuthorization |}.

(** An environment in which every pair of contract reads fails. *)
Definition chain_fails : oracle event :=
  fun X e => match e in event T return T * Z with
             | ReadAllowances _ _ => (ReadFailed "timeout", 1500)
             end.

(** Answers in which the first pair of contract reads settles to
    [covered_for_long] and every later one fails. *)
Definition covers_then_fails : answers event :=
  fun n => match n with O => chain_covers_for_long | _ => chain_fails end.

(** Alice's store with a payment of 6 and then one of 3 queued. *)
Definition two_queued : state :=
  queuePayment (charge "alice" alice 3 "second")
    (queuePayment (six "first") funded).

(** A refund-shaped request: a payment of a negative amount. *)
Definition minus_four : PaymentRequest :=
  {| userId := "alice"; req_userAddress := alice; amount := -4; reason := "refund" |}.

End AutoPayment.

(* ===================================================================== *)
(** ** hooks.ts: the message hook and the /x402 commands *)
(* ===================================================================== *)

Module Hooks.
Import PaymentFlow.

(** The hook context; a missing [channelId] or [conversationId] is [None]. *)
Record Context : Type := {
  ctx_channelId : option string;
  conversationId : option string;
}.

(** The [content] of a command reply, one constructor for each text of
    [handleX402Command], with the values it interpolates. *)
Inductive command_text : Type :=
| HelpText                                   (* formatHelpMessage() *)
| StatusText (used paidCount freeRemaining : Z) (price net : string)
| NoPaymentRequired                          (* "No payment required at this time." *)
| PayText (msg : string)                     (* status.message *)
| UnknownCommandText (command : string).

(** What the hook returns: [{}]; the block for a payment that is due, with
    its metadata; or the reply to a command ([block: true], its content, and
    for "pay" the URL the payment keyboard is built from). *)
Inductive reply : Type :=
| Pass
| PaymentBlock (url : option DeepLink) (paymentId : option string) (msg : string)
| CommandReply (content : command_text) (keyboard : option DeepLink).

(** [x || fallback] on an optional string. *)
Definition or_else (x : option string) (fallback : string) : string :=
  match x with
  | Some t => if Js.truthy t then t else fallback
  | None => fallback
  end.

(** [handleX402Command]; [random] and [stamp] are the draw of [Math.random]
    and the reading of the clock a new payment id takes, [now] the reading of
    the clock that follows. *)
Definition handleX402Command (random : string) (stamp now : Z)
           (command key channel user : string)
           (config : X402PaymentConfig) (s : store) : store * reply :=
  if bool_decide (command = "help") || bool_decide (command = "") then
    (s, CommandReply HelpText None)
  else if bool_decide (command = "status") then
    let '(s1, session) := getOrCreateSession key channel user s in
    let freeRemaining :=
      freeMessagesPerSession config - (messageCount session - paidMessageCount session) in
    (s1, CommandReply
           (StatusText (messageCount session) (paidMessageCount session)
              (Z.max 0 freeRemaining) (pricePerMessage config) (network config))
           None)
  else if bool_decide (command = "pay") then
    let '(s1, session) := getOrCreateSession key channel user s in
    let '(s2, st) := generatePaymentStatusMessage random stamp now session config s1 in
    if negb (requiresPayment st) then (s2, CommandReply NoPaymentRequired None)
    else (s2, CommandReply (PayText (message st)) (paymentUrl st))
  else (s, CommandReply (UnknownCommandText command) None).

(** The handler of "message_received", registered when the resolved
    configuration is enabled. *)
Definition message_received (random : string) (stamp now : Z)
           (config : X402PaymentConfig)
           (sender content : string) (ctx : Context) (s : store) : store * reply :=
  let channel := or_else (ctx_channelId ctx) "unknown" in
  let key := or_else (conversationId ctx) (channel +:+ ":" +:+ sender) in
  if Js.startsWith content "/x402" then
    let command := Js.toLowerCase (Js.trim (Js.slice 5 content)) in
    handleX402Command random stamp now command key channel sender config s
  else
    let '(s1, session) := getOrCreateSession key channel sender s in
    if isPaymentRequired session config then
      let '(s2, st) :=
        generatePaymentStatusMessage random stamp now session config s1 in
      (s2, PaymentBlock (paymentUrl st) (paymentId st) (message st))
    else
      (fst (incrementMessageCount key s1), Pass).

(** The session key the hook works on. *)
Definition session_key (sender : string) (ctx : Context) : string :=
  or_else (conversationId ctx) (or_else (ctx_channelId ctx) "unknown" +:+ ":" +:+ sender).

(** The handler run on the messages of one sender in one conversation, one
    after the other; an input is the draw of [Math.random], the two readings
    of the clock and the content of a message.  The replies come in the
    order of the messages. *)
Fixpoint receive_all (config : X402PaymentConfig) (sender : string) (ctx : Context)
         (inputs : list (string * Z * Z * string)) (s : store) : store * list reply :=
  match inputs with
  | [] => (s, [])
  | (random, stamp, now, content) :: rest =>
      let '(s1, r) :=
        message_received random stamp now config sender content ctx s in
      let '(s2, rs) := receive_all config sender ctx rest s1 in
      (s2, r :: rs)
  end.

(** A reply that keeps the message from the agent and names a payment. *)
Definition is_block (r : reply) : bool :=
  match r with
  | PaymentBlock (Some _) (Some _) _ => true
  | _ => false
  end.

(** A reply to a command. *)
Definition is_command_reply (r : reply) : bool :=
  match r with CommandReply _ _ => true | _ => false end.

(** *** Sample data *)

Definition telegram_chat : Context :=
  {| ctx_channelId := Some "telegram"; conversationId := None |}.

(** The store after [n] messages of sender "2" in [telegram_chat] have been
    counted. *)
Definition session_store (n : Z) : store :=
  with_sessions
    {[ "telegram:2" :=
         {| sessionKey := "telegram:2"; channelId := "telegram"; userId := "2";
            messageCount := n; paidMessageCount := 0; lastPaymentTxHash := None;
            lastPaymentTimestamp := None; pendingPaymentId := None;
            walletAddress := None |} ]}
    empty_store.

Definition five_messages : list (string * Z * Z * string) :=
  [ ("a1", 1000, 1000, "hello"); ("a2", 2000, 2001, "how are you");
    ("a3", 3000, 3000, "third"); ("a4", 4000, 4001, "fourth");
    ("a5", 5000, 5000, "fifth") ].

End Hooks.

(* ===================================================================== *)
(** ** permit2/approval-flow.ts: the approval sub-flow *)
(* ===================================================================== *)

Module ApprovalFlow.
Import Async AutoPayment.

Definition PERMIT2_ADDRESS : string := "0x000000000022D473030F116dDEE9F6B43aC78BA3".

(** [BigInt(2) ** BigInt(256) - BigInt(1)] and [parseUnits("100", 6)] *)
Definition DEFAULT_APPROVAL_AMOUNT : Z := 2 ^ 256 - 1.
Definition MIN_ALLOWANCE_THRESHOLD : Z := 100000000.

Record ApprovalFlowConfig : Type := {
  flow_chainId : Z;
  flow_spenderAddress : string;
  defaultApprovalAmount : option Z;
  minAllowanceThreshold : option Z;
}.

(** The constructor: the configuration the flow keeps. *)
Definition Permit2ApprovalFlow (config : ApprovalFlowConfig) : ApprovalFlowConfig :=
  {| flow_chainId := flow_chainId config;
     flow_spenderAddress := flow_spenderAddress config;
     defaultApprovalAmount :=
       Some (default DEFAULT_APPROVAL_AMOUNT (defaultApprovalAmount config));
     minAllowanceThreshold :=
       Some (default MIN_ALLOWANCE_THRESHOLD (minAllowanceThreshold config)) |}.

(** [client.getUsdcAddress()]: the USDC address of [PERMIT2_CONFIGS[chainId]],
    missing for any other chain. *)
Definition getUsdcAddress (chain : Z) : option string :=
  if chain =? 84532 then Some "0x036CbD53842c5426634e7929541eC2318f3dCF7e"
  else if chain =? 8453 then Some "0x833589fCD6eDb6E08f4c7C32D4f71b54bdA02913"
  else None.

(** The call an approval transaction encodes: [approve(spender, amount)] on
    the token, before its ABI encoding. *)
Record Calldata : Type := {
  approve_spender : string;
  approve_amount : Z;
}.

Record TransactionData : Type := {
  tx_to : option string;
  tx_data : Calldata;
}.

(** An amount the ABI encoding of a [uint256] takes; on any other the
    encoder raises, which is outside this model. *)
Definition encodable (amt : Z) : Prop := 0 <= amt < 2 ^ 256.

(** [client.buildApproveTransaction(amount)], for an [encodable] amount; a
    missing amount is the maximum. *)
Definition buildApproveTransaction (chain : Z) (amt : option Z) : TransactionData :=
  {| tx_to := getUsdcAddress chain;
     tx_data := {| approve_spender := PERMIT2_ADDRESS;
                   approve_amount := default (2 ^ 256 - 1) amt |} |}.

Inductive approval_message : Type :=
| TokenApprovalMessage         (* formatTokenApprovalMessage() *)
| Permit2ApprovalMessage (amt : Z)  (* formatPermit2ApprovalMessage(amount) *)
| AlreadyGranted.              (* "Approval already granted. ..." *)

Record ApprovalCheckResult : Type := {
  needsTokenApproval : bool;
  needsPermit2Approval : bool;
  currentAllowance : Z;
  check_allowanceExpiration : Z;
  check_message : approval_message;
}.

Inductive step_type : Type := token_approval | permit2_signature.

#[global] Instance step_type_eq_dec : EqDecision step_type.
Proof. solve_decision. Defined.

Record ApprovalStep : Type := {
  type : step_type;
  title : string;
  description : string;
  transactionData : option TransactionData;
}.

Definition checkApprovalNeeded (config : ApprovalFlowConfig) (user : string)
           (requiredAmount : Z) : async state event ApprovalCheckResult :=
  await (checkApprovalStatus user (flow_spenderAddress config) requiredAmount)
    (fun status =>
       ret
         (if needsApproval status then
            {| needsTokenApproval := true; needsPermit2Approval := true;
               currentAllowance := 0; check_allowanceExpiration := 0;
               check_message := TokenApprovalMessage |}
          else if needsPermit2Allowance status then
            {| needsTokenApproval := false; needsPermit2Approval := true;
               currentAllowance := allowanceAmount status;
               check_allowanceExpiration := allowanceExpiration status;
               check_message := Permit2ApprovalMessage requiredAmount |}
          else
            {| needsTokenApproval := false; needsPermit2Approval := false;
               currentAllowance := allowanceAmount status;
               check_allowanceExpiration := allowanceExpiration status;
               check_message := AlreadyGranted |})).

Definition token_step (config : ApprovalFlowConfig) : ApprovalStep :=
  {| type := token_approval;
     title := "Approve USDC";
     description :=
       "Allow Permit2 to access your USDC. This is a one-time approval that enables gasless payments.";
     transactionData :=
       Some (buildApproveTransaction (flow_chainId config)
               (defaultApprovalAmount config)) |}.

Definition signature_step : ApprovalStep :=
  {| type := permit2_signature;
     title := "Authorize Payments";
     description :=
       "Sign a message to authorize automatic USDC payments. No gas fee required.";
     transactionData := None |}.

Definition getApprovalSteps (config : ApprovalFlowConfig) (user : string)
           (requiredAmount : Z) : async state event (list ApprovalStep) :=
  await (checkApprovalStatus user (flow_spenderAddress config) requiredAmount)
    (fun status =>
       ret
         ((if needsApproval status then [token_step config] else [])
            ++ (if needsApproval status || needsPermit2Allowance status
                then [signature_step] else []))).

(** The URL of a button of [generateApprovalUI], before the call data is
    rendered in hex. *)
Inductive link : Type :=
| ApproveLink (baseUrl : string) (to : option string) (data : Calldata)
| SignLink (baseUrl : string).

Record Button : Type := {
  button_text : string;
  button_url : link;
}.

Record ApprovalUI : Type := {
  ui_message : string;
  buttons : list Button;
}.

Definition generateApprovalUI (steps : list ApprovalStep) (baseUrl : string)
  : ApprovalUI :=
  match steps with
  | [] =>
      {| ui_message := "You're all set! Payments will be processed automatically.";
         buttons := [] |}
  | currentStep :: _ =>
      {| ui_message :=
           "Step 1 of " +:+ pretty (length steps) +:+ ": " +:+ title currentStep
             +:+ Js.newline +:+ Js.newline +:+ description currentStep;
         buttons :=
           match type currentStep, transactionData currentStep with
           | token_approval, Some td =>
               [ {| button_text := "Approve USDC";
                    button_url := ApproveLink baseUrl (tx_to td) (tx_data td) |} ]
           | token_approval, None => []
           | permit2_signature, _ =>
               [ {| button_text := "Sign Authorization";
                    button_url := SignLink baseUrl |} ]
           end |}
  end.

(** *** Sample data *)

Definition sample_flow : ApprovalFlowConfig :=
  Permit2ApprovalFlow
    {| flow_chainId := 84532;
       flow_spenderAddress := spenderAddress sample_config;
       defaultApprovalAmount := None; minAllowanceThreshold := None |}.

End ApprovalFlow.

(* ===================================================================== *)
(** * Properties *)
(* ===================================================================== *)

(** ** The metering decision *)

Section Metering.
Import PaymentFlow.

Lemma isPaymentRequired_disabled session config :
  enabled config = false -> isPaymentRequired session config = false.
Proof. intros H. unfold isPaymentRequired. now rewrite H. Qed.

(** What the decision computes when metering is enabled: the quota it compares
    with is 3 when the configured one is 0. *)
Lemma isPaymentRequired_enabled session config :
  enabled config = true ->
  isPaymentRequired session config = true <->
  messageCount session - paidMessageCount session >= freeMessages config.
Proof.
  intros H. unfold isPaymentRequired. rewrite H. simpl.
  rewrite Z.geb_le. lia.
Qed.

Lemma isPaymentRequired_nonzero_quota session config :
  enabled config = true ->
  freeMessagesPerSession config <> 0 ->
  isPaymentRequired session config = true <->
  messageCount session - paidMessageCount session >= freeMessagesPerSession config.
Proof.
  intros H Hq. rewrite isPaymentRequired_enabled by assumption.
  unfold freeMessages. destruct (Z.eqb_spec (freeMessagesPerSession config) 0); [lia|].
  reflexivity.
Qed.

(** C1, at a quota of 0.  Metering is enabled and the session has
    [unpaid = 0 >= 0 = freeQuota], so payment is due by the rule
    [unpaid >= freeQuota]; [isPaymentRequired] answers [false], because
    [freeMessagesPerSession || 3] replaces the quota 0 by 3. *)
Theorem isPaymentRequired_zero_quota :
  enabled no_free_messages = true /\
  freeMessagesPerSession no_free_messages = 0 /\
  messageCount new_session - paidMessageCount new_session
    >= freeMessagesPerSession no_free_messages /\
  isPaymentRequired new_session no_free_messages = false.
Proof. repeat split; vm_compute; congruence. Qed.

(** *** The unit tests of payment-flow.test.ts *)

Example test_payments_disabled :
  isPaymentRequired (session_with 10 0)
    {| enabled := false; network := network sample_config;
       payTo := payTo sample_config;
       pricePerMessage := pricePerMessage sample_config;
       facilitatorUrl := facilitatorUrl sample_config; privateKey := None;
       freeMessagesPerSession := 3;
       telegramPaymentBotUrl := telegramPaymentBotUrl sample_config |} = false.
Proof. reflexivity. Qed.

Example test_free_messages_remaining :
  isPaymentRequired (session_with 2 0) sample_config = false.
Proof. reflexivity. Qed.

Example test_free_messages_exhausted :
  isPaymentRequired (session_with 3 0) sample_config = true.
Proof. reflexivity. Qed.

Example test_user_has_paid :
  isPaymentRequired (session_with 5 2) sample_config = true /\
  isPaymentRequired (session_with 5 3) sample_config = false.
Proof. split; reflexivity. Qed.

Example test_increments_message_count :
  let s0 := fst (getOrCreateSession "test-inc" "telegram" "user" empty_store) in
  let '(s1, n1) := incrementMessageCount "test-inc" s0 in
  let '(s2, n2) := incrementMessageCount "test-inc" s1 in
  let '(_, n3) := incrementMessageCount "test-inc" s2 in
  (n1, n2, n3) = (1, 2, 3).
Proof. vm_compute. reflexivity. Qed.

Example test_increment_without_session :
  incrementMessageCount "non-existent" empty_store = (empty_store, 0).
Proof. reflexivity. Qed.

Example test_creates_pending_request :
  let s0 := fst (getOrCreateSession "telegram:1:2" "telegram" "2" empty_store) in
  let '(s1, request) := createPaymentRequest "k3x9" 1000 1000 new_session sample_config s0 in
  Js.startsWith (id request) "pay_" = true /\
  owner request = sessionKey new_session /\
  amount request = "$0.01" /\
  req_network request = "eip155:84532" /\
  status request = pending /\
  expiresAt request > createdAt request /\
  expiresAt request = createdAt request + 30 * 60 * 1000 /\
  getPendingPayment (id request) s1 = Some request /\
  pendingPaymentId <$> getSession "telegram:1:2" s1 = Some (Some (id request)).
Proof. vm_compute. repeat split; congruence. Qed.

Example test_marks_expired :
  let '(s1, cleaned) := cleanupExpiredPayments 5000 one_overdue_request in
  cleaned = 1 /\ status <$> getPendingPayment issued_id s1 = Some expired.
Proof. vm_compute. split; reflexivity. Qed.

Example test_stats :
  getSessionStats "non-existent" empty_store = None /\
  getSessionStats "telegram:1:2"
    (updateSession "telegram:1:2"
       (fun x => set_paidMessageCount 5 (set_messageCount 10 x))
       (fst (getOrCreateSession "telegram:1:2" "telegram" "2" empty_store)))
  = Some {| totalMessages := 10; paidMessages := 5; unpaidMessages := 5 |}.
Proof. split; vm_compute; reflexivity. Qed.

End Metering.

(** ** Configuration *)

Section Configuration.
Import Config.

(** Every property [loadConfigFromEnv] lists is taken from it, whatever it
    holds. *)
Lemma resolveConfig_env_wins pluginConfig env field v :
  loadConfigFromEnv env !! field = Some v ->
  get (resolveConfig pluginConfig env) field = v.
Proof.
  intros H. unfold get, resolveConfig, spread.
  now rewrite (lookup_union_Some_l _ _ _ _ H).
Qed.

(** What the code yields for a policy field whose variable is not set,
    whatever the supplied settings and the defaults: [false] for [enabled],
    [undefined] for every other field. *)
Lemma resolveConfig_without_variable pluginConfig env field var :
  variable_of field = Some var ->
  env !! var = None ->
  get (resolveConfig pluginConfig env) field =
    if String.eqb field "enabled" then VBool false else VUndefined.
Proof.
  intros Hvar Henv. apply resolveConfig_env_wins. revert Hvar. unfold variable_of.
  repeat match goal with
         | |- context [String.eqb field ?x] =>
             destruct (String.eqb_spec field x) as [->|?];
             [ intros [= <-]; unfold loadConfigFromEnv; rewrite Henv; reflexivity | ]
         end.
  discriminate.
Qed.

(** C9, with supplied settings and an empty environment.  No variable is
    set, so the overlay asks for the supplied [enabled = true],
    [network = "eip155:8453"], [freeMessagesPerSession = 5] and for the default
    price; [resolveConfig] yields [enabled = false] and [undefined] for the
    others, because [loadConfigFromEnv] lists every property and the spread
    copies them all. *)
Theorem resolveConfig_empty_environment :
  (forall x, (∅ : environment) !! x = None) /\
  overlay_without_env (Some supplied) "enabled" = VBool true /\
  get (resolveConfig (Some supplied) ∅) "enabled" = VBool false /\
  overlay_without_env (Some supplied) "network" = VString BASE_MAINNET /\
  get (resolveConfig (Some supplied) ∅) "network" = VUndefined /\
  overlay_without_env (Some supplied) "freeMessagesPerSession" = VNumber 5 /\
  get (resolveConfig (Some supplied) ∅) "freeMessagesPerSession" = VUndefined /\
  overlay_without_env (Some supplied) "pricePerMessage" = VString "$0.01" /\
  get (resolveConfig (Some supplied) ∅) "pricePerMessage" = VUndefined.
Proof.
  split; [intros x; apply lookup_empty|].
  repeat split; vm_compute; reflexivity.
Qed.

End Configuration.

(** ** Payment requests: expiry, settlement through the facilitator, cleanup *)

Section Requests.
Import Async PaymentFlow.

Lemma issued_request :
  pendingPayments one_request !! issued_id =
    Some {| id := issued_id; owner := "telegram:1:2"; amount := "$0.01";
            req_network := "eip155:84532";
            req_payTo := "0x1234567890123456789012345678901234567890";
            status := pending; createdAt := 1000; expiresAt := 1801000;
            txHash := None |}.
Proof. vm_compute. reflexivity. Qed.

(** C4.  A stored request whose [expiresAt] lies before [Date.now()] when
    [processPaymentCallback] is called: the call returns a failure in its first
    segment, without asking the facilitator, so whatever proof it was given;
    no session is touched; a request that was pending becomes expired, any
    other is left as it is and reported as already in its state; the request
    does not become paid. *)
Theorem expired_request_is_not_payable s paymentId paymentSignature config now payment :
  pendingPayments s !! paymentId = Some payment ->
  now > expiresAt payment ->
  exists s' msg,
    processPaymentCallback paymentId paymentSignature config now s
      = (s', Done (failure msg)) /\
    paymentSessions s' = paymentSessions s /\
    (forall i, i <> paymentId -> pendingPayments s' !! i = pendingPayments s !! i) /\
    (status payment = pending ->
       msg = "Payment expired" /\
       pendingPayments s' !! paymentId = Some (set_status expired payment)) /\
    (status payment <> pending ->
       msg = ("Payment already " +:+ status_text (status payment)) /\ s' = s) /\
    (forall p, pendingPayments s' !! paymentId = Some p ->
       status p = paid -> status payment = paid).
Proof.
  intros Hget Hlate. unfold processPaymentCallback. rewrite Hget.
  destruct (decide (status payment = pending)) as [Hp|Hp].
  - rewrite (bool_decide_eq_true_2 _ Hp). simpl.
    assert ((now >? expiresAt payment) = true) as -> by (apply Z.gtb_lt; lia).
    eexists _, _. split; [reflexivity|]. simpl.
    split; [reflexivity|]. split; [|split; [|split]].
    + intros i Hi. now rewrite lookup_insert_ne.
    + intros _. split; [reflexivity|]. apply lookup_insert_eq.
    + intros Hn. contradiction.
    + intros p. rewrite lookup_insert_eq. intros [= <-]. simpl. discriminate.
  - rewrite (bool_decide_eq_false_2 _ Hp). simpl.
    eexists _, _. split; [reflexivity|].
    split; [reflexivity|]. split; [|split; [|split]].
    + reflexivity.
    + intros Hn. contradiction.
    + intros _. split; reflexivity.
    + intros p. rewrite Hget. intros [= <-]. trivial.
Qed.

Lemma expired_request_witness :
  exists s' msg,
    processPaymentCallback issued_id "proof" sample_config 1801001 one_request
      = (s', Done (failure msg)) /\
    paymentSessions s' = paymentSessions one_request /\
    (forall i, i <> issued_id ->
       pendingPayments s' !! i = pendingPayments one_request !! i) /\
    (pending = pending ->
       msg = "Payment expired" /\
       pendingPayments s' !! issued_id
         = Some (set_status expired
                   {| id := issued_id; owner := "telegram:1:2"; amount := "$0.01";
                      req_network := "eip155:84532";
                      req_payTo := "0x1234567890123456789012345678901234567890";
                      status := pending; createdAt := 1000; expiresAt := 1801000;
                      txHash := None |})) /\
    (pending <> pending ->
       msg = ("Payment already " +:+ status_text pending) /\ s' = one_request) /\
    (forall p, pendingPayments s' !! issued_id = Some p ->
       status p = paid -> pending = paid).
Proof.
  apply (expired_request_is_not_payable one_request issued_id "proof" sample_config
           1801001
           {| id := issued_id; owner := "telegram:1:2"; amount := "$0.01";
              req_network := "eip155:84532";
              req_payTo := "0x1234567890123456789012345678901234567890";
              status := pending; createdAt := 1000; expiresAt := 1801000;
              txHash := None |}).
  - vm_compute. reflexivity.
  - simpl. lia.
Defined.

(** Settlement through the facilitator.  A pending request within its window:
    the call asks the facilitator and waits.  When the answer is affirmative,
    whatever the stores have become meanwhile, the continuation returns the
    successful result, marks the request (if still stored) paid with the
    settlement reference, and credits the owning session (if stored): one more
    paid message, the reference and the time stamped, no pending request. *)
Lemma processPaymentCallback_settles s paymentId paymentSignature config now payment :
  pendingPayments s !! paymentId = Some payment ->
  status payment = pending ->
  now <= expiresAt payment ->
  exists url body k,
    processPaymentCallback paymentId paymentSignature config now s
      = (s, Await (Fetch url body) k) /\
    forall tx net pyr now' s',
    exists s'',
      k (Ok tx net pyr) now' s'
        = (s'', Done {| success := true; res_txHash := tx; res_network := net;
                        payer := pyr; error := None |}) /\
      pendingPayments s'' !! paymentId
        = (fun p => set_txHash tx (set_status paid p)) <$> pendingPayments s' !! paymentId /\
      (forall i, i <> paymentId -> pendingPayments s'' !! i = pendingPayments s' !! i) /\
      paymentSessions s'' !! owner payment
        = credit tx now' <$> paymentSessions s' !! owner payment /\
      (forall key, key <> owner payment ->
         paymentSessions s'' !! key = paymentSessions s' !! key).
Proof.
  intros Hget Hp Hin. unfold processPaymentCallback. rewrite Hget.
  rewrite (bool_decide_eq_true_2 _ Hp). simpl.
  assert ((now >? expiresAt payment) = false) as -> by (rewrite Z.gtb_ltb; apply Z.ltb_ge; lia).
  eexists _, _, _. split; [reflexivity|].
  intros tx net pyr now' s'. simpl.
  destruct (paymentSessions s' !! owner payment) as [session|] eqn:Hs;
    eexists; (split; [reflexivity|]); simpl.
  - split; [apply lookup_alter_eq|]. split; [intros i Hi; now apply lookup_alter_ne|].
    split; [apply lookup_insert_eq|]. intros key Hk. now rewrite lookup_insert_ne.
  - split; [apply lookup_alter_eq|]. split; [intros i Hi; now apply lookup_alter_ne|].
    split; [now rewrite Hs|]. reflexivity.
Qed.

(** A negative answer marks the request failed and credits nobody. *)
Lemma processPaymentCallback_refused s paymentId paymentSignature config now payment :
  pendingPayments s !! paymentId = Some payment ->
  status payment = pending ->
  now <= expiresAt payment ->
  exists url body k,
    processPaymentCallback paymentId paymentSignature config now s
      = (s, Await (Fetch url body) k) /\
    forall text now' s',
      k (NotOk text) now' s'
        = (with_payments (alter (set_status failed) paymentId (pendingPayments s')) s',
           Done (failure text)).
Proof.
  intros Hget Hp Hin. unfold processPaymentCallback. rewrite Hget.
  rewrite (bool_decide_eq_true_2 _ Hp). simpl.
  assert ((now >? expiresAt payment) = false) as -> by (rewrite Z.gtb_ltb; apply Z.ltb_ge; lia).
  eexists _, _, _. split; reflexivity.
Qed.

(** *** Cleanup *)

Lemma lapsed_set_status_expired now p : lapsed now (set_status expired p) = false.
Proof. reflexivity. Qed.

Lemma cleanup_step_count now m cleaned i p :
  lapsed now p = false -> snd (cleanup_step now (m, cleaned) (i, p)) = cleaned.
Proof.
  unfold lapsed, cleanup_step. intros ->.
  destruct (negb _ && _); reflexivity.
Qed.

Lemma cleanup_count_unchanged now entries :
  forall m cleaned,
    Forall (fun e => lapsed now (snd e) = false) entries ->
    snd (foldl (cleanup_step now) (m, cleaned) entries) = cleaned.
Proof.
  induction entries as [|[i p] entries IH]; intros m cleaned Hall; [reflexivity|].
  inversion Hall as [|? ? Hp Hrest]; subst. simpl in Hp. cbn [foldl].
  pose proof (cleanup_step_count now m cleaned i p Hp) as Hc.
  destruct (cleanup_step now (m, cleaned) (i, p)) as [m' c']. simpl in Hc. subst c'.
  now apply IH.
Qed.

(** Where one turn of the loop leaves the visited entry, and that it leaves
    the others alone. *)
Lemma cleanup_step_lookup now m cleaned i p j :
  fst (cleanup_step now (m, cleaned) (i, p)) !! j =
    if decide (i = j) then
      if lapsed now p then
        if now - createdAt p >? DAY then None else Some (set_status expired p)
      else if negb (bool_decide (status p = pending)) && (now - createdAt p >? DAY)
           then None else m !! j
    else m !! j.
Proof.
  unfold cleanup_step, lapsed.
  destruct (bool_decide (status p = pending) && (now >? expiresAt p)) eqn:Hl; simpl.
  - destruct (now - createdAt p >? DAY); simpl.
    + rewrite lookup_delete. destruct (decide (i = j)); [reflexivity|].
      now rewrite lookup_insert_ne.
    + rewrite lookup_insert. destruct (decide (i = j)); reflexivity.
  - destruct (negb (bool_decide (status p = pending)) && (now - createdAt p >? DAY));
      simpl.
    + rewrite lookup_delete. destruct (decide (i = j)); reflexivity.
    + destruct (decide (i = j)); reflexivity.
Qed.

(** The loop invariant: the lapsed requests of the map are among the entries
    still to visit. *)
Lemma cleanup_leaves_none_lapsed now entries :
  forall m cleaned,
    (forall i p, m !! i = Some p -> lapsed now p = true -> (i, p) ∈ entries) ->
    forall i p,
      fst (foldl (cleanup_step now) (m, cleaned) entries) !! i = Some p ->
      lapsed now p = false.
Proof.
  induction entries as [|[i0 p0] entries IH]; intros m cleaned Hinv i p.
  - simpl. intros Hi. destruct (lapsed now p) eqn:Hl; [|reflexivity].
    specialize (Hinv i p Hi Hl). inversion Hinv.
  - cbn [foldl].
    pose proof (cleanup_step_lookup now m cleaned i0 p0) as Hstep.
    destruct (cleanup_step now (m, cleaned) (i0, p0)) as [m' c']. simpl in Hstep.
    apply IH. intros j q Hj Hq.
    rewrite Hstep in Hj. destruct (decide (i0 = j)) as [->|Hne].
    + destruct (lapsed now p0) eqn:Hl0.
      * destruct (now - createdAt p0 >? DAY); [discriminate|].
        injection Hj as <-. rewrite lapsed_set_status_expired in Hq. discriminate.
      * destruct (negb _ && _); [discriminate|].
        specialize (Hinv j q Hj Hq). apply elem_of_cons in Hinv as [Heq|Hin]; [|exact Hin].
        injection Heq as ->. congruence.
    + specialize (Hinv j q Hj Hq). apply elem_of_cons in Hinv as [Heq|Hin]; [|exact Hin].
      injection Heq as -> ->. contradiction.
Qed.

Lemma cleanup_result_none_lapsed now s i p :
  pendingPayments (fst (cleanupExpiredPayments now s)) !! i = Some p ->
  lapsed now p = false.
Proof.
  unfold cleanupExpiredPayments, cleanup_over.
  pose proof (cleanup_leaves_none_lapsed now (map_to_list (pendingPayments s))
                (pendingPayments s) 0) as H.
  destruct (foldl _ _ _) as [m c]. simpl in *.
  apply H. intros j q Hj _. now apply elem_of_map_to_list.
Qed.

(** A sweep at a time when no stored request is lapsed counts nothing; this is
    the second of two sweeps between which no pending request has come to its
    expiry, whether or not the clock has moved. *)
Lemma cleanup_nothing_lapsed now s :
  (forall i p, pendingPayments s !! i = Some p -> lapsed now p = false) ->
  snd (cleanupExpiredPayments now s) = 0.
Proof.
  intros Hnone. unfold cleanupExpiredPayments, cleanup_over.
  pose proof (cleanup_count_unchanged now (map_to_list (pendingPayments s))
                (pendingPayments s) 0) as H.
  destruct (foldl _ _ _) as [m c]. simpl in *. apply H.
  apply Forall_forall. intros [j q] Hin. simpl.
  apply elem_of_map_to_list in Hin. eauto.
Qed.

(** The order in which the entries are visited does not matter. *)
Lemma cleanup_step_entry now m cleaned i p :
  cleanup_step now (m, cleaned) (i, p) =
    (cleanup_entry now i p m, cleaned + if lapsed now p then 1 else 0).
Proof.
  unfold cleanup_step, cleanup_entry, lapsed.
  destruct (bool_decide (status p = pending) && (now >? expiresAt p)); simpl.
  - destruct (now - createdAt p >? DAY); simpl.
    + now rewrite delete_insert_eq.
    + reflexivity.
  - destruct (negb _ && _); simpl; f_equal; lia.
Qed.

Lemma cleanup_entry_commute now i p j q m :
  i <> j ->
  cleanup_entry now i p (cleanup_entry now j q m)
  = cleanup_entry now j q (cleanup_entry now i p m).
Proof.
  intros Hne. unfold cleanup_entry.
  repeat match goal with
         | |- context [if ?b then _ else _] => destruct b
         end;
    first [ reflexivity
          | apply delete_delete
          | now apply delete_insert_ne
          | symmetry; now apply delete_insert_ne
          | now apply insert_insert_ne ].
Qed.

Lemma cleanup_any_listing now (l1 l2 : list (string * PaymentRequest)) :
  l1 ≡ₚ l2 ->
  NoDup (l1.*1) ->
  forall acc, foldl (cleanup_step now) acc l1 = foldl (cleanup_step now) acc l2.
Proof.
  induction 1 as [|[i p] l1 l2 Hperm IH|[i p] [j q] l|l1 l2 l3 H12 IH12 H23 IH23];
    intros Hdup [m c].
  - reflexivity.
  - cbn [foldl]. apply IH. now inversion Hdup.
  - cbn [foldl]. rewrite !cleanup_step_entry. do 2 f_equal.
    + apply cleanup_entry_commute. inversion Hdup as [|? ? Hnotin _]; subst.
      intros ->. apply Hnotin. simpl. left.
    + lia.
  - rewrite IH12 by exact Hdup. apply IH23. now rewrite <- H12.
Qed.

Lemma cleanup_any_order now (entries : list (string * PaymentRequest)) s :
  entries ≡ₚ map_to_list (pendingPayments s) ->
  cleanup_over now entries s = cleanupExpiredPayments now s.
Proof.
  intros Hperm. unfold cleanupExpiredPayments, cleanup_over.
  rewrite (cleanup_any_listing now entries (map_to_list (pendingPayments s)) Hperm).
  - reflexivity.
  - rewrite Hperm. apply NoDup_fst_map_to_list.
Qed.

Lemma cleanup_fold_lookup now (l : list (string * PaymentRequest)) :
  NoDup (l.*1) ->
  forall m cleaned j,
    fst (foldl (cleanup_step now) (m, cleaned) l) !! j =
      match (list_to_map l : gmap string PaymentRequest) !! j with
      | Some p =>
          if lapsed now p then
            if now - createdAt p >? DAY then None else Some (set_status expired p)
          else if negb (bool_decide (status p = pending)) && (now - createdAt p >? DAY)
               then None else m !! j
      | None => m !! j
      end.
Proof.
  induction l as [|[i0 p0] l IH]; intros Hdup m cleaned j; [reflexivity|].
  cbn [foldl]. inversion Hdup as [|? ? Hnotin Hdup']; subst.
  pose proof (cleanup_step_lookup now m cleaned i0 p0) as Hstep.
  destruct (cleanup_step now (m, cleaned) (i0, p0)) as [m' c']. simpl in Hstep.
  rewrite (IH Hdup' m' c' j). simpl. rewrite lookup_insert.
  destruct (decide (i0 = j)) as [->|Hne].
  - rewrite (not_elem_of_list_to_map_1 l j Hnotin).
    rewrite Hstep, decide_True by reflexivity. reflexivity.
  - rewrite !Hstep, decide_False by exact Hne. reflexivity.
Qed.

Lemma cleanup_lookup now s i :
  pendingPayments (fst (cleanupExpiredPayments now s)) !! i
  = pendingPayments s !! i ≫= swept now.
Proof.
  unfold cleanupExpiredPayments, cleanup_over.
  pose proof (cleanup_fold_lookup now (map_to_list (pendingPayments s))
                (NoDup_fst_map_to_list _) (pendingPayments s) 0 i) as H.
  destruct (foldl _ _ _) as [m c]. simpl in *. rewrite H.
  rewrite list_to_map_to_list.
  destruct (pendingPayments s !! i) as [p|]; [|reflexivity]. reflexivity.
Qed.

Lemma cleanup_fold_count now (l : list (string * PaymentRequest)) :
  forall m cleaned,
    snd (foldl (cleanup_step now) (m, cleaned) l)
    = cleaned + Z.of_nat (length (List.filter (fun e => lapsed now (snd e)) l)).
Proof.
  induction l as [|[i p] l IH]; intros m cleaned; [simpl; lia|].
  cbn [foldl]. rewrite cleanup_step_entry, IH. simpl.
  destruct (lapsed now p); simpl length; lia.
Qed.

Lemma store_eq (a b : store) :
  paymentSessions a = paymentSessions b ->
  pendingPayments a = pendingPayments b ->
  a = b.
Proof. destruct a, b. simpl. now intros -> ->. Qed.

(** What a sweep has made of a request, a second sweep at the same time
    leaves as it is. *)
Lemma swept_again now p q : swept now p = Some q -> swept now q = Some q.
Proof.
  unfold swept, lapsed.
  destruct (bool_decide (status p = pending)) eqn:Hp; cbn [andb negb].
  - destruct (now >? expiresAt p) eqn:Hlate.
    + destruct (now - createdAt p >? DAY) eqn:Hold; [discriminate|].
      intros [= <-]. cbn [set_status status createdAt expiresAt].
      rewrite bool_decide_eq_false_2 by discriminate. cbn [andb negb].
      now rewrite Hold.
    + intros [= <-]. now rewrite Hp, Hlate.
  - destruct (now - createdAt p >? DAY) eqn:Hold; [discriminate|].
    intros [= <-]. rewrite Hp. cbn [andb negb]. now rewrite Hold.
Qed.

(** C8.  For every store and every time: the first sweep counts the stored
    requests that are pending and past their expiry, and moves each of them
    out of the pending state (it becomes expired, or is deleted when it is
    more than 24 hours old), so that no request it leaves is pending and past
    its expiry; a second sweep made at the same time right after it counts
    no request and leaves the store as the first one left it. *)
Theorem cleanup_twice_counts_nothing now s :
  let s1 := fst (cleanupExpiredPayments now s) in
  snd (cleanupExpiredPayments now s)
  = Z.of_nat (length (List.filter (fun e => lapsed now (snd e))
                        (map_to_list (pendingPayments s)))) /\
  (forall i p,
      pendingPayments s !! i = Some p ->
      status p = pending -> now > expiresAt p ->
      pendingPayments s1 !! i
      = if now - createdAt p >? DAY then None else Some (set_status expired p)) /\
  (forall i p,
      pendingPayments s1 !! i = Some p ->
      ~ (status p = pending /\ now > expiresAt p)) /\
  cleanupExpiredPayments now s1 = (s1, 0).
Proof.
  intros s1. split; [|split; [|split]].
  - unfold cleanupExpiredPayments, cleanup_over.
    pose proof (cleanup_fold_count now (map_to_list (pendingPayments s))
                  (pendingPayments s) 0) as H.
    destruct (foldl _ _ _) as [m c]. simpl in *. rewrite H. lia.
  - intros i p Hget Hp Hlate. subst s1. rewrite cleanup_lookup, Hget. simpl.
    unfold swept, lapsed. rewrite (bool_decide_eq_true_2 _ Hp).
    assert ((now >? expiresAt p) = true) as -> by (apply Z.gtb_lt; lia).
    reflexivity.
  - intros i p Hget [Hp Hlate].
    pose proof (cleanup_result_none_lapsed now s i p Hget) as Hnone.
    unfold lapsed in Hnone. rewrite (bool_decide_eq_true_2 _ Hp) in Hnone.
    assert ((now >? expiresAt p) = true) as Hgt by (apply Z.gtb_lt; lia).
    rewrite Hgt in Hnone. discriminate.
  - assert (snd (cleanupExpiredPayments now s1) = 0) as Hzero.
    { apply cleanup_nothing_lapsed. intros i p. apply cleanup_result_none_lapsed. }
    assert (pendingPayments (fst (cleanupExpiredPayments now s1)) = pendingPayments s1)
      as Hsame.
    { apply map_eq. intros i. rewrite cleanup_lookup.
      destruct (pendingPayments s1 !! i) as [q|] eqn:Hq; [|reflexivity].
      simpl. subst s1. rewrite cleanup_lookup in Hq.
      destruct (pendingPayments s !! i) as [p|]; [|discriminate].
      simpl in Hq. exact (swept_again now p q Hq). }
    assert (paymentSessions (fst (cleanupExpiredPayments now s1)) = paymentSessions s1)
      as Hsessions.
    { unfold cleanupExpiredPayments, cleanup_over. destruct (foldl _ _ _). reflexivity. }
    destruct (cleanupExpiredPayments now s1) as [s2 c]. simpl in *. subst c.
    f_equal. now apply store_eq.
Qed.

End Requests.

(** ** Running tasks to completion *)

Section Sequencing.
Import Async.
Context {St : Type} {E : Type -> Type}.

Lemma run_bind {A B} (o : oracle E) (f : A -> async St E B) (t : task St E A) :
  forall now s,
    (let '(s1, t1) := bind t f now s in run o now t1 s1) =
    match run o now t s with
    | (s', Returned a, now') => let '(s'', t'') := f a now' s' in run o now' t'' s''
    | (s', Threw err, now') => (s', Threw err, now')
    end.
Proof.
  induction t as [a|err|X e k IH] using task_ind; intros now s.
  - simpl. reflexivity.
  - simpl. reflexivity.
  - simpl. destruct (o X e) as [x now'].
    specialize (IH x now' s). destruct (k x now' s) as [s' t']. simpl in IH.
    apply IH.
Qed.

Lemma call_at_await {A B} (o : oracle E) (m : async St E A)
      (f : A -> async St E B) now s :
  call_at (await m f) o now s =
  match call_at m o now s with
  | (s', Returned a, now') => call_at (f a) o now' s'
  | (s', Threw err, now') => (s', Threw err, now')
  end.
Proof.
  unfold call_at, await. destruct (m now s) as [s0 t]. apply run_bind.
Qed.

Lemma run_seq_bind {A B} (f : A -> async St E B) (t : task St E A) :
  forall (a : answers E) now s,
    (let '(s1, t1) := bind t f now s in run_seq a now t1 s1) =
    match run_seq a now t s with
    | (s', Returned x, now', a') =>
        let '(s'', t'') := f x now' s' in run_seq a' now' t'' s''
    | (s', Threw err, now', a') => (s', Threw err, now', a')
    end.
Proof.
  induction t as [x|err|X e k IH] using task_ind; intros a now s.
  - simpl. reflexivity.
  - simpl. reflexivity.
  - simpl. destruct (a O X e) as [x now'].
    specialize (IH x now' s (following a)). destruct (k x now' s) as [s' t'].
    simpl in IH. apply IH.
Qed.

Lemma call_seq_await {A B} (a : answers E) (m : async St E A)
      (f : A -> async St E B) now s :
  call_seq (await m f) a now s =
  match call_seq m a now s with
  | (s', Returned x, now', a') => call_seq (f x) a' now' s'
  | (s', Threw err, now', a') => (s', Threw err, now', a')
  end.
Proof.
  unfold call_seq, await. destruct (m now s) as [s0 t]. apply run_seq_bind.
Qed.

(** A run in which every event is answered by the same oracle is a run with
    that oracle. *)
Lemma run_seq_same {R} (o : oracle E) (t : task St E R) :
  forall now s, fst (run_seq (fun _ => o) now t s) = run o now t s.
Proof.
  induction t as [r|err|X e k IH] using task_ind; intros now s.
  - reflexivity.
  - reflexivity.
  - simpl. destruct (o X e) as [x now'].
    specialize (IH x now' s). destruct (k x now' s) as [s' t'].
    exact (IH now' s').
Qed.

End Sequencing.

(** ** The delegated-authorization engine *)

Section Engine.
Import Async AutoPayment.

(** C5.  A stored authorization, whatever its ceiling and whatever has been
    spent of it, and any requested amount: when the clock in seconds,
    [Math.floor(Date.now() / 1000)], has reached [expiresAt], the check
    answers at once: not authorized, reauthorization needed. *)
Theorem expired_authorization_is_refused config s user address amt nowms auth :
  userAuthorizations s !! getUserKey user address = Some auth ->
  nowms / 1000 >= expiresAt auth ->
  checkAuthorization config user address amt nowms s =
    (s, Done {| authorized := false; check_remainingBalance := 0;
                needsReauthorization := true; message := AuthorizationExpired |}).
Proof.
  intros Hget Hexp. unfold checkAuthorization. rewrite Hget.
  assert ((expiresAt auth <=? nowms / 1000) = true) as -> by (apply Z.leb_le; lia).
  reflexivity.
Qed.

Lemma expired_authorization_witness :
  checkAuthorization sample_config "alice" alice 1 2000000000 registered =
    (registered,
     Done {| authorized := false; check_remainingBalance := 0;
             needsReauthorization := true; message := AuthorizationExpired |}).
Proof.
  apply (expired_authorization_is_refused sample_config registered "alice" alice 1
           2000000000 alice_record).
  - vm_compute. reflexivity.
  - vm_compute. discriminate.
Defined.

Lemma call_at_processPayment config request o nowms s :
  call_at (processPayment config request) o nowms s
  = processPayment_alone config request o nowms s.
Proof.
  unfold call_at, processPayment, processPayment_alone.
  destruct (amount request >? default 0 (maxPaymentAmount config)); [reflexivity|].
  unfold await, checkAuthorization.
  destruct (userAuthorizations s !! _) as [auth|] eqn:Hget; [|reflexivity].
  destruct (expiresAt auth <=? nowms / 1000); [reflexivity|].
  destruct (authorizedAmount auth - spentAmount auth <? amount request); [reflexivity|].
  simpl.
  destruct (o allowances _) as [[err|ta pa] now']; [reflexivity|].
  simpl.
  destruct ((ta <? amount request) || _); simpl; [reflexivity|].
  rewrite Hget. reflexivity.
Qed.

Lemma processPayment_alone_within_ceiling config request o nowms s :
  within_ceiling s ->
  within_ceiling (fst (fst (processPayment_alone config request o nowms s))).
Proof.
  intros Hinv. unfold processPayment_alone.
  destruct (amount request >? _); [exact Hinv|].
  destruct (userAuthorizations s !! _) as [auth|] eqn:Hget; [|exact Hinv].
  destruct (expiresAt auth <=? nowms / 1000); [exact Hinv|].
  destruct (Z.ltb_spec (authorizedAmount auth - spentAmount auth) (amount request))
    as [|Hroom]; [exact Hinv|].
  destruct (o allowances _) as [[err|ta pa] now']; [exact Hinv|].
  destruct ((ta <? amount request) || _); [exact Hinv|].
  intros key a. simpl. rewrite lookup_insert.
  destruct (decide (_ = key)) as [_|_].
  - intros [= <-]. simpl. lia.
  - apply Hinv.
Qed.

(** A payment is answered by the first of the answers, which it uses up when
    it comes to read the chain. *)
Lemma call_seq_processPayment config request (a : answers event) nowms s :
  exists a',
    call_seq (processPayment config request) a nowms s
    = (processPayment_alone config request (a O) nowms s, a') /\
    (a' = a \/ a' = following a).
Proof.
  unfold call_seq, processPayment, processPayment_alone.
  destruct (amount request >? default 0 (maxPaymentAmount config));
    [eexists; split; [reflexivity|now left]|].
  unfold await, checkAuthorization.
  destruct (userAuthorizations s !! _) as [auth|] eqn:Hget;
    [|eexists; split; [reflexivity|now left]].
  destruct (expiresAt auth <=? nowms / 1000); [eexists; split; [reflexivity|now left]|].
  destruct (authorizedAmount auth - spentAmount auth <? amount request);
    [eexists; split; [reflexivity|now left]|].
  simpl.
  destruct (a O allowances _) as [[err|ta pa] now'];
    [eexists; split; [reflexivity|now right]|].
  simpl.
  destruct ((ta <? amount request) || _); simpl;
    [eexists; split; [reflexivity|now right]|].
  rewrite Hget. eexists; split; [reflexivity|now right].
Qed.

Lemma call_seq_drain_within_ceiling config fuel :
  forall (a : answers event) results nowms s,
    within_ceiling s ->
    within_ceiling (fst (fst (fst (call_seq (drain config fuel results) a nowms s)))).
Proof.
  induction fuel as [|fuel IH]; intros a results nowms s Hinv.
  - unfold call_seq. simpl. destruct (pendingPayments s); exact Hinv.
  - destruct (pendingPayments s) as [|request rest] eqn:Hq.
    + unfold call_seq. simpl. rewrite Hq. exact Hinv.
    + replace (call_seq (drain config (S fuel) results) a nowms s)
        with (call_seq
                (await (processPayment config request)
                   (fun result => drain config fuel (results ++ [result])))
                a nowms (with_queue rest s))
        by (unfold call_seq; simpl; rewrite Hq; reflexivity).
      rewrite call_seq_await.
      destruct (call_seq_processPayment config request a nowms (with_queue rest s))
        as (a' & -> & _).
      pose proof (processPayment_alone_within_ceiling config request (a O) nowms
                    (with_queue rest s) Hinv) as H1.
      destruct (processPayment_alone config request (a O) nowms (with_queue rest s))
        as [[s1 [r|err]] now1]; simpl in H1.
      * now apply IH.
      * exact H1.
Qed.

(** Registration, payment, revocation, queueing and draining, each run alone,
    keep every record within its ceiling. *)
Lemma perform_within_ceiling op (a : answers event) now s :
  nonnegative_ceiling op ->
  within_ceiling s ->
  within_ceiling (perform op a now s).
Proof.
  intros Hop Hinv. destruct op as [user address ceiling expires sg tr|config request
                                  |user address|request|config fuel]; simpl.
  - intros key r. unfold registerAuthorization. simpl. rewrite lookup_insert.
    destruct (decide (_ = key)) as [_|_].
    + intros [= <-]. simpl. exact Hop.
    + apply Hinv.
  - destruct (call_seq_processPayment config request a now s) as (a' & -> & _).
    now apply processPayment_alone_within_ceiling.
  - intros key r. simpl. rewrite lookup_delete.
    destruct (decide (_ = key)) as [_|_]; [discriminate|]. apply Hinv.
  - exact Hinv.
  - unfold processPendingPayments. now apply call_seq_drain_within_ceiling.
Qed.

(** C6, for operations that run alone.  Each operation of the engine, run from
    its start to its end with no other operation in between, takes a store in
    which every record has [spentAmount <= authorizedAmount] to such a store;
    a registration is assumed to give a ceiling that is not negative.  The
    chain may answer each pair of reads in any way, at any time, and
    differently each time a drain asks. *)
Theorem operation_alone_keeps_within_ceiling op (a : answers event) now s :
  nonnegative_ceiling op ->
  within_ceiling s ->
  within_ceiling (perform op a now s).
Proof. apply perform_within_ceiling. Qed.

(** Hence any number of operations made in turn, each one starting when the
    one before it has ended. *)
Lemma operations_in_turn_keep_within_ceiling
      (ops : list (operation * answers event * Z)) :
  Forall (fun x => nonnegative_ceiling (fst (fst x))) ops ->
  forall s,
    within_ceiling s ->
    within_ceiling
      (foldl (fun s x => perform (fst (fst x)) (snd (fst x)) (snd x) s) s ops).
Proof.
  induction ops as [|[[op a] now] ops IH]; intros Hall s Hinv; [exact Hinv|].
  inversion Hall as [|? ? Hop Hrest]; subst. cbn [foldl]. apply IH; [exact Hrest|].
  now apply perform_within_ceiling.
Qed.

Lemma within_ceiling_initial : within_ceiling initial.
Proof. intros key r. simpl. rewrite lookup_empty. discriminate. Qed.

Lemma within_ceiling_two_queued : within_ceiling two_queued.
Proof.
  apply (perform_within_ceiling (QueuePayment (charge "alice" alice 3 "second"))
           covers_then_fails 0).
  { exact I. }
  apply (perform_within_ceiling (QueuePayment (six "first")) covers_then_fails 0).
  { exact I. }
  apply (perform_within_ceiling
           (RegisterAuthorization "alice" alice 10 4102444800 None None)
           covers_then_fails 0).
  { simpl. lia. }
  exact within_ceiling_initial.
Qed.

(** A drain of two queued payments of Alice: the first, of 6 units, is charged
    to her record of 10; the contract reads of the second, of 3 units, fail. *)
Lemma operation_alone_witness :
  (spentAmount <$>
     userAuthorizations
       (perform (ProcessPendingPayments sample_config 2) covers_then_fails 1000
          two_queued) !! getUserKey "alice" alice) = Some 6 /\
  within_ceiling
    (perform (ProcessPendingPayments sample_config 2) covers_then_fails 1000 two_queued).
Proof.
  split; [vm_compute; reflexivity|].
  apply (operation_alone_keeps_within_ceiling
           (ProcessPendingPayments sample_config 2) covers_then_fails 1000 two_queued).
  - exact I.
  - exact within_ceiling_two_queued.
Defined.

(** C6, as stated, fails when operations overlap.  Started from the empty
    store, with its one registration of a ceiling that is not negative, the
    schedule [overlap] ends in a store whose record has spent 12 of a ceiling
    of 10. *)
Lemma overlapping_payments_exceed_ceiling :
  within_ceiling initial /\
  nonnegative_ceiling (RegisterAuthorization "alice" alice 10 4102444800 None None) /\
  ~ within_ceiling (fst (exec overlap (initial, []))).
Proof.
  split; [exact within_ceiling_initial|]. split; [simpl; lia|].
  intros H.
  assert (12 <= 10); [|lia].
  apply (H (getUserKey "alice" alice)
           {| userAddress := alice; permitSignature := None; permit := None;
              authorizedAmount := 10; spentAmount := 12;
              expiresAt := 4102444800; createdAt := 0 |}).
  vm_compute. reflexivity.
Qed.

(** The first segment of [processPayment] when the local checks pass: nothing
    is written, the two contract reads are awaited, and what follows them is
    [processPayment_resumed]. *)
Lemma processPayment_waits config request nowms s auth :
  amount request <= default 0 (maxPaymentAmount config) ->
  userAuthorizations s !! getUserKey (userId request) (req_userAddress request)
    = Some auth ->
  nowms / 1000 < expiresAt auth ->
  amount request <= authorizedAmount auth - spentAmount auth ->
  exists k,
    processPayment config request nowms s
      = (s, Await (ReadAllowances (req_userAddress request) (spenderAddress config)) k) /\
    forall reply now' s',
      k reply now' s' = processPayment_resumed config request reply now' s'.
Proof.
  intros Hmax Hget Hexp Hroom. unfold processPayment.
  assert ((amount request >? default 0 (maxPaymentAmount config)) = false) as ->
      by (rewrite Z.gtb_ltb; apply Z.ltb_ge; lia).
  unfold await, checkAuthorization. rewrite Hget.
  assert ((expiresAt auth <=? nowms / 1000) = false) as -> by (apply Z.leb_gt; lia).
  assert ((authorizedAmount auth - spentAmount auth <? amount request) = false) as ->
      by (apply Z.ltb_ge; lia).
  simpl. eexists. split; [reflexivity|].
  intros [err|ta pa] now' s'; unfold processPayment_resumed; simpl; [reflexivity|].
  destruct ((ta <? amount request) || _); simpl; [reflexivity|].
  destruct (userAuthorizations s' !! _); reflexivity.
Qed.

(** The two outcomes of a call that runs alone which matter below. *)
Lemma processPayment_alone_charged config request (o : oracle event) nowms s auth
      ta pa now' :
  amount request <= default 0 (maxPaymentAmount config) ->
  userAuthorizations s !! getUserKey (userId request) (req_userAddress request)
    = Some auth ->
  nowms / 1000 < expiresAt auth ->
  amount request <= authorizedAmount auth - spentAmount auth ->
  o _ (ReadAllowances (req_userAddress request) (spenderAddress config))
    = (Allowances ta pa, now') ->
  amount request <= ta ->
  amount request <= allowance_amount pa ->
  now' / 1000 < expiration pa ->
  processPayment_alone config request o nowms s =
    (let auth' := set_spentAmount (spentAmount auth + amount request) auth in
     let s1 :=
       with_authorizations
         (<[getUserKey (userId request) (req_userAddress request) := auth']>
            (userAuthorizations s)) s in
     (fst (draw s1),
      Returned {| success := true; txHash := Some ("0x" +:+ snd (draw s1));
                  error := None;
                  remainingBalance :=
                    Some (authorizedAmount auth' - spentAmount auth') |},
      now')).
Proof.
  intros Hmax Hget Hexp Hroom Ho Hta Hpa Hlive.
  unfold processPayment_alone. cbv zeta. rewrite Hget, Ho.
  assert ((amount request >? default 0 (maxPaymentAmount config)) = false) as ->
      by (rewrite Z.gtb_ltb; apply Z.ltb_ge; lia).
  assert ((expiresAt auth <=? nowms / 1000) = false) as -> by (apply Z.leb_gt; lia).
  assert ((authorizedAmount auth - spentAmount auth <? amount request) = false) as ->
      by (apply Z.ltb_ge; lia).
  assert ((ta <? amount request) = false) as -> by (apply Z.ltb_ge; lia).
  assert ((allowance_amount pa >=? amount request) = true) as ->
      by (apply Z.geb_le; lia).
  assert ((expiration pa >? now' / 1000) = true) as -> by (apply Z.gtb_lt; lia).
  reflexivity.
Qed.

Lemma processPayment_alone_insufficient config request o nowms s auth :
  amount request <= default 0 (maxPaymentAmount config) ->
  userAuthorizations s !! getUserKey (userId request) (req_userAddress request)
    = Some auth ->
  nowms / 1000 < expiresAt auth ->
  authorizedAmount auth - spentAmount auth < amount request ->
  processPayment_alone config request o nowms s =
    (s, Returned (refusal (Refused (InsufficientBalance
                                      (authorizedAmount auth - spentAmount auth)))),
     nowms).
Proof.
  intros Hmax Hget Hexp Hshort.
  unfold processPayment_alone. cbv zeta. rewrite Hget.
  assert ((amount request >? default 0 (maxPaymentAmount config)) = false) as ->
      by (rewrite Z.gtb_ltb; apply Z.ltb_ge; lia).
  assert ((expiresAt auth <=? nowms / 1000) = false) as -> by (apply Z.leb_gt; lia).
  assert ((authorizedAmount auth - spentAmount auth <? amount request) = true) as ->
      by (apply Z.ltb_lt; lia).
  reflexivity.
Qed.

Lemma processPayment_resumed_debits config request ta pa nowms s auth :
  userAuthorizations s !! getUserKey (userId request) (req_userAddress request)
    = Some auth ->
  amount request <= ta ->
  amount request <= allowance_amount pa ->
  nowms / 1000 < expiration pa ->
  processPayment_resumed config request (Allowances ta pa) nowms s =
    (let auth' := set_spentAmount (spentAmount auth + amount request) auth in
     let s1 :=
       with_authorizations
         (<[getUserKey (userId request) (req_userAddress request) := auth']>
            (userAuthorizations s)) s in
     (fst (draw s1),
      Done {| success := true; txHash := Some ("0x" +:+ snd (draw s1));
              error := None;
              remainingBalance :=
                Some (authorizedAmount auth' - spentAmount auth') |})).
Proof.
  intros Hget Hta Hpa Hlive. unfold processPayment_resumed. cbv zeta. rewrite Hget.
  assert ((ta <? amount request) = false) as -> by (apply Z.ltb_ge; lia).
  assert ((allowance_amount pa >=? amount request) = true) as ->
      by (apply Z.geb_le; lia).
  assert ((expiration pa >? nowms / 1000) = true) as -> by (apply Z.gtb_lt; lia).
  reflexivity.
Qed.

(** C7, as the code has it.  An authorization with 10 units left, within its
    time, and two charges of 6 each, 6 being within the per-transaction ceiling.
    Made one after the other, with the chain confirming its allowances to the
    first, the first succeeds and leaves 4, and the second is refused for
    insufficient balance whatever the chain would say.  Started one right after
    the other, so that the second runs its balance check while the first waits
    for its contract reads, both succeed once the chain confirms, and the
    record has 12 more spent. *)
Theorem two_charges_of_six config s user address auth whyA whyB :
  userAuthorizations s !! getUserKey user address = Some auth ->
  authorizedAmount auth - spentAmount auth = 10 ->
  6 <= default 0 (maxPaymentAmount config) ->
  (forall (oA oB : oracle event) nowA nowB ta pa now',
      nowA / 1000 < expiresAt auth ->
      nowB / 1000 < expiresAt auth ->
      oA _ (ReadAllowances address (spenderAddress config)) = (Allowances ta pa, now') ->
      6 <= ta -> 6 <= allowance_amount pa -> now' / 1000 < expiration pa ->
      exists sA rA rB,
        call (processPayment config (charge user address 6 whyA)) oA nowA s
          = (sA, Returned rA) /\
        success rA = true /\ remainingBalance rA = Some 4 /\
        call (processPayment config (charge user address 6 whyB)) oB nowB sA
          = (sA, Returned rB) /\
        success rB = false /\ error rB = Some (Refused (InsufficientBalance 4)))
  /\
  (forall nowA nowB taA paA nowA' taB paB nowB',
      nowA / 1000 < expiresAt auth ->
      nowB / 1000 < expiresAt auth ->
      6 <= taA -> 6 <= allowance_amount paA -> nowA' / 1000 < expiration paA ->
      6 <= taB -> 6 <= allowance_amount paB -> nowB' / 1000 < expiration paB ->
      exists s' rA rB,
        exec [ Pay nowA config (charge user address 6 whyA);
               Pay nowB config (charge user address 6 whyB);
               Settle 0 (Allowances taA paA) nowA';
               Settle 1 (Allowances taB paB) nowB' ] (s, [])
          = (s', [Done rA; Done rB]) /\
        success rA = true /\ success rB = true /\
        userAuthorizations s' !! getUserKey user address
          = Some (set_spentAmount (spentAmount auth + 6 + 6) auth)).
Proof.
  intros Hget Hten Hmax. split.
  - intros oA oB nowA nowB ta pa now' HnowA HnowB HoA Hta Hpa Hexp.
    unfold call.
    rewrite (call_at_processPayment config (charge user address 6 whyA)).
    rewrite (processPayment_alone_charged config (charge user address 6 whyA)
               oA nowA s auth ta pa now') by (simpl; first [assumption | lia]).
    cbn [fst snd]. eexists _, _, _. split; [reflexivity|].
    split; [reflexivity|]. split; [simpl; f_equal; lia|].
    rewrite (call_at_processPayment config (charge user address 6 whyB)).
    rewrite (processPayment_alone_insufficient config (charge user address 6 whyB)
               oB nowB _ (set_spentAmount (spentAmount auth + 6) auth));
      simpl; try lia.
    + split; [reflexivity|]. split; [reflexivity|]. simpl.
      replace (authorizedAmount auth - (spentAmount auth + 6)) with 4 by lia.
      reflexivity.
    + apply lookup_insert_eq.
  - intros nowA nowB taA paA nowA' taB paB nowB' HnowA HnowB HtaA HpaA HexpA
           HtaB HpaB HexpB.
    destruct (processPayment_waits config (charge user address 6 whyA) nowA s auth)
      as (kA & HA & HkA); simpl; try assumption; try lia.
    destruct (processPayment_waits config (charge user address 6 whyB) nowB s auth)
      as (kB & HB & HkB); simpl; try assumption; try lia.
    simpl in HA, HB. unfold exec. cbn [foldl step]. rewrite HA. cbn [step app].
    rewrite HB. cbn [step app lookup list_lookup resume]. rewrite HkA.
    rewrite (processPayment_resumed_debits config (charge user address 6 whyA)
               taA paA nowA' s auth) by (simpl; first [assumption | lia]).
    cbv zeta. cbn [step insert list_insert lookup list_lookup resume].
    rewrite HkB.
    rewrite (processPayment_resumed_debits config (charge user address 6 whyB)
               taB paB nowB' _ (set_spentAmount (spentAmount auth + 6) auth));
      simpl; try lia; [|apply lookup_insert_eq].
    eexists _, _, _. split; [reflexivity|]. simpl.
    split; [reflexivity|]. split; [reflexivity|].
    rewrite lookup_insert_eq. reflexivity.
Qed.

Lemma two_charges_witness :
  exists sA rA rB,
    call (processPayment sample_config (charge "alice" alice 6 "first"))
      chain_covers_for_long 1000 funded = (sA, Returned rA) /\
    success rA = true /\ remainingBalance rA = Some 4 /\
    call (processPayment sample_config (charge "alice" alice 6 "second"))
      chain_covers_for_long 1700 sA = (sA, Returned rB) /\
    success rB = false /\ error rB = Some (Refused (InsufficientBalance 4)).
Proof.
  destruct (two_charges_of_six sample_config funded "alice" alice funded_record
              "first" "second") as [Hseq _].
  - vm_compute. reflexivity.
  - reflexivity.
  - vm_compute. discriminate.
  - apply (Hseq chain_covers_for_long chain_covers_for_long 1000 1700 100
             {| allowance_amount := 100; expiration := 4102444800;
                allowance_nonce := 0 |} 1500).
    + vm_compute. reflexivity.
    + vm_compute. reflexivity.
    + reflexivity.
    + lia.
    + simpl. lia.
    + vm_compute. reflexivity.
Defined.

(** C7, as stated, fails.  With 10 units left, the two charges of 6 of the
    schedule [overlap], the second started while the first waits for its
    contract reads, both succeed. *)
Lemma overlapping_charges_both_succeed :
  getUsageStats "alice" alice funded
    = Some {| totalAuthorized := 10; totalSpent := 0; stats_remainingBalance := 10;
              stats_expiresAt := Some 4102444800 |} /\
  snd (exec overlap (initial, []))
    = [ Done {| success := true;
                txHash :=
                  Some "0x9c41d7a20b6e4f13859ac0de27b3f6481d5e90a7c3b8426f0e1d9a75c4b3e201";
                error := None; remainingBalance := Some 4 |};
        Done {| success := true;
                txHash :=
                  Some "0x3fa85b1c92e7d0464ab1c8f7e25d9036b7c4a1e8f90d2365c7b8a4e1d0f93c52";
                error := None; remainingBalance := Some (-2) |} ] /\
  getUsageStats "alice" alice (fst (exec overlap (initial, [])))
    = Some {| totalAuthorized := 10; totalSpent := 12;
              stats_remainingBalance := -2; stats_expiresAt := Some 4102444800 |}.
Proof. repeat split; vm_compute; reflexivity. Qed.

End Engine.

(** ** Direct on-chain verification *)

Section Verification.
Import Async TelegramBot.

Lemma call_at_verifyPaymentTransaction txHash expectedTo minAmount
      (o : oracle event) now s :
  call_at (verifyPaymentTransaction txHash expectedTo minAmount) o now s =
    if bool_decide (Js.toLowerCase txHash ∈ verifiedTxHashes s) then
      (s, Returned (invalid AlreadyUsed), now)
    else
      let '(s', r) :=
        check_receipt txHash expectedTo minAmount
          (fst (o _ (GetTransactionReceipt txHash))) s in
      (s', Returned r, snd (o _ (GetTransactionReceipt txHash))).
Proof.
  unfold call_at, verifyPaymentTransaction.
  destruct (bool_decide _); [reflexivity|]. simpl.
  destruct (o receipt_reply _) as [reply now']. simpl.
  destruct (check_receipt _ _ _ _ _) as [s' r]. reflexivity.
Qed.

(** The checks on a settled receipt request either fail and write nothing, or
    succeed and add the reference, in lower case, to the verified set. *)
Lemma check_receipt_cases txHash expectedTo minAmount reply s :
  (exists e,
      check_receipt txHash expectedTo minAmount reply s = (s, invalid e) /\
      e <> AlreadyUsed) \/
  (exists v sender,
      check_receipt txHash expectedTo minAmount reply s =
        (with_verified ({[Js.toLowerCase txHash]} ∪ verifiedTxHashes s) s,
         {| valid := true; error := None; amount := Some v; from := Some sender |})).
Proof.
  unfold check_receipt.
  destruct reply as [m| |receipt]; [left; eexists; split; [reflexivity|discriminate]..|].
  destruct (negb _); [left; eexists; split; [reflexivity|discriminate]|].
  destruct (List.find _ _) as [transferLog|];
    [|left; eexists; split; [reflexivity|discriminate]].
  destruct (Js.BigInt _) as [v|]; [|left; eexists; split; [reflexivity|discriminate]].
  destruct (negb _); [left; eexists; split; [reflexivity|discriminate]|].
  destruct (v <? minAmount); [left; eexists; split; [reflexivity|discriminate]|].
  right. eexists _, _. reflexivity.
Qed.

Lemma check_receipt_pays txHash expectedTo minAmount receipt s :
  pays receipt expectedTo minAmount ->
  exists v sender,
    check_receipt txHash expectedTo minAmount (Found receipt) s =
      (with_verified ({[Js.toLowerCase txHash]} ∪ verifiedTxHashes s) s,
       {| valid := true; error := None; amount := Some v; from := Some sender |}).
Proof.
  intros (Hstatus & transferLog & v & Hfind & Hdata & Hto & Hmin).
  unfold check_receipt. rewrite Hfind, Hdata.
  rewrite (bool_decide_eq_true_2 _ Hstatus), (bool_decide_eq_true_2 _ Hto). simpl.
  assert ((v <? minAmount) = false) as -> by (apply Z.ltb_ge; lia).
  eexists _, _. reflexivity.
Qed.

(** A verification always returns, and its result is one of three. *)
Lemma call_verifyPaymentTransaction_cases txHash expectedTo minAmount
      (o : oracle event) now s :
  (Js.toLowerCase txHash ∈ verifiedTxHashes s /\
   call (verifyPaymentTransaction txHash expectedTo minAmount) o now s
     = (s, Returned (invalid AlreadyUsed))) \/
  ((Js.toLowerCase txHash ∉ verifiedTxHashes s) /\
   exists e,
     e <> AlreadyUsed /\
     call (verifyPaymentTransaction txHash expectedTo minAmount) o now s
       = (s, Returned (invalid e))) \/
  ((Js.toLowerCase txHash ∉ verifiedTxHashes s) /\
   exists v sender,
     call (verifyPaymentTransaction txHash expectedTo minAmount) o now s
       = (with_verified ({[Js.toLowerCase txHash]} ∪ verifiedTxHashes s) s,
          Returned {| valid := true; error := None; amount := Some v;
                      from := Some sender |})).
Proof.
  unfold call. rewrite call_at_verifyPaymentTransaction.
  destruct (decide (Js.toLowerCase txHash ∈ verifiedTxHashes s)) as [Hin|Hout].
  - left. rewrite (bool_decide_eq_true_2 _ Hin). split; [exact Hin|reflexivity].
  - right. rewrite (bool_decide_eq_false_2 _ Hout).
    destruct (check_receipt_cases txHash expectedTo minAmount
                (fst (o _ (GetTransactionReceipt txHash))) s)
      as [(e & -> & He)|(v & sender & ->)].
    + left. split; [exact Hout|]. exists e. split; [exact He|reflexivity].
    + right. split; [exact Hout|]. exists v, sender. reflexivity.
Qed.

Lemma call_at_sendMessage {R} chatId text (k : async state event R)
      (o : oracle event) now s :
  call_at (sendMessage chatId text k) o now s =
    match o _ (SendMessage chatId text) with
    | (None, now') => call_at k o now' s
    | (Some err, now') => (s, Threw err, now')
    end.
Proof.
  unfold call_at, sendMessage. simpl.
  destruct (o (option string) _) as [[err|] now']; simpl; [reflexivity|].
  destruct (k now' s); reflexivity.
Qed.

Lemma keeps_send_ret v chatId text (o : oracle event) now s :
  v ⊆ verifiedTxHashes s ->
  keeps v (call_at (sendMessage chatId text (ret tt)) o now s).
Proof.
  intros H. rewrite call_at_sendMessage.
  destruct (o (option string) _) as [[err|] now']; exact H.
Qed.

Lemma keeps_verification v txHash expectedTo minAmount (o : oracle event) now s :
  v ⊆ verifiedTxHashes s ->
  keeps v (call_at (verifyPaymentTransaction txHash expectedTo minAmount) o now s).
Proof.
  intros H. unfold keeps.
  change (fst (call_at (verifyPaymentTransaction txHash expectedTo minAmount) o now s))
    with (call (verifyPaymentTransaction txHash expectedTo minAmount) o now s).
  destruct (call_verifyPaymentTransaction_cases txHash expectedTo minAmount o now s)
    as [[_ ->]|[(_ & e & _ & ->)|(_ & v' & sender & ->)]]; simpl;
    [exact H|exact H|set_solver].
Qed.

(** Closes a goal about a handler that ends by sending one message. *)
Ltac sends H :=
  match goal with
  | |- keeps _ (let '(s', t) := sendMessage ?c ?m (ret tt) ?now ?s in run ?o ?now t s') =>
      exact (keeps_send_ret _ c m o now s H)
  end.

Lemma keeps_handleMessage chatId userId text (o : oracle event) now s :
  keeps (verifiedTxHashes s) (call_at (handleMessage chatId userId text) o now s).
Proof.
  unfold call_at at 1, handleMessage.
  destruct (PaymentFlow.getOrCreateSession _ _ _ _) as [f1 session].
  set (key := "telegram:" +:+ pretty chatId +:+ ":" +:+ pretty userId).
  set (s1 := with_flow f1 s).
  assert (verifiedTxHashes s ⊆ verifiedTxHashes s1) as H1 by reflexivity.
  destruct (Js.startsWith text "/x402").
  - destruct (bool_decide _ || bool_decide _); [sends H1|].
    destruct (bool_decide _); [sends H1|].
    destruct (bool_decide _); [sends H1|].
    destruct (Js.startsWith _ "paid"); [|sends H1].
    destruct (negb _ || negb _); [sends H1|].
    match goal with
    | |- keeps _ (let '(s', t) := sendMessage ?c ?m ?k now s1 in run o now t s') =>
        change (keeps (verifiedTxHashes s) (call_at (sendMessage c m k) o now s1))
    end.
    rewrite call_at_sendMessage.
    destruct (o (option string) _) as [[err|] now']; [exact H1|].
    rewrite call_at_await.
    pose proof (keeps_verification (verifiedTxHashes s)
                  (Js.trim (Js.slice 4 (Js.toLowerCase (Js.trim (Js.slice 5 text)))))
                  (PaymentFlow.payTo PAYMENT_CONFIG) minAmount o now' s1 H1) as Hv.
    destruct (call_at (verifyPaymentTransaction _ _ _) o now' s1)
      as [[s2 [result|err]] now2]; [|exact Hv].
    unfold keeps in Hv. simpl in Hv. unfold call_at.
    destruct (negb (valid result)); sends Hv.
  - destruct (PaymentFlow.isPaymentRequired _ _).
    + destruct (draw s1) as [s2 rnd] eqn:Hd.
      assert (verifiedTxHashes s ⊆ verifiedTxHashes s2) as H2
          by (unfold draw in Hd; injection Hd as <- _; reflexivity).
      destruct (PaymentFlow.generatePaymentStatusMessage _ _ _ _ _ _) as [f3 st].
      sends H2.
    + destruct (PaymentFlow.incrementMessageCount _ _) as [f2 n]. sends H1.
Qed.

Lemma verification_always_returns txHash expectedTo minAmount (o : oracle event)
      now s :
  exists s' r,
    call (verifyPaymentTransaction txHash expectedTo minAmount) o now s
      = (s', Returned r).
Proof.
  destruct (call_verifyPaymentTransaction_cases txHash expectedTo minAmount o now s)
    as [[_ ->]|[(_ & e & _ & ->)|(_ & v & sender & ->)]]; eexists _, _; reflexivity.
Qed.

(** The verified set only grows. *)
Lemma later_verified s s' :
  later s s' -> verifiedTxHashes s ⊆ verifiedTxHashes s'.
Proof.
  induction 1 as [|s' txHash expectedTo minAmount o now _ IH
                  |s' chatId userId text o now _ IH].
  - reflexivity.
  - exact (keeps_verification _ txHash expectedTo minAmount o now s' IH).
  - etransitivity; [exact IH|].
    exact (keeps_handleMessage chatId userId text o now s').
Qed.

(** C3.  A reference that a verification has accepted: in every state the
    process comes to afterwards, a verification of that reference, in any
    letter case and with any recipient and price, ends in its first segment
    with "Transaction already used": the receipt is not requested, nothing
    else is checked, and the state is left as it is. *)
Theorem verified_reference_is_rejected s (o : oracle event) now
        txHash expectedTo minAmount s1 r :
  call (verifyPaymentTransaction txHash expectedTo minAmount) o now s
    = (s1, Returned r) ->
  valid r = true ->
  forall s2, later s1 s2 ->
  forall txHash' expectedTo' minAmount' now',
    Js.toLowerCase txHash' = Js.toLowerCase txHash ->
    verifyPaymentTransaction txHash' expectedTo' minAmount' now' s2
      = (s2, Done (invalid AlreadyUsed)).
Proof.
  intros Hcall Hvalid s2 Hlater txHash' expectedTo' minAmount' now' Hsame.
  assert (Js.toLowerCase txHash ∈ verifiedTxHashes s1) as Hin.
  { destruct (call_verifyPaymentTransaction_cases txHash expectedTo minAmount o now s)
      as [[_ H]|[(_ & e & _ & H)|(_ & v & sender & H)]];
      rewrite H in Hcall; injection Hcall as <- <-; try discriminate Hvalid.
    simpl. set_solver. }
  apply later_verified in Hlater.
  unfold verifyPaymentTransaction. rewrite Hsame.
  rewrite bool_decide_eq_true_2 by set_solver. reflexivity.
Qed.

Lemma verified_reference_witness :
  verifyPaymentTransaction "0xfeed01" "0x0000000000000000000000000000000000000000" 1
    9000
    (fst (call (verifyPaymentTransaction "0xFEED01"
                  (PaymentFlow.payTo PAYMENT_CONFIG) minAmount)
            (chain_says (Found receipt_of_payment)) 1000 fresh))
  = (fst (call (verifyPaymentTransaction "0xFEED01"
                  (PaymentFlow.payTo PAYMENT_CONFIG) minAmount)
            (chain_says (Found receipt_of_payment)) 1000 fresh),
     Done (invalid AlreadyUsed)).
Proof.
  apply (verified_reference_is_rejected fresh
           (chain_says (Found receipt_of_payment)) 1000 "0xFEED01"
           (PaymentFlow.payTo PAYMENT_CONFIG) minAmount
           (fst (call (verifyPaymentTransaction "0xFEED01"
                         (PaymentFlow.payTo PAYMENT_CONFIG) minAmount)
                   (chain_says (Found receipt_of_payment)) 1000 fresh))
           {| valid := true; error := None; amount := Some 10000;
              from := Some "0x1234567890abcdef1234567890abcdef12345678" |}).
  - vm_compute. reflexivity.
  - reflexivity.
  - apply later_now.
  - vm_compute. reflexivity.
Defined.

(** C10.  A verification that fails returns the state it was given, so the
    set of verified references is as before; and unless it failed because the
    reference was already used, the same reference, submitted again when the
    chain has a receipt that passes the checks, is accepted. *)
Theorem failed_verification_consumes_nothing s (o : oracle event) now
        txHash expectedTo minAmount s1 r :
  call (verifyPaymentTransaction txHash expectedTo minAmount) o now s
    = (s1, Returned r) ->
  valid r = false ->
  s1 = s /\
  verifiedTxHashes s1 = verifiedTxHashes s /\
  (error r <> Some AlreadyUsed ->
   forall (o2 : oracle event) now2 receipt,
     fst (o2 _ (GetTransactionReceipt txHash)) = Found receipt ->
     pays receipt expectedTo minAmount ->
     exists s2 r2,
       call (verifyPaymentTransaction txHash expectedTo minAmount) o2 now2 s1
         = (s2, Returned r2) /\
       valid r2 = true /\
       Js.toLowerCase txHash ∈ verifiedTxHashes s2).
Proof.
  intros Hcall Hinvalid.
  destruct (call_verifyPaymentTransaction_cases txHash expectedTo minAmount o now s)
    as [[_ H]|[(Hout & e & He & H)|(_ & v & sender & H)]];
    rewrite H in Hcall; injection Hcall as <- <-; try discriminate Hinvalid.
  - split; [reflexivity|]. split; [reflexivity|]. intros Hused. now elim Hused.
  - split; [reflexivity|]. split; [reflexivity|].
    intros _ o2 now2 receipt Ho2 Hpays.
    unfold call. rewrite call_at_verifyPaymentTransaction.
    rewrite (bool_decide_eq_false_2 _ Hout), Ho2.
    destruct (check_receipt_pays txHash expectedTo minAmount receipt s Hpays)
      as (v & sender & ->).
    eexists _, _. split; [reflexivity|]. split; [reflexivity|].
    simpl. set_solver.
Qed.

Lemma receipt_of_payment_pays :
  pays receipt_of_payment (PaymentFlow.payTo PAYMENT_CONFIG) minAmount.
Proof.
  split; [reflexivity|].
  eexists _, 10000. split; [vm_compute; reflexivity|].
  split; [vm_compute; reflexivity|]. split; [vm_compute; reflexivity|].
  unfold minAmount. lia.
Defined.

Lemma failed_verification_witness :
  fresh = fresh /\
  verifiedTxHashes fresh = verifiedTxHashes fresh /\
  (Some NotFound <> Some AlreadyUsed ->
   forall (o2 : oracle event) now2 receipt,
     fst (o2 _ (GetTransactionReceipt "0xfeed01")) = Found receipt ->
     pays receipt (PaymentFlow.payTo PAYMENT_CONFIG) minAmount ->
     exists s2 r2,
       call (verifyPaymentTransaction "0xfeed01"
               (PaymentFlow.payTo PAYMENT_CONFIG) minAmount) o2 now2 fresh
         = (s2, Returned r2) /\
       valid r2 = true /\
       Js.toLowerCase "0xfeed01" ∈ verifiedTxHashes s2).
Proof.
  apply (failed_verification_consumes_nothing fresh (chain_says NoReceipt) 1000
           "0xfeed01" (PaymentFlow.payTo PAYMENT_CONFIG) minAmount fresh
           (invalid NotFound)).
  - vm_compute. reflexivity.
  - reflexivity.
Defined.

End Verification.

(** ** What a successful settlement credits *)

Section Settlement.
Import Async TelegramBot.

Lemma paid_is_no_other_command command :
  Js.startsWith command "paid" = true ->
  command <> "help" /\ command <> "" /\ command <> "status" /\ command <> "reset".
Proof.
  intros H. repeat split; intros ->; vm_compute in H; discriminate.
Qed.

Lemma getOrCreateSession_stored key channel user f f1 session :
  PaymentFlow.getOrCreateSession key channel user f = (f1, session) ->
  PaymentFlow.paymentSessions f1 !! key = Some session /\
  PaymentFlow.paidMessageCount session =
    match PaymentFlow.paymentSessions f !! key with
    | Some x => PaymentFlow.paidMessageCount x
    | None => 0
    end.
Proof.
  unfold PaymentFlow.getOrCreateSession.
  destruct (PaymentFlow.paymentSessions f !! key) as [x|] eqn:Hget;
    intros [= <- <-].
  - split; [exact Hget|reflexivity].
  - split; [apply lookup_insert_eq|reflexivity].
Qed.

(** Settlement by transaction hash.  A message "/x402 paid 0x..." whose
    reference has not been verified yet, when the "verifying" notice goes out
    and the chain has a receipt that passes the checks: by the end of the
    handler the paid count of the sender's session is 3 higher. *)
Lemma handleMessage_paid_credits_three s chatId userId text (o : oracle event)
      now receipt :
  Js.startsWith text "/x402" = true ->
  Js.startsWith (Js.toLowerCase (Js.trim (Js.slice 5 text))) "paid" = true ->
  Js.truthy (Js.trim (Js.slice 4 (Js.toLowerCase (Js.trim (Js.slice 5 text))))) = true ->
  Js.startsWith (Js.trim (Js.slice 4 (Js.toLowerCase (Js.trim (Js.slice 5 text)))))
    "0x" = true ->
  fst (o _ (SendMessage chatId Verifying)) = None ->
  Js.toLowerCase (Js.trim (Js.slice 4 (Js.toLowerCase (Js.trim (Js.slice 5 text)))))
    ∉ verifiedTxHashes s ->
  fst (o _ (GetTransactionReceipt
              (Js.trim (Js.slice 4 (Js.toLowerCase (Js.trim (Js.slice 5 text)))))))
    = Found receipt ->
  pays receipt (PaymentFlow.payTo PAYMENT_CONFIG) minAmount ->
  paid_count ("telegram:" +:+ pretty chatId +:+ ":" +:+ pretty userId)
    (fst (call (handleMessage chatId userId text) o now s))
  = paid_count ("telegram:" +:+ pretty chatId +:+ ":" +:+ pretty userId) s + 3.
Proof.
  set (command := Js.toLowerCase (Js.trim (Js.slice 5 text))).
  set (txHash := Js.trim (Js.slice 4 command)).
  set (key := "telegram:" +:+ pretty chatId +:+ ":" +:+ pretty userId).
  intros Hx402 Hpaid Htruthy H0x Hsend Hnew Hreceipt Hpays.
  destruct (paid_is_no_other_command command Hpaid) as (Hh & He & Hs & Hr).
  unfold call, call_at at 1, handleMessage.
  fold key. destruct (PaymentFlow.getOrCreateSession key _ _ _) as [f1 session] eqn:Hgc.
  apply getOrCreateSession_stored in Hgc as [Hstored Hcount].
  rewrite Hx402. fold command. fold txHash.
  rewrite (bool_decide_eq_false_2 _ Hh), (bool_decide_eq_false_2 _ He),
    (bool_decide_eq_false_2 _ Hs), (bool_decide_eq_false_2 _ Hr), Hpaid,
    Htruthy, H0x.
  cbn [orb negb].
  match goal with
  | |- context [let '(s', t) := sendMessage ?c ?m ?k now ?s1 in run o now t s'] =>
      change (let '(s', t) := sendMessage c m k now s1 in run o now t s')
        with (call_at (sendMessage c m k) o now s1)
  end.
  rewrite call_at_sendMessage.
  destruct (o (option string) (SendMessage chatId Verifying)) as [sent now1].
  simpl in Hsend. subst sent.
  rewrite call_at_await, call_at_verifyPaymentTransaction.
  rewrite bool_decide_eq_false_2 by exact Hnew.
  rewrite Hreceipt.
  destruct (check_receipt_pays txHash (PaymentFlow.payTo PAYMENT_CONFIG) minAmount
              receipt (with_flow f1 s) Hpays) as (v & sender & ->).
  cbn [valid negb]. unfold call_at at 1. cbv beta.
  match goal with
  | |- context [let '(s', t) := sendMessage ?c ?m ?k ?n ?s1 in run o ?n t s'] =>
      change (let '(s', t) := sendMessage c m k n s1 in run o n t s')
        with (call_at (sendMessage c m k) o n s1)
  end.
  rewrite call_at_sendMessage.
  assert (forall s',
             PaymentFlow.paymentSessions (flow s') = PaymentFlow.paymentSessions f1 ->
             paid_count key
               (assign key
                  (fun x => PaymentFlow.set_paidMessageCount
                              (PaymentFlow.paidMessageCount x + 3) x) s')
             = paid_count key s + 3) as Hcredit.
  { intros s' Hs'. unfold paid_count, assign. simpl.
    rewrite lookup_alter_eq, Hs', Hstored. simpl. rewrite Hcount. reflexivity. }
  destruct (o (option string) _) as [[err|] now2]; simpl; now apply Hcredit.
Qed.

(** C2, as the code has it.  Through the facilitator: for a pending request
    within its window the call waits for the facilitator, and on an
    affirmative answer the continuation credits the owning session with
    exactly one paid message, stamps the settlement reference and the time on
    it, clears its pending-request reference, and marks the request paid with
    the reference.  By transaction hash: the handler adds 3 to the paid count
    of the session, the size of the free quota of the bot's configuration. *)
Theorem settlement_credit :
  (forall s paymentId paymentSignature config now payment,
      PaymentFlow.pendingPayments s !! paymentId = Some payment ->
      PaymentFlow.status payment = PaymentFlow.pending ->
      now <= PaymentFlow.expiresAt payment ->
      exists url body k,
        PaymentFlow.processPaymentCallback paymentId paymentSignature config now s
          = (s, Await (PaymentFlow.Fetch url body) k) /\
        forall tx net pyr now' s' session,
          PaymentFlow.paymentSessions s' !! PaymentFlow.owner payment = Some session ->
          exists s'' session',
            k (PaymentFlow.Ok tx net pyr) now' s'
              = (s'', Done {| PaymentFlow.success := true;
                              PaymentFlow.res_txHash := tx;
                              PaymentFlow.res_network := net;
                              PaymentFlow.payer := pyr;
                              PaymentFlow.error := None |}) /\
            PaymentFlow.paymentSessions s'' !! PaymentFlow.owner payment
              = Some session' /\
            PaymentFlow.paidMessageCount session'
              = PaymentFlow.paidMessageCount session + 1 /\
            PaymentFlow.messageCount session' = PaymentFlow.messageCount session /\
            PaymentFlow.lastPaymentTxHash session' = tx /\
            PaymentFlow.lastPaymentTimestamp session' = Some now' /\
            PaymentFlow.pendingPaymentId session' = None /\
            (forall p,
                PaymentFlow.pendingPayments s' !! paymentId = Some p ->
                exists p',
                  PaymentFlow.pendingPayments s'' !! paymentId = Some p' /\
                  PaymentFlow.status p' = PaymentFlow.paid /\
                  PaymentFlow.txHash p' = tx))
  /\
  (forall s chatId userId text (o : oracle event) now receipt,
      Js.startsWith text "/x402" = true ->
      Js.startsWith (Js.toLowerCase (Js.trim (Js.slice 5 text))) "paid" = true ->
      Js.truthy (Js.trim (Js.slice 4 (Js.toLowerCase (Js.trim (Js.slice 5 text)))))
        = true ->
      Js.startsWith
        (Js.trim (Js.slice 4 (Js.toLowerCase (Js.trim (Js.slice 5 text))))) "0x"
        = true ->
      fst (o _ (SendMessage chatId Verifying)) = None ->
      Js.toLowerCase
        (Js.trim (Js.slice 4 (Js.toLowerCase (Js.trim (Js.slice 5 text)))))
        ∉ verifiedTxHashes s ->
      fst (o _ (GetTransactionReceipt
                  (Js.trim (Js.slice 4 (Js.toLowerCase (Js.trim (Js.slice 5 text)))))))
        = Found receipt ->
      pays receipt (PaymentFlow.payTo PAYMENT_CONFIG) minAmount ->
      paid_count ("telegram:" +:+ pretty chatId +:+ ":" +:+ pretty userId)
        (fst (call (handleMessage chatId userId text) o now s))
      = paid_count ("telegram:" +:+ pretty chatId +:+ ":" +:+ pretty userId) s + 3).
Proof.
  split.
  - intros s paymentId paymentSignature config now payment Hget Hp Hin.
    destruct (processPaymentCallback_settles s paymentId paymentSignature config now
                payment Hget Hp Hin) as (url & body & k & Hk & Hsettle).
    exists url, body, k. split; [exact Hk|].
    intros tx net pyr now' s' session Hsession.
    destruct (Hsettle tx net pyr now' s') as (s'' & Hrun & Hreq & _ & Hcredit & _).
    rewrite Hsession in Hcredit. simpl in Hcredit.
    exists s'', (PaymentFlow.credit tx now' session).
    split; [exact Hrun|]. split; [exact Hcredit|].
    repeat (split; [reflexivity|]).
    intros p Hp'. rewrite Hp' in Hreq. simpl in Hreq.
    eexists. split; [exact Hreq|]. split; reflexivity.
  - intros. now apply handleMessage_paid_credits_three with (receipt := receipt).
Qed.

Lemma settlement_credit_witness :
  (exists url body k,
      PaymentFlow.processPaymentCallback PaymentFlow.issued_id "proof"
        PaymentFlow.sample_config 2000 PaymentFlow.one_request
        = (PaymentFlow.one_request, Await (PaymentFlow.Fetch url body) k))
  /\
  paid_count ("telegram:" +:+ pretty 1 +:+ ":" +:+ pretty 2)
    (fst (call (handleMessage 1 2 paid_command)
            (chain_says (Found receipt_of_payment)) 1000 fresh))
  = paid_count ("telegram:" +:+ pretty 1 +:+ ":" +:+ pretty 2) fresh + 3.
Proof.
  destruct settlement_credit as [Hfacilitator Hdirect]. split.
  - destruct (Hfacilitator PaymentFlow.one_request PaymentFlow.issued_id "proof"
                PaymentFlow.sample_config 2000
                {| PaymentFlow.id := PaymentFlow.issued_id;
                   PaymentFlow.owner := "telegram:1:2";
                   PaymentFlow.amount := "$0.01";
                   PaymentFlow.req_network := "eip155:84532";
                   PaymentFlow.req_payTo := "0x1234567890123456789012345678901234567890";
                   PaymentFlow.status := PaymentFlow.pending;
                   PaymentFlow.createdAt := 1000;
                   PaymentFlow.expiresAt := 1801000;
                   PaymentFlow.txHash := None |})
      as (url & body & k & Hk & _).
    + vm_compute. reflexivity.
    + reflexivity.
    + simpl. lia.
    + exists url, body, k. exact Hk.
  - apply (Hdirect fresh 1 2 paid_command (chain_says (Found receipt_of_payment))
             1000 receipt_of_payment).
    + vm_compute. reflexivity.
    + vm_compute. reflexivity.
    + vm_compute. reflexivity.
    + vm_compute. reflexivity.
    + reflexivity.
    + apply not_elem_of_empty.
    + reflexivity.
    + exact receipt_of_payment_pays.
Defined.

(** C2, as stated, fails for the verification by transaction hash.  A new
    session, whose paid count is 0, sends "/x402 paid 0xFEED01"; the chain has
    a receipt that passes the checks, so the reference is verified; the paid
    count is then 3, the free quota, and not 1. *)
Lemma direct_settlement_credits_quota :
  "0xfeed01" ∈ verifiedTxHashes
                 (fst (call (handleMessage 1 2 paid_command)
                         (chain_says (Found receipt_of_payment)) 1000 fresh)) /\
  paid_count "telegram:1:2" fresh = 0 /\
  paid_count "telegram:1:2"
    (fst (call (handleMessage 1 2 paid_command)
            (chain_says (Found receipt_of_payment)) 1000 fresh)) = 3 /\
  PaymentFlow.freeMessagesPerSession PAYMENT_CONFIG = 3 /\
  paid_count "telegram:1:2"
    (fst (call (handleMessage 1 2 paid_command)
            (chain_says (Found receipt_of_payment)) 1000 fresh))
  <> paid_count "telegram:1:2" fresh + 1.
Proof.
  split; [apply (bool_decide_unpack _); vm_compute; exact I|].
  split; [vm_compute; reflexivity|]. split; [vm_compute; reflexivity|].
  split; [reflexivity|]. vm_compute. discriminate.
Qed.

End Settlement.

(* ===================================================================== *)
(** * Further properties of the code *)
(* ===================================================================== *)

(** ** Sessions and payment requests *)

Section Ledger.
Import Async PaymentFlow.

(** X1: Get-or-create twice is get-or-create once: the session returned is the
    one stored under the key, a second call returns it whatever channel and
    user it is given, and nothing else changes. *)
Theorem getOrCreateSession_again key channel user channel' user' s :
  getSession key (fst (getOrCreateSession key channel user s))
    = Some (snd (getOrCreateSession key channel user s)) /\
  getOrCreateSession key channel' user' (fst (getOrCreateSession key channel user s))
    = getOrCreateSession key channel user s /\
  (forall k, k <> key ->
     getSession k (fst (getOrCreateSession key channel user s)) = getSession k s) /\
  pendingPayments (fst (getOrCreateSession key channel user s)) = pendingPayments s /\
  (forall x, getSession key s = Some x ->
     getOrCreateSession key channel user s = (s, x)).
Proof.
  unfold getOrCreateSession, getSession.
  destruct (paymentSessions s !! key) as [x|] eqn:Hget; simpl.
  - rewrite Hget. repeat split; try reflexivity. intros y [= <-]. reflexivity.
  - rewrite lookup_insert_eq. repeat split; try reflexivity.
    + intros k Hk. now rewrite lookup_insert_ne.
    + intros y Hy. discriminate.
Qed.

Lemma createPaymentRequest_read_back random stamp now session config s :
  let s1 := fst (createPaymentRequest random stamp now session config s) in
  let request := snd (createPaymentRequest random stamp now session config s) in
  getPendingPayment (id request) s1 = Some request /\
  id request = generatePaymentId stamp random /\
  status request = pending /\
  owner request = sessionKey session /\
  amount request = pricePerMessage config /\
  createdAt request = now /\
  expiresAt request = now + 1800000 /\
  (forall i, i <> id request -> getPendingPayment i s1 = getPendingPayment i s) /\
  getSession (sessionKey session) s1
    = set_pendingPaymentId (Some (id request)) <$> getSession (sessionKey session) s /\
  (forall k, k <> sessionKey session -> getSession k s1 = getSession k s).
Proof.
  unfold createPaymentRequest, getPendingPayment, getSession, updateSession. simpl.
  destruct (paymentSessions s !! sessionKey session) as [x|] eqn:Hget; simpl.
  - rewrite !lookup_insert_eq. repeat split; try reflexivity.
    + intros i Hi. now rewrite lookup_insert_ne.
    + intros k Hk. now rewrite lookup_insert_ne.
  - rewrite lookup_insert_eq, Hget. repeat split; try reflexivity.
    intros i Hi. now rewrite lookup_insert_ne.
Qed.

(** X2: A new request can be read back under its id, which is made of the
    first reading of the clock and the random draw: it is pending, owned by
    the session, priced by the configuration, created at the second reading
    of the clock and expires 30 minutes after it; the stored session has its
    pending-request reference set to the id; requests under other ids,
    pending or not, and other sessions are left as they are. *)
Theorem createPaymentRequest_stored random stamp now session config s :
  let s1 := fst (createPaymentRequest random stamp now session config s) in
  let request := snd (createPaymentRequest random stamp now session config s) in
  getPendingPayment (id request) s1 = Some request /\
  id request = generatePaymentId stamp random /\
  status request = pending /\
  owner request = sessionKey session /\
  amount request = pricePerMessage config /\
  createdAt request = now /\
  expiresAt request = now + 1800000 /\
  (forall i, i <> id request -> getPendingPayment i s1 = getPendingPayment i s) /\
  getSession (sessionKey session) s1
    = set_pendingPaymentId (Some (id request)) <$> getSession (sessionKey session) s /\
  (forall k, k <> sessionKey session -> getSession k s1 = getSession k s).
Proof. exact (createPaymentRequest_read_back random stamp now session config s). Qed.

(** What a callback comes to when nothing else runs while it waits for the
    facilitator; [o] gives what the exchange comes to and the clock then. *)
Lemma call_processPaymentCallback paymentId paymentSignature config
      (o : oracle event) now s :
  call (processPaymentCallback paymentId paymentSignature config) o now s =
    match pendingPayments s !! paymentId with
    | None => (s, Returned (failure "Payment not found"))
    | Some payment =>
        if negb (bool_decide (status payment = pending)) then
          (s, Returned (failure ("Payment already " +:+ status_text (status payment))))
        else if now >? expiresAt payment then
          (with_payments (<[paymentId := set_status expired payment]> (pendingPayments s)) s,
           Returned (failure "Payment expired"))
        else
          let x :=
            o _ (Fetch (facilitatorUrl config +:+ "/verify")
                   {| vb_signature := paymentSignature; vb_network := network config;
                      vb_payTo := payTo config; vb_price := pricePerMessage config |}) in
          let result := result_of (fst x) in
          if success result then
            let s1 :=
              with_payments
                (<[paymentId := set_txHash (res_txHash result) (set_status paid payment)]>
                   (pendingPayments s)) s in
            (match paymentSessions s !! owner payment with
             | Some session =>
                 with_sessions
                   (<[owner payment := credit (res_txHash result) (snd x) session]>
                      (paymentSessions s)) s1
             | None => s1
             end, Returned result)
          else
            (with_payments (<[paymentId := set_status failed payment]> (pendingPayments s)) s,
             Returned result)
    end.
Proof.
  unfold call, call_at, processPaymentCallback.
  destruct (pendingPayments s !! paymentId) as [payment|] eqn:Hget; [|reflexivity].
  destruct (negb _); [reflexivity|].
  destruct (now >? expiresAt payment); [reflexivity|].
  simpl. destruct (o exchange _) as [x now']. simpl.
  assert (alter_here : forall f,
             alter f paymentId (pendingPayments s)
             = <[paymentId := f payment]> (pendingPayments s)).
  { intros f. rewrite alter_alt, Hget. reflexivity. }
  destruct x as [[m|]|text|tx net pyr]; simpl; rewrite ?alter_here; reflexivity.
Qed.

(** X3: A request is payable up to and including the 30th minute after its
    creation: a callback at or before that instant goes to the facilitator,
    one after it expires the request without asking. *)
Theorem issued_request_window random stamp created session config
        paymentSignature config' now s :
  let s1 := fst (createPaymentRequest random stamp created session config s) in
  let request := snd (createPaymentRequest random stamp created session config s) in
  (now <= created + 30 * 60 * 1000 ->
   exists url body k,
     processPaymentCallback (id request) paymentSignature config' now s1
       = (s1, Await (Fetch url body) k)) /\
  (now > created + 30 * 60 * 1000 ->
   exists s2,
     processPaymentCallback (id request) paymentSignature config' now s1
       = (s2, Done (failure "Payment expired")) /\
     getPendingPayment (id request) s2 = Some (set_status expired request)).
Proof.
  intros s1 request.
  destruct (createPaymentRequest_read_back random stamp created session config s)
    as (Hget & _ & Hstatus & _ & _ & _ & Hexp & _).
  fold s1 request in Hget, Hstatus, Hexp. unfold getPendingPayment in *.
  clearbody s1 request.
  split; intros Hnow; unfold processPaymentCallback; rewrite Hget;
    rewrite (bool_decide_eq_true_2 _ Hstatus); simpl.
  - assert ((now >? expiresAt request) = false) as ->
        by (rewrite Z.gtb_ltb; apply Z.ltb_ge; lia).
    eexists _, _, _. reflexivity.
  - assert ((now >? expiresAt request) = true) as -> by (apply Z.gtb_lt; lia).
    eexists. split; [reflexivity|]. simpl. apply lookup_insert_eq.
Qed.






(** *** The sweep, entry by entry *)

(** X6: A sweep treats each stored request on its own: a pending request past its
    expiry becomes expired, then any request that is not pending and was
    created more than 24 hours ago is deleted, and every other request is
    left as it is.  Sessions are not touched. *)
Theorem cleanup_entry_by_entry now s :
  (forall i,
      pendingPayments (fst (cleanupExpiredPayments now s)) !! i
      = pendingPayments s !! i ≫= swept now) /\
  paymentSessions (fst (cleanupExpiredPayments now s)) = paymentSessions s /\
  (forall i p,
      pendingPayments s !! i = Some p ->
      status p = pending -> now <= expiresAt p ->
      pendingPayments (fst (cleanupExpiredPayments now s)) !! i = Some p).
Proof.
  split; [intros i; apply cleanup_lookup|]. split.
  - unfold cleanupExpiredPayments, cleanup_over. destruct (foldl _ _ _). reflexivity.
  - intros i p Hget Hp Hlive. rewrite cleanup_lookup, Hget. simpl.
    unfold swept, lapsed. rewrite (bool_decide_eq_true_2 _ Hp). simpl.
    assert ((now >? expiresAt p) = false) as ->
        by (rewrite Z.gtb_ltb; apply Z.ltb_ge; lia).
    reflexivity.
Qed.

(** X7: The number a sweep returns is the number of stored requests that are
    pending and past their expiry. *)
Theorem cleanup_counts_lapsed now s :
  snd (cleanupExpiredPayments now s)
  = Z.of_nat (length (List.filter (fun e => lapsed now (snd e))
                        (map_to_list (pendingPayments s)))).
Proof.
  unfold cleanupExpiredPayments, cleanup_over.
  pose proof (cleanup_fold_count now (map_to_list (pendingPayments s))
                (pendingPayments s) 0) as H.
  destruct (foldl _ _ _) as [m c]. simpl in *. lia.
Qed.

Lemma callback_other_requests paymentId paymentSignature config
      (o : oracle event) now s i :
  i <> paymentId ->
  pendingPayments
    (fst (call (processPaymentCallback paymentId paymentSignature config) o now s)) !! i
  = pendingPayments s !! i.
Proof.
  intros Hi. rewrite call_processPaymentCallback.
  destruct (pendingPayments s !! paymentId) as [payment|]; [|reflexivity].
  destruct (negb _); [reflexivity|].
  destruct (now >? expiresAt payment); simpl; [now rewrite lookup_insert_ne|].
  destruct (success (result_of _)); simpl; [|now rewrite lookup_insert_ne].
  destruct (paymentSessions s !! owner payment); simpl; now rewrite lookup_insert_ne.
Qed.

(** X8: A callback that runs alone touches one request and at most one session:
    requests under other ids are as before; no session is added or removed;
    no session's message count changes; and a session's paid count stays or
    grows by exactly 1. *)
Theorem callback_frame paymentId paymentSignature config (o : oracle event) now s :
  let s' :=
    fst (call (processPaymentCallback paymentId paymentSignature config) o now s) in
  (forall i, i <> paymentId -> pendingPayments s' !! i = pendingPayments s !! i) /\
  (forall key, paymentSessions s' !! key = None <-> paymentSessions s !! key = None) /\
  (forall key x x',
      paymentSessions s !! key = Some x ->
      paymentSessions s' !! key = Some x' ->
      messageCount x' = messageCount x /\
      (paidMessageCount x' = paidMessageCount x
       \/ paidMessageCount x' = paidMessageCount x + 1)).
Proof.
  intros s'. split; [intros i Hi; now apply callback_other_requests|].
  subst s'. rewrite call_processPaymentCallback.
  assert (forall s2 : store,
             paymentSessions s2 = paymentSessions s ->
             (forall key, paymentSessions s2 !! key = None
                          <-> paymentSessions s !! key = None) /\
             (forall key x x',
                 paymentSessions s !! key = Some x ->
                 paymentSessions s2 !! key = Some x' ->
                 messageCount x' = messageCount x /\
                 (paidMessageCount x' = paidMessageCount x
                  \/ paidMessageCount x' = paidMessageCount x + 1))) as Hsame.
  { intros s2 ->. split; [reflexivity|].
    intros key x x' H1 H2. rewrite H1 in H2. injection H2 as <-. auto. }
  destruct (pendingPayments s !! paymentId) as [payment|];
    [|apply Hsame; reflexivity].
  destruct (negb _); [apply Hsame; reflexivity|].
  destruct (now >? expiresAt payment); [apply Hsame; reflexivity|].
  cbv zeta. destruct (success (result_of _)); [|apply Hsame; reflexivity].
  destruct (paymentSessions s !! owner payment) as [session|] eqn:Hs;
    [|apply Hsame; reflexivity].
  simpl. split.
  - intros key. rewrite lookup_insert. destruct (decide (owner payment = key)) as [<-|];
      [|reflexivity]. rewrite Hs. split; discriminate.
  - intros key x x'. rewrite lookup_insert.
    destruct (decide (owner payment = key)) as [<-|].
    + rewrite Hs. intros [= <-] [= <-]. simpl. auto.
    + intros H1 H2. rewrite H1 in H2. injection H2 as <-. auto.
Qed.

(** X9: A request that is no longer pending keeps its state: a callback that runs
    alone, whichever request it names and whatever the facilitator answers,
    leaves it exactly as it is, and a sweep either leaves it as it is or, once
    it is more than 24 hours old, deletes it. *)
Theorem terminal_request_is_final s i p :
  pendingPayments s !! i = Some p ->
  status p <> pending ->
  (forall paymentId paymentSignature config (o : oracle event) now,
      pendingPayments
        (fst (call (processPaymentCallback paymentId paymentSignature config) o now s))
        !! i = Some p) /\
  (forall now,
      pendingPayments (fst (cleanupExpiredPayments now s)) !! i
      = if now - createdAt p >? DAY then None else Some p).
Proof.
  intros Hget Hp. split.
  - intros paymentId paymentSignature config o now.
    destruct (decide (i = paymentId)) as [->|Hne].
    + rewrite call_processPaymentCallback, Hget.
      rewrite (bool_decide_eq_false_2 _ Hp). simpl. exact Hget.
    + rewrite callback_other_requests by exact Hne. exact Hget.
  - intros now. rewrite cleanup_lookup, Hget. simpl. unfold swept, lapsed.
    rewrite (bool_decide_eq_false_2 _ Hp). simpl.
    destruct (now - createdAt p >? DAY); reflexivity.
Qed.

Lemma terminal_request_witness :
  (forall paymentId paymentSignature config (o : oracle event) now,
      pendingPayments
        (fst (call (processPaymentCallback paymentId paymentSignature config) o now
                one_expired_request))
        !! issued_id = Some expired_request) /\
  (forall now,
      pendingPayments (fst (cleanupExpiredPayments now one_expired_request)) !! issued_id
      = if now - createdAt expired_request >? DAY then None else Some expired_request).
Proof.
  apply (terminal_request_is_final one_expired_request issued_id expired_request).
  - vm_compute. reflexivity.
  - simpl. discriminate.
Defined.

(** X10: The payment-status message agrees with the metering decision.  When no
    payment is due nothing is stored and no id or link is given; when one is
    due, a pending request owned by the session and priced by the
    configuration is stored, and the id returned is the one it can be read
    back under. *)
Theorem generatePaymentStatusMessage_decides random stamp now session config s :
  let s1 := fst (generatePaymentStatusMessage random stamp now session config s) in
  let st := snd (generatePaymentStatusMessage random stamp now session config s) in
  requiresPayment st = isPaymentRequired session config /\
  (isPaymentRequired session config = false ->
   s1 = s /\ paymentId st = None /\ paymentUrl st = None) /\
  (isPaymentRequired session config = true ->
   exists request,
     paymentId st = Some (id request) /\
     getPendingPayment (id request) s1 = Some request /\
     status request = pending /\
     owner request = sessionKey session /\
     amount request = pricePerMessage config /\
     expiresAt request = now + 1800000 /\
     (q_msg <$> paymentUrl st) = Some (id request)).
Proof.
  unfold generatePaymentStatusMessage.
  destruct (isPaymentRequired session config) eqn:Hdue; cbn [negb].
  - destruct (createPaymentRequest_read_back random stamp now session config s)
      as (Hget & _ & Hstatus & Howner & Hamount & _ & Hexp & _).
    destruct (createPaymentRequest random stamp now session config s) as [s1 request].
    cbn [fst snd] in *. cbn [requiresPayment paymentId paymentUrl].
    split; [reflexivity|]. split; [discriminate|]. intros _.
    exists request. repeat split; assumption || reflexivity.
  - cbn [fst snd requiresPayment paymentId paymentUrl].
    split; [reflexivity|]. split; [|discriminate]. intros _. repeat split.
Qed.

End Ledger.

(* ===================================================================== *)
(** ** Payment ids *)
(* ===================================================================== *)

Section Ids.
Import PaymentFlow.

Lemma value36_digit36 d : 0 <= d < 36 -> value36 (digit36 d) = d.
Proof.
  intros Hd. unfold value36, digit36.
  destruct (d <? 10) eqn:Hten.
  - apply Z.ltb_lt in Hten. rewrite nat_ascii_embedding by lia.
    assert ((Z.of_nat (Z.to_nat d + 48) <? 58) = true) as -> by (apply Z.ltb_lt; lia).
    lia.
  - apply Z.ltb_ge in Hten. rewrite nat_ascii_embedding by lia.
    assert ((Z.of_nat (Z.to_nat d + 87) <? 58) = false) as -> by (apply Z.ltb_ge; lia).
    lia.
Qed.

Lemma digit36_plain d : 0 <= d < 36 -> digit36 d <> "_"%char.
Proof.
  intros Hd Heq. apply (f_equal nat_of_ascii) in Heq. revert Heq.
  unfold digit36. destruct (d <? 10) eqn:Hten.
  - apply Z.ltb_lt in Hten. rewrite nat_ascii_embedding by lia.
    change (nat_of_ascii "_") with 95%nat. lia.
  - apply Z.ltb_ge in Hten. rewrite nat_ascii_embedding by lia.
    change (nat_of_ascii "_") with 95%nat. lia.
Qed.

Lemma append_cons x (a b : string) : String x a +:+ b = String x (a +:+ b).
Proof. reflexivity. Qed.

Lemma append_nil (b : string) : EmptyString +:+ b = b.
Proof. reflexivity. Qed.

Lemma append_assoc_one (a : string) c (b : string) :
  (a +:+ String c EmptyString) +:+ b = a +:+ String c b.
Proof.
  induction a as [|x a IH]; [reflexivity|].
  rewrite !append_cons. now rewrite IH.
Qed.

Lemma decode36_app a b v : decode36 (a +:+ b) v = decode36 b (decode36 a v).
Proof.
  revert v. induction a as [|x a IH]; intros v; [reflexivity|].
  rewrite append_cons. cbn [decode36]. apply IH.
Qed.

Lemma plain_app a b : plain a -> plain b -> plain (a +:+ b).
Proof.
  induction a as [|x a IH]; [intros _ Hb; exact Hb|].
  intros [Hx Ha] Hb. rewrite append_cons. split; [exact Hx|]. now apply IH.
Qed.

(** The digits [toString36_go] puts before [acc] stand for [n]. *)
Lemma toString36_go_digits fuel :
  forall n acc,
    0 <= n < 36 ^ Z.of_nat fuel ->
    exists ds, toString36_go fuel n acc = ds +:+ acc /\
               decode36 ds 0 = n /\ plain ds.
Proof.
  induction fuel as [|fuel IH]; intros n acc Hn.
  - exists EmptyString. simpl in *. repeat split. lia.
  - assert (0 <= n mod 36 < 36) as Hd by (apply Z.mod_pos_bound; lia).
    cbn [toString36_go]. cbv zeta.
    destruct (n / 36 =? 0) eqn:Hq.
    + apply Z.eqb_eq in Hq. exists (String (digit36 (n mod 36)) EmptyString).
      split; [reflexivity|]. split.
      * cbn [decode36]. rewrite value36_digit36 by exact Hd.
        pose proof (Z.div_mod n 36 ltac:(lia)). lia.
      * split; [now apply digit36_plain|exact I].
    + destruct (IH (n / 36) (String (digit36 (n mod 36)) acc))
        as (ds & Hgo & Hdecode & Hplain).
      { split; [apply Z.div_pos; lia|].
        apply Z.div_lt_upper_bound; [lia|].
        rewrite Nat2Z.inj_succ, Z.pow_succ_r in Hn by lia. lia. }
      exists (ds +:+ String (digit36 (n mod 36)) EmptyString).
      rewrite append_assoc_one. split; [exact Hgo|]. split.
      * rewrite decode36_app, Hdecode. cbn [decode36].
        rewrite value36_digit36 by exact Hd.
        pose proof (Z.div_mod n 36 ltac:(lia)). lia.
      * apply plain_app; [exact Hplain|].
        split; [now apply digit36_plain|exact I].
Qed.

Lemma append_empty (a : string) : a +:+ EmptyString = a.
Proof.
  induction a as [|x a IH]; [reflexivity|]. rewrite append_cons. now rewrite IH.
Qed.

Lemma toString36_digits n :
  0 <= n -> decode36 (toString36 n) 0 = n /\ plain (toString36 n).
Proof.
  intros Hn. unfold toString36.
  destruct (toString36_go_digits (S (Z.to_nat (Z.log2 n))) n EmptyString)
    as (ds & Hgo & Hdecode & Hplain).
  - split; [exact Hn|].
    rewrite Nat2Z.inj_succ, Z2Nat.id by apply Z.log2_nonneg.
    destruct (Z.eq_dec n 0) as [->|Hpos]; [simpl; lia|].
    pose proof (Z.log2_spec n ltac:(lia)) as [_ Hlt].
    pose proof (Z.log2_nonneg n).
    assert (2 ^ Z.succ (Z.log2 n) <= 36 ^ Z.succ (Z.log2 n))
      by (apply Z.pow_le_mono_l; lia).
    lia.
  - rewrite Hgo, append_empty. split; assumption.
Qed.

Lemma separator_splits (x y r r' : string) :
  plain x -> plain y ->
  x +:+ String "_" r = y +:+ String "_" r' -> x = y /\ r = r'.
Proof.
  revert y. induction x as [|c x IH]; intros [|d y];
    rewrite ?append_cons, ?append_nil.
  - intros _ _ [= ->]. split; reflexivity.
  - intros _ [Hd _] [= <- _]. now destruct Hd.
  - intros [Hc _] _ [= -> _]. now destruct Hc.
  - intros [_ Hx] [_ Hy] [= -> Heq].
    destruct (IH y Hx Hy Heq) as [-> ->]. split; reflexivity.
Qed.

Lemma generatePaymentId_injective now random now' random' :
  0 <= now -> 0 <= now' ->
  generatePaymentId now random = generatePaymentId now' random' ->
  now = now' /\ random = random'.
Proof.
  intros Hnow Hnow'. unfold generatePaymentId.
  rewrite !append_cons, !append_nil. intros [= Heq].
  destruct (toString36_digits now Hnow) as [Hdecode Hplain].
  destruct (toString36_digits now' Hnow') as [Hdecode' Hplain'].
  destruct (separator_splits _ _ _ _ Hplain Hplain' Heq) as [Hdigits ->].
  split; [|reflexivity].
  rewrite <- Hdecode, <- Hdecode', Hdigits. reflexivity.
Qed.

(** X11: payment ids tell requests apart.  The id is made of the time of
    creation in base 36 and the random draw; two ids made at different times
    (clock readings are not negative), or with different draws, differ, so a
    new request takes the place of a stored one only when both were created
    in the same millisecond with the same draw. *)
Theorem payment_ids_are_distinct now random now' random' :
  0 <= now -> 0 <= now' ->
  now <> now' \/ random <> random' ->
  generatePaymentId now random <> generatePaymentId now' random'.
Proof.
  intros Hnow Hnow' Hdiff Heq.
  destruct (generatePaymentId_injective now random now' random' Hnow Hnow' Heq)
    as [Ht Hr].
  destruct Hdiff as [Hdiff|Hdiff]; now destruct Hdiff.
Qed.

Lemma payment_ids_witness :
  (1000 <> 1001 \/ "k3x9" <> "k3x9") /\
  generatePaymentId 1000 "k3x9" <> generatePaymentId 1001 "k3x9".
Proof.
  assert (1000 <> 1001 \/ "k3x9" <> "k3x9") as Hdiff by (left; lia).
  split; [exact Hdiff|].
  apply (payment_ids_are_distinct 1000 "k3x9" 1001 "k3x9"); [lia|lia|exact Hdiff].
Defined.

End Ids.

(* ===================================================================== *)
(** ** The message hook *)
(* ===================================================================== *)

Section HookGate.
Import PaymentFlow Hooks.

Lemma getOrCreateSession_counts key channel user s :
  let s1 := fst (getOrCreateSession key channel user s) in
  let session := snd (getOrCreateSession key channel user s) in
  paymentSessions s1 !! key = Some session /\
  messageCount session = messages key s /\
  messageCount session - paidMessageCount session = unpaid key s /\
  pendingPayments s1 = pendingPayments s /\
  (forall k, messages k s1 = messages k s /\ unpaid k s1 = unpaid k s) /\
  (forall k, k <> key -> paymentSessions s1 !! k = paymentSessions s !! k).
Proof.
  unfold getOrCreateSession, messages, unpaid.
  destruct (paymentSessions s !! key) as [x|] eqn:Hget; cbn [fst snd].
  - rewrite Hget. repeat split; reflexivity.
  - cbn [with_sessions paymentSessions pendingPayments messageCount paidMessageCount].
    rewrite lookup_insert_eq. repeat split; try reflexivity.
    + destruct (decide (k = key)) as [->|Hk].
      * now rewrite lookup_insert_eq, Hget.
      * now rewrite lookup_insert_ne.
    + destruct (decide (k = key)) as [->|Hk].
      * now rewrite lookup_insert_eq, Hget.
      * now rewrite lookup_insert_ne.
    + intros k Hk. now rewrite lookup_insert_ne.
Qed.

Lemma createPaymentRequest_counts random stamp now session config s k :
  messages k (fst (createPaymentRequest random stamp now session config s)) = messages k s /\
  unpaid k (fst (createPaymentRequest random stamp now session config s)) = unpaid k s.
Proof.
  unfold createPaymentRequest, updateSession, messages, unpaid.
  cbn [fst with_payments paymentSessions].
  destruct (paymentSessions s !! sessionKey session) as [x|] eqn:Hget;
    cbn [with_sessions paymentSessions]; [|split; reflexivity].
  destruct (decide (k = sessionKey session)) as [->|Hk].
  - rewrite lookup_insert_eq, Hget. split; reflexivity.
  - rewrite lookup_insert_ne by congruence. split; reflexivity.
Qed.

Lemma incrementMessageCount_counts key s x :
  paymentSessions s !! key = Some x ->
  let s1 := fst (incrementMessageCount key s) in
  messages key s1 = messages key s + 1 /\
  unpaid key s1 = unpaid key s + 1 /\
  pendingPayments s1 = pendingPayments s /\
  (forall k, k <> key -> paymentSessions s1 !! k = paymentSessions s !! k).
Proof.
  intros Hget. unfold incrementMessageCount, messages, unpaid. rewrite Hget.
  cbn [fst with_sessions paymentSessions pendingPayments].
  rewrite lookup_insert_eq. cbn [set_messageCount messageCount paidMessageCount].
  repeat split; try lia.
  intros k Hk. now rewrite lookup_insert_ne.
Qed.

(** What the hook does with a message that is no command, by the unpaid
    messages of its session. *)
Lemma message_received_plain random stamp now config sender content ctx s :
  Js.startsWith content "/x402" = false ->
  enabled config = true ->
  let key := session_key sender ctx in
  let s' := fst (message_received random stamp now config sender content ctx s) in
  let r := snd (message_received random stamp now config sender content ctx s) in
  (unpaid key s < freeMessages config ->
   r = Pass /\
   messages key s' = messages key s + 1 /\
   unpaid key s' = unpaid key s + 1 /\
   pendingPayments s' = pendingPayments s /\
   (forall k, k <> key -> paymentSessions s' !! k = paymentSessions s !! k)) /\
  (freeMessages config <= unpaid key s ->
   is_block r = true /\
   (forall k, messages k s' = messages k s /\ unpaid k s' = unpaid k s) /\
   exists request link msg,
     r = PaymentBlock (Some link) (Some (id request)) msg /\
     q_msg link = id request /\
     id request = generatePaymentId stamp random /\
     getPendingPayment (id request) s' = Some request /\
     status request = pending /\
     amount request = pricePerMessage config).
Proof.
  intros Hplain Hon. unfold message_received, session_key. rewrite Hplain.
  set (channel := or_else (ctx_channelId ctx) "unknown").
  set (key := or_else (conversationId ctx) (channel +:+ ":" +:+ sender)).
  destruct (getOrCreateSession_counts key channel sender s)
    as (Hstored & _ & Hunpaid & Hpay & Hcounts & Hothers).
  destruct (getOrCreateSession key channel sender s) as [s1 session].
  cbn [fst snd] in *. cbv zeta.
  pose proof (isPaymentRequired_enabled session config Hon) as Hdue.
  destruct (isPaymentRequired session config) eqn:Hreq.
  - assert (freeMessages config <= unpaid key s) as Hle
        by (destruct Hdue as [Hdue _]; specialize (Hdue eq_refl); lia).
    split; [intros; lia|]. intros _.
    unfold generatePaymentStatusMessage. rewrite Hreq. cbn [negb].
    destruct (createPaymentRequest_read_back random stamp now session config s1)
      as (Hget & Hid & Hstatus & _ & Hamount & _).
    pose proof (createPaymentRequest_counts random stamp now session config s1) as Hkeep.
    destruct (createPaymentRequest random stamp now session config s1) as [s2 request].
    cbn [fst snd paymentUrl paymentId message is_block] in *.
    split; [reflexivity|]. split.
    + intros k. destruct (Hkeep k) as [-> ->]. apply Hcounts.
    + eexists request, _, _. repeat split; try eassumption; reflexivity.
  - assert (unpaid key s < freeMessages config) as Hlt.
    { destruct (Z_lt_le_dec (unpaid key s) (freeMessages config)) as [Hlt|Hge];
        [exact Hlt|].
      destruct Hdue as [_ Hdue]. assert (true = false) by (symmetry; apply Hdue; lia).
      discriminate. }
    split; [|intros; lia]. intros _. cbn [fst snd].
    destruct (incrementMessageCount_counts key s1 session Hstored)
      as (Hm & Hu & Hp & Ho).
    destruct (Hcounts key) as [Hm1 Hu1].
    repeat split.
    + lia.
    + lia.
    + congruence.
    + intros k Hk. rewrite Ho by exact Hk. now apply Hothers.
Qed.

(** X12: a message that is no command, received with metering enabled.  While
    the session has used fewer unpaid messages than its quota the hook lets
    the message through and counts it, and issues no request; from then on it
    blocks the message, counts nothing, and stores a pending request whose id
    it returns and puts in the payment link. *)
Theorem message_received_meters random stamp now config sender content ctx s :
  Js.startsWith content "/x402" = false ->
  enabled config = true ->
  let key := session_key sender ctx in
  let s' := fst (message_received random stamp now config sender content ctx s) in
  let r := snd (message_received random stamp now config sender content ctx s) in
  (unpaid key s < freeMessages config ->
   r = Pass /\
   messages key s' = messages key s + 1 /\
   unpaid key s' = unpaid key s + 1 /\
   pendingPayments s' = pendingPayments s /\
   (forall k, k <> key -> paymentSessions s' !! k = paymentSessions s !! k)) /\
  (freeMessages config <= unpaid key s ->
   is_block r = true /\
   (forall k, messages k s' = messages k s /\ unpaid k s' = unpaid k s) /\
   exists request link msg,
     r = PaymentBlock (Some link) (Some (id request)) msg /\
     q_msg link = id request /\
     id request = generatePaymentId stamp random /\
     getPendingPayment (id request) s' = Some request /\
     status request = pending /\
     amount request = pricePerMessage config).
Proof. exact (message_received_plain random stamp now config sender content ctx s). Qed.

Lemma message_received_meters_witness :
  let key := session_key "2" telegram_chat in
  let s' := fst (message_received "a1" 1000 1001 sample_config "2" "hello" telegram_chat
                   empty_store) in
  let r := snd (message_received "a1" 1000 1001 sample_config "2" "hello" telegram_chat
                  empty_store) in
  (unpaid key empty_store < freeMessages sample_config ->
   r = Pass /\
   messages key s' = messages key empty_store + 1 /\
   unpaid key s' = unpaid key empty_store + 1 /\
   pendingPayments s' = pendingPayments empty_store /\
   (forall k, k <> key ->
              paymentSessions s' !! k = paymentSessions empty_store !! k)) /\
  (freeMessages sample_config <= unpaid key empty_store ->
   is_block r = true /\
   (forall k, messages k s' = messages k empty_store /\
              unpaid k s' = unpaid k empty_store) /\
   exists request link msg,
     r = PaymentBlock (Some link) (Some (id request)) msg /\
     q_msg link = id request /\
     id request = generatePaymentId 1000 "a1" /\
     getPendingPayment (id request) s' = Some request /\
     status request = pending /\
     amount request = pricePerMessage sample_config).
Proof.
  apply (message_received_meters "a1" 1000 1001 sample_config "2" "hello" telegram_chat
           empty_store); reflexivity.
Defined.

Lemma generatePaymentStatusMessage_counts random stamp now session config s k :
  messages k (fst (generatePaymentStatusMessage random stamp now session config s))
  = messages k s /\
  unpaid k (fst (generatePaymentStatusMessage random stamp now session config s))
  = unpaid k s.
Proof.
  unfold generatePaymentStatusMessage.
  destruct (negb (isPaymentRequired session config)); [split; reflexivity|].
  pose proof (createPaymentRequest_counts random stamp now session config s k) as H.
  destruct (createPaymentRequest random stamp now session config s) as [s1 request].
  exact H.
Qed.

(** X13: a message that starts with "/x402" is answered by the hook itself and
    never counted: whatever the command, the reply is a command reply (it
    blocks the message), no session's message count or unpaid count changes,
    and only "pay" (what is left of the message once the white space around
    it, of ASCII or not, is trimmed and its letters are lowered) can store a
    payment request. *)
Theorem command_is_never_counted random stamp now config sender content ctx s :
  Js.startsWith content "/x402" = true ->
  let s' := fst (message_received random stamp now config sender content ctx s) in
  let r := snd (message_received random stamp now config sender content ctx s) in
  is_command_reply r = true /\
  (forall k, messages k s' = messages k s /\ unpaid k s' = unpaid k s) /\
  (Js.toLowerCase (Js.trim (Js.slice 5 content)) <> "pay" ->
   pendingPayments s' = pendingPayments s).
Proof.
  intros Hcommand. unfold message_received. rewrite Hcommand. cbv zeta.
  set (channel := or_else (ctx_channelId ctx) "unknown").
  set (key := or_else (conversationId ctx) (channel +:+ ":" +:+ sender)).
  set (command := Js.toLowerCase (Js.trim (Js.slice 5 content))).
  unfold handleX402Command.
  destruct (bool_decide (command = "help") || bool_decide (command = ""));
    [repeat split; reflexivity|].
  destruct (getOrCreateSession_counts key channel sender s)
    as (_ & _ & _ & Hpay & Hcounts & _).
  destruct (bool_decide (command = "status")).
  { destruct (getOrCreateSession key channel sender s) as [s1 session].
    cbn [fst snd] in *. repeat split; try apply Hcounts. intros _. exact Hpay. }
  destruct (bool_decide (command = "pay")) eqn:Hpaycmd; [|repeat split; reflexivity].
  apply bool_decide_eq_true_1 in Hpaycmd.
  destruct (getOrCreateSession key channel sender s) as [s1 session].
  cbn [fst snd] in *.
  pose proof (generatePaymentStatusMessage_counts random stamp now session config s1) as Hkeep.
  destruct (generatePaymentStatusMessage random stamp now session config s1) as [s2 st].
  cbn [fst snd] in *.
  destruct (negb (requiresPayment st)); cbn [fst snd is_command_reply].
  - split; [reflexivity|]. split; [|intros Hno; now destruct Hno].
    intros k. destruct (Hkeep k) as [-> ->]. apply Hcounts.
  - split; [reflexivity|]. split; [|intros Hno; now destruct Hno].
    intros k. destruct (Hkeep k) as [-> ->]. apply Hcounts.
Qed.

Lemma command_is_never_counted_witness :
  let s' := fst (message_received "a1" 1000 1001 sample_config "2" "/x402 Status "
                   telegram_chat one_request) in
  let r := snd (message_received "a1" 1000 1001 sample_config "2" "/x402 Status "
                  telegram_chat one_request) in
  is_command_reply r = true /\
  (forall k, messages k s' = messages k one_request /\
             unpaid k s' = unpaid k one_request) /\
  (Js.toLowerCase (Js.trim (Js.slice 5 "/x402 Status ")) <> "pay" ->
   pendingPayments s' = pendingPayments one_request).
Proof.
  apply (command_is_never_counted "a1" 1000 1001 sample_config "2" "/x402 Status "
           telegram_chat one_request); reflexivity.
Defined.

(** An ideographic space before the command is trimmed as a space is: "pay"
    at the quota stores a request. *)
Example test_pay_after_wide_space :
  Js.toLowerCase (Js.trim (Js.slice 5 ("/x402" +:+ Js.bytes [227; 128; 128] +:+ "Pay")))
  = "pay" /\
  size (pendingPayments
          (fst (message_received "a1" 1000 1001 no_free_messages "2"
                  ("/x402" +:+ Js.bytes [227; 128; 128] +:+ "Pay") telegram_chat
                  (session_store 3))))
  = 1%nat.
Proof. split; vm_compute; reflexivity. Qed.

(** The replies to a run of messages that are no commands: the free ones
    pass, every later one is blocked. *)
Lemma receive_all_plain config sender ctx inputs :
  enabled config = true ->
  Forall (fun i => Js.startsWith i.2 "/x402" = false) inputs ->
  forall s,
    let key := session_key sender ctx in
    unpaid key s <= freeMessages config ->
    let free := Z.to_nat (freeMessages config - unpaid key s) in
    let passed := Nat.min free (length inputs) in
    exists blocks,
      snd (receive_all config sender ctx inputs s) = replicate passed Pass ++ blocks /\
      Forall (fun r => is_block r = true) blocks /\
      length blocks = (length inputs - passed)%nat /\
      messages key (fst (receive_all config sender ctx inputs s))
      = messages key s + Z.of_nat passed /\
      unpaid key (fst (receive_all config sender ctx inputs s))
      = unpaid key s + Z.of_nat passed.
Proof.
  intros Hon Hplain. induction Hplain as [|[[[random stamp] now] content] rest Hx _ IH];
    intros s key Hle free passed.
  - exists []. subst passed. rewrite Nat.min_0_r. cbn [receive_all fst snd length].
    repeat split; try constructor; lia.
  - cbn [receive_all]. cbn [snd] in Hx.
    destruct (message_received_plain random stamp now config sender content ctx s Hx Hon)
      as [Hfree Hblocked].
    destruct (message_received random stamp now config sender content ctx s) as [s1 r].
    cbn [fst snd] in Hfree, Hblocked. fold key in Hfree, Hblocked.
    destruct (Z_lt_le_dec (unpaid key s) (freeMessages config)) as [Hlt|Hge].
    + destruct (Hfree Hlt) as (-> & Hm & Hu & _).
      destruct (IH s1) as (blocks & Hreplies & Hblocks & Hlen & Hm' & Hu');
        [fold key; lia|].
      fold key in Hreplies, Hlen, Hm', Hu'.
      destruct (receive_all config sender ctx rest s1) as [s2 rs].
      cbn [fst snd] in *.
      assert (passed
              = S (Nat.min (Z.to_nat (freeMessages config - unpaid key s1))
                     (length rest))) as Hpassed.
      { subst passed free. cbn [length]. rewrite Hu. lia. }
      exists blocks. rewrite Hpassed, Hreplies. cbn [replicate app length].
      repeat split; try assumption; lia.
    + destruct (Hblocked Hge) as (Hblock & Hkeep & _).
      destruct (Hkeep key) as [Hm Hu].
      destruct (IH s1) as (blocks & Hreplies & Hblocks & Hlen & Hm' & Hu');
        [fold key; lia|].
      fold key in Hreplies, Hlen, Hm', Hu'.
      destruct (receive_all config sender ctx rest s1) as [s2 rs].
      cbn [fst snd] in *.
      assert (passed = 0%nat) as Hpassed by (subst passed free; lia).
      assert (Nat.min (Z.to_nat (freeMessages config - unpaid key s1)) (length rest)
              = 0%nat) as Hrest by lia.
      rewrite Hrest in *. cbn [replicate app] in Hreplies. subst rs.
      exists (r :: blocks). rewrite Hpassed. cbn [replicate app length].
      repeat split; try (constructor; assumption); lia.
Qed.

(** X14: the quota over a run of messages.  With metering enabled and a session
    within its quota, of the messages one sender sends in one conversation
    (none of them a command) the first [quota - unpaid] pass and are counted,
    and every one after them is blocked with a payment request: the session
    never gets past its quota without a payment. *)
Theorem quota_is_enforced config sender ctx inputs s :
  enabled config = true ->
  Forall (fun i => Js.startsWith i.2 "/x402" = false) inputs ->
  unpaid (session_key sender ctx) s <= freeMessages config ->
  let key := session_key sender ctx in
  let free := Z.to_nat (freeMessages config - unpaid key s) in
  let passed := Nat.min free (length inputs) in
  exists blocks,
    snd (receive_all config sender ctx inputs s) = replicate passed Pass ++ blocks /\
    Forall (fun r => is_block r = true) blocks /\
    length blocks = (length inputs - passed)%nat /\
    messages key (fst (receive_all config sender ctx inputs s))
    = messages key s + Z.of_nat passed /\
    unpaid key (fst (receive_all config sender ctx inputs s))
    = unpaid key s + Z.of_nat passed.
Proof.
  intros Hon Hplain Hle. exact (receive_all_plain config sender ctx inputs Hon Hplain s Hle).
Qed.

Lemma quota_is_enforced_witness :
  exists blocks,
    snd (receive_all sample_config "2" telegram_chat five_messages empty_store)
    = [Pass; Pass; Pass] ++ blocks /\
    Forall (fun r => is_block r = true) blocks /\
    length blocks = 2%nat /\
    messages (session_key "2" telegram_chat)
      (fst (receive_all sample_config "2" telegram_chat five_messages empty_store)) = 3 /\
    unpaid (session_key "2" telegram_chat)
      (fst (receive_all sample_config "2" telegram_chat five_messages empty_store)) = 3.
Proof.
  apply (quota_is_enforced sample_config "2" telegram_chat five_messages empty_store).
  - reflexivity.
  - repeat constructor.
  - vm_compute. discriminate.
Defined.

End HookGate.

(* ===================================================================== *)
(** ** Direct verification and the bot's sessions *)
(* ===================================================================== *)

Section Bot.
Import Async TelegramBot.




(** X16: only the first Transfer log of the USDC contract is examined.  The
    logs before it, which are not such transfers, and every log after it,
    whatever it is, have no part in the result: a receipt is checked as if
    that log were its only one.  So a transaction whose first USDC transfer
    goes elsewhere is refused for its recipient even when a later transfer in
    it pays the expected one. *)
Theorem first_transfer_decides txHash expectedTo minAmount st before transfer after s :
  Forall (fun log => is_transfer log = false) before ->
  is_transfer transfer = true ->
  check_receipt txHash expectedTo minAmount
    (Found {| status := st; logs := before ++ transfer :: after |}) s
  = check_receipt txHash expectedTo minAmount
      (Found {| status := st; logs := [transfer] |}) s.
Proof.
  intros Hbefore Htransfer. unfold check_receipt. cbn [status logs].
  destruct (negb (bool_decide (st = "success"))); [reflexivity|].
  assert (List.find is_transfer (before ++ transfer :: after) = Some transfer) as ->.
  { induction Hbefore as [|log before Hlog _ IH]; cbn [app List.find].
    - now rewrite Htransfer.
    - now rewrite Hlog. }
  cbn [List.find]. rewrite Htransfer. reflexivity.
Qed.

Lemma first_transfer_witness :
  check_receipt "0xfeed01" (PaymentFlow.payTo PAYMENT_CONFIG) minAmount
    (Found receipt_of_two_transfers) fresh
  = (fresh,
     invalid (WrongRecipient (PaymentFlow.payTo PAYMENT_CONFIG)
                "0x9999999999999999999999999999999999999999")).
Proof.
  change (Found receipt_of_two_transfers)
    with (Found {| status := "success";
                   logs := [] ++ transfer_elsewhere :: logs receipt_of_payment |}).
  etransitivity.
  - apply (first_transfer_decides "0xfeed01" (PaymentFlow.payTo PAYMENT_CONFIG)
             minAmount "success" [] transfer_elsewhere (logs receipt_of_payment) fresh).
    + constructor.
    + vm_compute. reflexivity.
  - vm_compute. reflexivity.
Defined.

Lemma call_at_send_ret chatId text (o : oracle event) now s :
  fst (fst (call_at (sendMessage chatId text (ret tt)) o now s)) = s.
Proof.
  rewrite call_at_sendMessage.
  destruct (o (option string) _) as [[err|] now']; reflexivity.
Qed.

Lemma call_verification_flow txHash expectedTo minAmount (o : oracle event) now s :
  flow (fst (fst (call_at (verifyPaymentTransaction txHash expectedTo minAmount)
                    o now s))) = flow s.
Proof.
  change (fst (call_at (verifyPaymentTransaction txHash expectedTo minAmount) o now s))
    with (call (verifyPaymentTransaction txHash expectedTo minAmount) o now s).
  destruct (call_verifyPaymentTransaction_cases txHash expectedTo minAmount o now s)
    as [[_ ->]|[(_ & e & _ & ->)|(_ & v' & sender & ->)]]; reflexivity.
Qed.

Lemma within_quota_assign key f s :
  (forall x, PaymentFlow.messageCount (f x) - PaymentFlow.paidMessageCount (f x)
             <= Z.max 0 (PaymentFlow.messageCount x - PaymentFlow.paidMessageCount x)) ->
  within_quota s -> within_quota (assign key f s).
Proof.
  intros Hf H k. specialize (H k). revert H.
  unfold assign, PaymentFlow.unpaid. cbn [flow with_flow PaymentFlow.with_sessions
                                           PaymentFlow.paymentSessions].
  destruct (decide (k = key)) as [->|Hk].
  - rewrite lookup_alter_eq.
    destruct (PaymentFlow.paymentSessions (flow s) !! key) as [x|]; cbn [fmap option_fmap option_map];
      [|trivial].
    specialize (Hf x). change (PaymentFlow.freeMessagesPerSession PAYMENT_CONFIG) with 3.
    lia.
  - rewrite lookup_alter_ne by congruence. trivial.
Qed.

Lemma within_quota_flow s s' :
  flow s' = flow s -> within_quota s -> within_quota s'.
Proof. intros Hflow H k. unfold within_quota in H. rewrite Hflow. apply H. Qed.

(** Closes a goal about the state a handler ends in when its last step is to
    send one message. *)
Ltac sent H :=
  match goal with
  | |- within_quota
         (fst (fst (let '(s', t) := sendMessage ?c ?m (ret tt) ?now ?s in
                    run ?o ?now t s'))) =>
      change (within_quota (fst (fst (call_at (sendMessage c m (ret tt)) o now s))));
      rewrite call_at_send_ret; exact H
  end.

Lemma handleMessage_within_quota chatId userId text (o : oracle event) now s :
  within_quota s ->
  within_quota (fst (fst (call_at (handleMessage chatId userId text) o now s))).
Proof.
  intros H. unfold call_at at 1, handleMessage.
  set (key := "telegram:" +:+ pretty chatId +:+ ":" +:+ pretty userId).
  destruct (getOrCreateSession_counts key "telegram" (pretty userId) (flow s))
    as (Hstored & _ & Hunpaid & _ & Hcounts & _).
  destruct (PaymentFlow.getOrCreateSession key "telegram" (pretty userId) (flow s))
    as [f1 session].
  cbn [fst snd] in Hstored, Hunpaid, Hcounts.
  set (s1 := with_flow f1 s).
  assert (within_quota s1) as H1.
  { intros k. cbn [s1 flow with_flow]. destruct (Hcounts k) as [_ ->]. apply H. }
  destruct (Js.startsWith text "/x402").
  - destruct (bool_decide _ || bool_decide _); [sent H1|].
    destruct (bool_decide _); [sent H1|].
    destruct (bool_decide _).
    { match goal with
      | |- context [sendMessage _ _ _ _ ?s2] => assert (within_quota s2) as H2
      end.
      { apply within_quota_assign; [|exact H1]. intros x. cbn. lia. }
      sent H2. }
    destruct (Js.startsWith _ "paid"); [|sent H1].
    destruct (negb _ || negb _); [sent H1|].
    match goal with
    | |- within_quota
           (fst (fst (let '(s', t) := sendMessage ?c ?m ?k now s1 in run o now t s'))) =>
        change (within_quota (fst (fst (call_at (sendMessage c m k) o now s1))))
    end.
    rewrite call_at_sendMessage.
    destruct (o (option string) _) as [[err|] now']; [exact H1|].
    rewrite call_at_await.
    pose proof (call_verification_flow
                  (Js.trim (Js.slice 4 (Js.toLowerCase (Js.trim (Js.slice 5 text)))))
                  (PaymentFlow.payTo PAYMENT_CONFIG) minAmount o now' s1) as Hflow.
    destruct (call_at (verifyPaymentTransaction _ _ _) o now' s1)
      as [[s2 [result|err]] now2]; cbn [fst] in Hflow.
    + pose proof (within_quota_flow s1 s2 Hflow H1) as H2.
      unfold call_at. destruct (negb (valid result)); [sent H2|].
      match goal with
      | |- context [sendMessage _ _ _ _ ?s3] => assert (within_quota s3) as H3
      end.
      { apply within_quota_assign; [|exact H2]. intros x. cbn. lia. }
      sent H3.
    + exact (within_quota_flow s1 s2 Hflow H1).
  - destruct (PaymentFlow.isPaymentRequired session PAYMENT_CONFIG) eqn:Hdue.
    + destruct (draw s1) as [s2 rnd] eqn:Hd.
      assert (flow s2 = flow s1) as Hflow
          by (unfold draw in Hd; injection Hd as <- _; reflexivity).
      pose proof (generatePaymentStatusMessage_counts rnd (stamps s1 (drawn s1)) now session
                    PAYMENT_CONFIG
                    (flow s2)) as Hkeep.
      destruct (PaymentFlow.generatePaymentStatusMessage _ _ _ _ _ _) as [f3 st].
      cbn [fst] in Hkeep.
      assert (within_quota (with_flow f3 s2)) as H3.
      { intros k. cbn [flow with_flow]. destruct (Hkeep k) as [_ ->].
        rewrite Hflow. apply H1. }
      sent H3.
    + destruct (incrementMessageCount_counts key f1 session Hstored)
        as (_ & Hu & _ & Hothers).
      change (flow s1) with f1.
      destruct (PaymentFlow.incrementMessageCount key f1) as [f2 n].
      cbn [fst] in Hu, Hothers.
      assert (within_quota (with_flow f2 s1)) as H2.
      { intros k. cbn [flow with_flow]. destruct (decide (k = key)) as [->|Hk].
        - rewrite Hu. destruct (Hcounts key) as [_ Hsame]. rewrite Hsame.
          assert (PaymentFlow.messageCount session - PaymentFlow.paidMessageCount session
                  < 3); [|change (PaymentFlow.freeMessagesPerSession PAYMENT_CONFIG)
                            with 3; lia].
          destruct (Z_lt_le_dec (PaymentFlow.messageCount session
                                 - PaymentFlow.paidMessageCount session) 3)
            as [Hlt|Hge]; [exact Hlt|].
          assert (PaymentFlow.isPaymentRequired session PAYMENT_CONFIG = true)
            by (apply isPaymentRequired_enabled; [reflexivity|];
                change (PaymentFlow.freeMessages PAYMENT_CONFIG) with 3; lia).
          congruence.
        - unfold PaymentFlow.unpaid. rewrite (Hothers k Hk).
          specialize (H1 k). exact H1. }
      sent H2.
Qed.

(** X17: the bot never lets a session run past its quota.  The bot handles one
    message at a time; from a state in which no session has more than 3
    unpaid messages, whatever messages it handles and transactions it
    verifies, with any answers from the chain and from Telegram (also when a
    message cannot be sent and the handler is left with the error), no
    session has more than 3 unpaid messages afterwards. *)
Theorem bot_stays_within_quota s s' :
  within_quota s -> later s s' -> within_quota s'.
Proof.
  intros H Hlater.
  induction Hlater as [|s' txHash expectedTo minAmount o now _ IH
                       |s' chatId userId text o now _ IH].
  - exact H.
  - apply (within_quota_flow s'); [|exact IH].
    exact (call_verification_flow txHash expectedTo minAmount o now s').
  - exact (handleMessage_within_quota chatId userId text o now s' IH).
Qed.

Lemma bot_stays_within_quota_witness :
  within_quota fresh /\
  within_quota
    (fst (call (handleMessage 1 2 "fourth") (chain_says NoReceipt) 4000
            (fst (call (handleMessage 1 2 "third") (chain_says NoReceipt) 3000
                    (fst (call (handleMessage 1 2 "second") (chain_says NoReceipt) 2000
                            (fst (call (handleMessage 1 2 "first")
                                    (chain_says NoReceipt) 1000 fresh)))))))).
Proof.
  assert (within_quota fresh) as Hfresh.
  { intros k. unfold PaymentFlow.unpaid. simpl. rewrite lookup_empty. lia. }
  split; [exact Hfresh|].
  apply (bot_stays_within_quota fresh); [exact Hfresh|].
  do 4 apply later_message. apply later_now.
Defined.

End Bot.

(* ===================================================================== *)
(** ** The engine's records, payments and queue *)
(* ===================================================================== *)

Section Charges.
Import Async AutoPayment.

(** X18: a payment made with nothing else in flight is charged exactly when
    the amount is within the per-payment maximum, the record is stored, has
    not expired and has the room, and the contract reads settle to a token
    allowance and a Permit2 allowance that cover the amount, the latter not
    expired when they settle. *)
Theorem payment_is_charged_exactly config request (o : oracle event) nowms s :
  (exists r, snd (call (processPayment config request) o nowms s) = Returned r /\
             success r = true) <->
  chargeable config request o nowms s.
Proof.
  unfold call, chargeable. rewrite call_at_processPayment.
  unfold processPayment_alone. cbv zeta.
  set (key := getUserKey (userId request) (req_userAddress request)).
  destruct (amount request >? default 0 (maxPaymentAmount config)) eqn:Hmax.
  { rewrite Z.gtb_ltb in Hmax. apply Z.ltb_lt in Hmax. split.
    - intros (r & [= <-] & Hs). discriminate.
    - intros [Hle _]. lia. }
  rewrite Z.gtb_ltb in Hmax. apply Z.ltb_ge in Hmax.
  destruct (userAuthorizations s !! key) as [auth|] eqn:Hget.
  2:{ split.
      - intros (r & [= <-] & Hs). discriminate.
      - intros (_ & auth & ta & pa & now' & Hno & _). discriminate. }
  destruct (expiresAt auth <=? nowms / 1000) eqn:Hexp.
  { apply Z.leb_le in Hexp. split.
    - intros (r & [= <-] & Hs). discriminate.
    - intros (_ & auth' & ta & pa & now' & [= <-] & Hlive & _). lia. }
  apply Z.leb_gt in Hexp.
  destruct (authorizedAmount auth - spentAmount auth <? amount request) eqn:Hroom.
  { apply Z.ltb_lt in Hroom. split.
    - intros (r & [= <-] & Hs). discriminate.
    - intros (_ & auth' & ta & pa & now' & [= <-] & _ & Hfits & _). lia. }
  apply Z.ltb_ge in Hroom.
  destruct (o allowances _) as [[err|ta pa] now'] eqn:Ho.
  { split.
    - intros (r & Hr & _). discriminate.
    - intros (_ & auth' & ta & pa & now2 & _ & _ & _ & Hread & _). discriminate. }
  destruct (ta <? amount request) eqn:Hta; cbn [orb].
  { apply Z.ltb_lt in Hta. split.
    - intros (r & [= <-] & Hs). discriminate.
    - intros (_ & auth' & ta' & pa' & now2 & _ & _ & _ & [= <- <- <-] & Hcover & _).
      lia. }
  apply Z.ltb_ge in Hta.
  destruct (allowance_amount pa >=? amount request) eqn:Hpa; cbn [andb negb].
  2:{ rewrite Z.geb_leb in Hpa. apply Z.leb_gt in Hpa. split.
      - intros (r & [= <-] & Hs). discriminate.
      - intros (_ & auth' & ta' & pa' & now2 & _ & _ & _ & [= <- <- <-] & _ & Hcover & _).
        lia. }
  rewrite Z.geb_leb in Hpa. apply Z.leb_le in Hpa.
  destruct (expiration pa >? now' / 1000) eqn:Hlive; cbn [negb].
  2:{ rewrite Z.gtb_ltb in Hlive. apply Z.ltb_ge in Hlive. split.
      - intros (r & [= <-] & Hs). discriminate.
      - intros (_ & auth' & ta' & pa' & now2 & _ & _ & _ & [= <- <- <-] & _ & _ & Hl).
        lia. }
  rewrite Z.gtb_ltb in Hlive. apply Z.ltb_lt in Hlive. split.
  - intros _. split; [exact Hmax|]. exists auth, ta, pa, now'.
    repeat split; try assumption; reflexivity.
  - intros _. eexists. split; reflexivity.
Qed.

(** X19: what a payment made with nothing else in flight writes.  It never
    touches the queue or the record of another key.  When it succeeds, the
    spent amount of the record grows by exactly the amount, the remaining
    balance it reports is the room left after the charge, and the reference
    it returns is the next draw of random bytes; when it is refused, or the
    contract reads fail, the state is left as it was and no balance or
    reference is returned. *)
Theorem payment_charges_one_record config request (o : oracle event) nowms s :
  let key := getUserKey (userId request) (req_userAddress request) in
  let s' := fst (call (processPayment config request) o nowms s) in
  pendingPayments s' = pendingPayments s /\
  (forall k, k <> key -> userAuthorizations s' !! k = userAuthorizations s !! k) /\
  match snd (call (processPayment config request) o nowms s) with
  | Returned r =>
      if success r then
        exists auth,
          userAuthorizations s !! key = Some auth /\
          userAuthorizations s' !! key
            = Some (set_spentAmount (spentAmount auth + amount request) auth) /\
          remainingBalance r
            = Some (authorizedAmount auth - (spentAmount auth + amount request)) /\
          txHash r = Some ("0x" +:+ entropy s (drawn s)) /\
          drawn s' = S (drawn s)
      else s' = s /\ remainingBalance r = None /\ txHash r = None
  | Threw _ => s' = s
  end.
Proof.
  unfold call. rewrite call_at_processPayment.
  unfold processPayment_alone. cbv zeta.
  set (key := getUserKey (userId request) (req_userAddress request)).
  destruct (amount request >? default 0 (maxPaymentAmount config));
    [repeat split; reflexivity|].
  destruct (userAuthorizations s !! key) as [auth|] eqn:Hget;
    [|repeat split; reflexivity].
  destruct (expiresAt auth <=? nowms / 1000); [repeat split; reflexivity|].
  destruct (authorizedAmount auth - spentAmount auth <? amount request);
    [repeat split; reflexivity|].
  destruct (o allowances _) as [[err|ta pa] now']; [repeat split; reflexivity|].
  destruct ((ta <? amount request) || _); [repeat split; reflexivity|].
  cbn [fst snd draw with_authorizations userAuthorizations pendingPayments success
       remainingBalance txHash drawn entropy].
  split; [reflexivity|]. split.
  - intros k Hk. now rewrite lookup_insert_ne.
  - exists auth. rewrite lookup_insert_eq. repeat split; reflexivity.
Qed.

(** X20: nothing checks that the amount of a payment is positive.  A payment
    of a negative amount against a stored, unexpired record whose spent
    amount is within its ceiling, made when the chain reports allowances that
    are not negative and have not expired, passes every check: it succeeds
    and lowers the spent amount, so the remaining balance grows by the size of
    the amount. *)
Theorem negative_amount_is_accepted config request (o : oracle event) nowms s auth
        tokenAllowance permit2Allowance now' :
  amount request < 0 ->
  0 <= default 0 (maxPaymentAmount config) ->
  userAuthorizations s !! getUserKey (userId request) (req_userAddress request)
    = Some auth ->
  nowms / 1000 < expiresAt auth ->
  spentAmount auth <= authorizedAmount auth ->
  o _ (ReadAllowances (req_userAddress request) (spenderAddress config))
    = (Allowances tokenAllowance permit2Allowance, now') ->
  0 <= tokenAllowance ->
  0 <= allowance_amount permit2Allowance ->
  now' / 1000 < expiration permit2Allowance ->
  exists s' r,
    call (processPayment config request) o nowms s = (s', Returned r) /\
    success r = true /\
    remainingBalance r
      = Some (authorizedAmount auth - spentAmount auth - amount request) /\
    (spentAmount <$> getAuthorizationStatus (userId request) (req_userAddress request) s')
      = Some (spentAmount auth + amount request) /\
    spentAmount auth + amount request < spentAmount auth.
Proof.
  intros Hneg Hmax Hget Hexp Hwithin Ho Hta Hpa Hlive.
  unfold call. rewrite call_at_processPayment.
  rewrite (processPayment_alone_charged config request o nowms s auth
             tokenAllowance permit2Allowance now') by (assumption || lia).
  cbv zeta. eexists _, _. split; [reflexivity|].
  cbn [success remainingBalance fst draw with_authorizations
       userAuthorizations set_spentAmount authorizedAmount spentAmount].
  unfold getAuthorizationStatus. cbn [userAuthorizations].
  rewrite lookup_insert_eq. cbn [fmap option_fmap option_map spentAmount set_spentAmount].
  repeat split; try reflexivity; try lia. f_equal. lia.
Qed.

Lemma negative_amount_witness :
  exists s' r,
    call (processPayment sample_config minus_four) chain_covers 1000 registered
      = (s', Returned r) /\
    success r = true /\
    remainingBalance r = Some (10 - 0 - (-4)) /\
    (spentAmount <$> getAuthorizationStatus "alice" alice s') = Some (0 + -4) /\
    0 + -4 < 0.
Proof.
  apply (negative_amount_is_accepted sample_config minus_four chain_covers 1000
           registered alice_record 100
           {| allowance_amount := 100; expiration := 2000000; allowance_nonce := 0 |}
           1500); vm_compute; reflexivity || discriminate.
Defined.

(** X21: a registration can be read back under the address in any letter
    case, with nothing spent: registering again for the same user and
    address replaces the record and resets the spent amount to 0, whatever
    had been spent.  Records under other keys and the queue are left as they
    are. *)
Theorem registration_round_trip user address ceiling expires signature transfer now s :
  let s' := registerAuthorization user address ceiling expires signature transfer now s in
  (forall address',
      Js.toLowerCase address' = Js.toLowerCase address ->
      getAuthorizationStatus user address' s'
      = Some (registration address ceiling expires signature transfer now)) /\
  getUsageStats user address s'
  = Some {| totalAuthorized := ceiling; totalSpent := 0;
            stats_remainingBalance := ceiling;
            stats_expiresAt := if expires >? 0 then Some expires else None |} /\
  (forall k, k <> getUserKey user address ->
             userAuthorizations s' !! k = userAuthorizations s !! k) /\
  pendingPayments s' = pendingPayments s.
Proof.
  unfold getUsageStats, getAuthorizationStatus, registerAuthorization, getUserKey.
  cbn [with_authorizations userAuthorizations pendingPayments].
  split; [|split; [|split]].
  - intros address' ->. now rewrite lookup_insert_eq.
  - rewrite lookup_insert_eq.
    cbn [authorizedAmount spentAmount expiresAt]. do 2 f_equal. lia.
  - intros k Hk. now rewrite lookup_insert_ne.
  - reflexivity.
Qed.

(** X22: a revocation returns whether there was a record, and afterwards
    there is none: the record cannot be read, a check answers at once, without
    reading the chain, that no authorization was found, and a payment within
    the maximum is refused with that answer and charges nothing.  Records
    under other keys and the queue, also the queued payments of that user, are
    left as they are. *)
Theorem revoked_authorization_is_gone user address s :
  let s' := fst (revokeAuthorization user address s) in
  (snd (revokeAuthorization user address s) = true
   <-> is_Some (getAuthorizationStatus user address s)) /\
  getAuthorizationStatus user address s' = None /\
  (forall config amt nowms,
      checkAuthorization config user address amt nowms s' = (s', Done no_authorization)) /\
  (forall config why amt (o : oracle event) nowms,
      amt <= default 0 (maxPaymentAmount config) ->
      call (processPayment config (charge user address amt why)) o nowms s'
      = (s', Returned (refusal (Refused NoAuthorization)))) /\
  (forall k, k <> getUserKey user address ->
             userAuthorizations s' !! k = userAuthorizations s !! k) /\
  pendingPayments s' = pendingPayments s.
Proof.
  unfold revokeAuthorization, getAuthorizationStatus. cbn [fst snd].
  set (key := getUserKey user address).
  assert (userAuthorizations
            (with_authorizations (delete key (userAuthorizations s)) s) !! key = None)
    as Hgone by (cbn [with_authorizations userAuthorizations]; apply lookup_delete_eq).
  split; [|split; [|split; [|split; [|split]]]].
  - split.
    + intros H. now apply bool_decide_eq_true_1 in H.
    + intros H. now apply bool_decide_eq_true_2.
  - exact Hgone.
  - intros config amt nowms. unfold checkAuthorization. fold key. now rewrite Hgone.
  - intros config why amt o nowms Hmax. unfold call.
    rewrite call_at_processPayment. unfold processPayment_alone. cbv zeta.
    cbn [charge amount userId req_userAddress]. fold key. rewrite Hgone.
    assert ((amt >? default 0 (maxPaymentAmount config)) = false) as ->
        by (rewrite Z.gtb_ltb; apply Z.ltb_ge; lia).
    reflexivity.
  - intros k Hk. cbn [with_authorizations userAuthorizations].
    now rewrite lookup_delete_ne.
  - reflexivity.
Qed.

(** X23: a check of an authorization only reads.  Whatever the chain
    answers, the state after the check is the state before it.  A check that
    does not authorize always asks for a reauthorization; one that
    authorizes found a stored, unexpired record with room for the amount,
    reports the room left on it, and asks for a reauthorization exactly when
    that room is below the balance threshold of the configuration. *)
Theorem authorization_check_reads_only config user address amt (o : oracle event)
        nowms s :
  fst (call (checkAuthorization config user address amt) o nowms s) = s /\
  match snd (call (checkAuthorization config user address amt) o nowms s) with
  | Returned r =>
      (authorized r = false -> needsReauthorization r = true) /\
      (authorized r = true ->
       exists auth,
         getAuthorizationStatus user address s = Some auth /\
         check_remainingBalance r = authorizedAmount auth - spentAmount auth /\
         amt <= check_remainingBalance r /\
         nowms / 1000 < expiresAt auth /\
         needsReauthorization r
         = (check_remainingBalance r <? default 0 (minBalanceThreshold config)))
  | Threw _ => True
  end.
Proof.
  unfold call, call_at, checkAuthorization, getAuthorizationStatus.
  destruct (userAuthorizations s !! getUserKey user address) as [auth|] eqn:Hget;
    [|cbn; repeat split; discriminate || reflexivity].
  destruct (expiresAt auth <=? nowms / 1000) eqn:Hexp;
    [cbn; repeat split; discriminate || reflexivity|].
  destruct (authorizedAmount auth - spentAmount auth <? amt) eqn:Hroom;
    [cbn; repeat split; discriminate || reflexivity|].
  apply Z.leb_gt in Hexp. apply Z.ltb_ge in Hroom.
  unfold await, checkApprovalStatus. simpl.
  destruct (o allowances _) as [[err|ta pa] now']; [split; [reflexivity|exact I]|].
  simpl. destruct ((ta <? amt) || _); simpl.
  - repeat split; discriminate || reflexivity.
  - split; [reflexivity|]. split; [discriminate|]. intros _.
    exists auth. repeat split; assumption || reflexivity.
Qed.

Lemma processPayment_alone_outcome config request (o : oracle event) nowms s :
  pendingPayments (fst (fst (processPayment_alone config request o nowms s)))
  = pendingPayments s /\
  (forall err,
      snd (fst (processPayment_alone config request o nowms s)) = Threw err ->
      fst (fst (processPayment_alone config request o nowms s)) = s /\
      fst (o _ (ReadAllowances (req_userAddress request) (spenderAddress config)))
      = ReadFailed err).
Proof.
  unfold processPayment_alone. cbv zeta.
  destruct (amount request >? _); [split; [reflexivity|discriminate]|].
  destruct (userAuthorizations s !! _) as [auth|]; [|split; [reflexivity|discriminate]].
  destruct (expiresAt auth <=? nowms / 1000); [split; [reflexivity|discriminate]|].
  destruct (_ <? amount request); [split; [reflexivity|discriminate]|].
  destruct (o allowances _) as [[err|ta pa] now'].
  - split; [reflexivity|]. intros err' [= <-]. split; reflexivity.
  - destruct ((ta <? amount request) || _); split; reflexivity || discriminate.
Qed.

(** What a drain of the queue comes to, from any results collected so far. *)
Lemma drain_outcome config fuel :
  forall (a : answers event) results nowms s,
    (length (pendingPayments s) <= fuel)%nat ->
    match fst (fst (call_seq (drain config fuel results) a nowms s)) with
    | (s', Returned rs) =>
        pendingPayments s' = [] /\
        exists new, rs = results ++ new /\ length new = length (pendingPayments s)
    | (s', Threw err) =>
        exists done request rest n,
          pendingPayments s = done ++ request :: rest /\
          pendingPayments s' = rest /\
          (n <= length done)%nat /\
          fst (a n _ (ReadAllowances (req_userAddress request) (spenderAddress config)))
          = ReadFailed err
    end.
Proof.
  induction fuel as [|fuel IH]; intros a results nowms s Hlen.
  - destruct (pendingPayments s) as [|request rest] eqn:Hq; [|simpl in Hlen; lia].
    unfold call_seq. simpl. rewrite Hq. cbn [fst].
    split; [exact Hq|]. exists []. now rewrite app_nil_r.
  - destruct (pendingPayments s) as [|request rest] eqn:Hq.
    + unfold call_seq. simpl. rewrite Hq. cbn [fst].
      split; [exact Hq|]. exists []. now rewrite app_nil_r.
    + replace (call_seq (drain config (S fuel) results) a nowms s)
        with (call_seq
                (await (processPayment config request)
                   (fun result => drain config fuel (results ++ [result])))
                a nowms (with_queue rest s))
        by (unfold call_seq; simpl; rewrite Hq; reflexivity).
      rewrite call_seq_await.
      destruct (call_seq_processPayment config request a nowms (with_queue rest s))
        as (a' & -> & Ha').
      destruct (processPayment_alone_outcome config request (a O) nowms
                  (with_queue rest s)) as [Hqueue Hthrew].
      destruct (processPayment_alone config request (a O) nowms (with_queue rest s))
        as [[s1 [r|err]] now1].
      * cbn [fst snd with_queue pendingPayments] in Hqueue.
        specialize (IH a' (results ++ [r]) now1 s1).
        rewrite Hqueue in IH. specialize (IH ltac:(simpl in Hlen; lia)).
        destruct (fst (fst (call_seq (drain config fuel (results ++ [r])) a' now1 s1)))
          as [s' [rs|err]].
        -- destruct IH as (Hempty & new & -> & Hnew). split; [exact Hempty|].
           exists (r :: new). rewrite <- app_assoc. split; [reflexivity|].
           simpl. now rewrite Hnew.
        -- destruct IH as (done & request' & rest' & n & -> & Hrest & Hn & Hread).
           destruct Ha' as [->| ->].
           ++ exists (request :: done), request', rest', n.
              repeat split; try assumption. simpl. lia.
           ++ exists (request :: done), request', rest', (S n).
              repeat split; try assumption. simpl. lia.
      * cbn [fst snd] in *. destruct (Hthrew err eq_refl) as [-> Hread].
        exists [], request, rest, O.
        split; [reflexivity|]. split; [reflexivity|]. split; [simpl; lia|exact Hread].
Qed.

(** X24: draining the queue.  Run with nothing else in flight, and with the
    chain answering each pair of contract reads in its turn, in any way, the
    drain either returns one result for each queued payment and leaves the
    queue empty; or it is left with the error of a failed pair of reads, and
    then the payment whose reads failed and all the payments before it, also
    those that were charged, are gone from the queue, the results collected
    for them are not returned, and the payments after it are still queued. *)
Theorem queue_is_drained config (a : answers event) fuel nowms s :
  (length (pendingPayments s) <= fuel)%nat ->
  match fst (fst (call_seq (processPendingPayments config fuel) a nowms s)) with
  | (s', Returned rs) =>
      pendingPayments s' = [] /\ length rs = length (pendingPayments s)
  | (s', Threw err) =>
      exists done request rest n,
        pendingPayments s = done ++ request :: rest /\
        pendingPayments s' = rest /\
        (n <= length done)%nat /\
        fst (a n _ (ReadAllowances (req_userAddress request) (spenderAddress config)))
        = ReadFailed err
  end.
Proof.
  intros Hlen. unfold processPendingPayments.
  pose proof (drain_outcome config fuel a [] nowms s Hlen) as H.
  destruct (fst (fst (call_seq (drain config fuel []) a nowms s))) as [s' [rs|err]].
  - destruct H as (Hempty & new & -> & Hnew). split; [exact Hempty|exact Hnew].
  - exact H.
Qed.

(** Alice's two queued payments: the first, of 6 units, is charged; the reads
    of the second fail, and the drain is left with that error, the queue
    empty and the charge of the first made. *)
Lemma queue_is_drained_witness :
  (exists s',
      fst (fst (call_seq (processPendingPayments sample_config 2) covers_then_fails
                  1000 two_queued)) = (s', Threw "timeout") /\
      pendingPayments s' = [] /\
      (spentAmount <$> getAuthorizationStatus "alice" alice s') = Some 6) /\
  match fst (fst (call_seq (processPendingPayments sample_config 2) covers_then_fails
                    1000 two_queued)) with
  | (s', Returned rs) =>
      pendingPayments s' = [] /\ length rs = length (pendingPayments two_queued)
  | (s', Threw err) =>
      exists done request rest n,
        pendingPayments two_queued = done ++ request :: rest /\
        pendingPayments s' = rest /\
        (n <= length done)%nat /\
        fst (covers_then_fails n _
               (ReadAllowances (req_userAddress request)
                  (spenderAddress sample_config)))
        = ReadFailed err
  end.
Proof.
  split.
  - eexists. split; [vm_compute; reflexivity|]. split; vm_compute; reflexivity.
  - apply (queue_is_drained sample_config covers_then_fails 2 1000 two_queued).
    vm_compute. lia.
Defined.

End Charges.

(* ===================================================================== *)
(** ** The approval sub-flow *)
(* ===================================================================== *)

Section Approvals.
Import Async AutoPayment ApprovalFlow.

Lemma call_at_checkApprovalStatus owner spender requiredAmount (o : oracle event)
      now s :
  call_at (checkApprovalStatus owner spender requiredAmount) o now s =
    match o _ (ReadAllowances owner spender) with
    | (ReadFailed err, now') => (s, Threw err, now')
    | (Allowances tokenAllowance permit2Allowance, now') =>
        (s,
         Returned
           {| hasTokenApproval := tokenAllowance >=? requiredAmount;
              hasPermit2Allowance :=
                (allowance_amount permit2Allowance >=? requiredAmount)
                && (expiration permit2Allowance >? now' / 1000);
              allowanceAmount := allowance_amount permit2Allowance;
              allowanceExpiration := expiration permit2Allowance;
              needsApproval := tokenAllowance <? requiredAmount;
              needsPermit2Allowance :=
                negb ((allowance_amount permit2Allowance >=? requiredAmount)
                      && (expiration permit2Allowance >? now' / 1000)) |},
         now')
    end.
Proof.
  unfold call_at, checkApprovalStatus. simpl.
  destruct (o allowances _) as [[err|ta pa] now']; reflexivity.
Qed.

(** X25: the steps agree with the check.  Made at the same moment, with the
    same answers from the chain, [getApprovalSteps] lists the token approval
    exactly when [checkApprovalNeeded] reports it as needed, and the Permit2
    signature exactly when it reports that as needed, in this order; a needed
    token approval always comes with the signature; no step is listed exactly
    when the check says the approval is already granted; and both fail with
    the same error when a contract read fails.  Neither writes to the
    state. *)
Theorem approval_steps_match_check config user requiredAmount (o : oracle event) now s :
  encodable (default DEFAULT_APPROVAL_AMOUNT (defaultApprovalAmount config)) ->
  match call (checkApprovalNeeded config user requiredAmount) o now s,
        call (getApprovalSteps config user requiredAmount) o now s with
  | (s1, Returned c), (s2, Returned steps) =>
      s1 = s /\ s2 = s /\
      map type steps
      = (if needsTokenApproval c then [token_approval] else [])
          ++ (if needsPermit2Approval c then [permit2_signature] else []) /\
      (needsTokenApproval c = true -> needsPermit2Approval c = true) /\
      (steps = [] <-> check_message c = AlreadyGranted)
  | (s1, Threw e1), (s2, Threw e2) => s1 = s /\ s2 = s /\ e1 = e2
  | _, _ => False
  end.
Proof.
  intros _. unfold call, checkApprovalNeeded, getApprovalSteps.
  rewrite !call_at_await, call_at_checkApprovalStatus.
  destruct (o allowances _) as [[err|ta pa] now']; [repeat split; reflexivity|].
  unfold call_at, ret. cbn [fst snd needsApproval needsPermit2Allowance run].
  destruct (ta <? requiredAmount);
    [|destruct (negb _)];
    cbn [orb needsTokenApproval needsPermit2Approval check_message app map type
         token_step signature_step];
    repeat split; try reflexivity; try discriminate.
Qed.

Lemma approval_steps_witness :
  match call (checkApprovalNeeded sample_flow alice 50) chain_covers 1000 initial,
        call (getApprovalSteps sample_flow alice 50) chain_covers 1000 initial with
  | (s1, Returned c), (s2, Returned steps) =>
      s1 = initial /\ s2 = initial /\
      map type steps
      = (if needsTokenApproval c then [token_approval] else [])
          ++ (if needsPermit2Approval c then [permit2_signature] else []) /\
      (needsTokenApproval c = true -> needsPermit2Approval c = true) /\
      (steps = [] <-> check_message c = AlreadyGranted)
  | (s1, Threw e1), (s2, Threw e2) => s1 = initial /\ s2 = initial /\ e1 = e2
  | _, _ => False
  end.
Proof.
  apply (approval_steps_match_check sample_flow alice 50 chain_covers 1000 initial).
  unfold encodable. vm_compute. split; discriminate || reflexivity.
Defined.

(** X26: from the allowances on the chain to the buttons.  When the token
    allowance is below the required amount there are two steps and the one
    button offered is the approval of USDC, whose call approves the Permit2
    contract for the configured amount (the maximum when none is
    configured); when the token allowance covers the amount but the Permit2
    allowance does not, or has expired, the one step and the one button are
    the signature; when both cover it there is no step and no button. *)
Theorem approval_ui_by_allowances config user requiredAmount baseUrl
        (o : oracle event) now s tokenAllowance permit2Allowance now' :
  encodable (default DEFAULT_APPROVAL_AMOUNT (defaultApprovalAmount config)) ->
  o _ (ReadAllowances user (flow_spenderAddress config))
    = (Allowances tokenAllowance permit2Allowance, now') ->
  exists steps,
    call (getApprovalSteps (Permit2ApprovalFlow config) user requiredAmount) o now s
      = (s, Returned steps) /\
    let ui := generateApprovalUI steps baseUrl in
    if tokenAllowance <? requiredAmount then
      map type steps = [token_approval; permit2_signature] /\
      buttons ui
      = [ {| button_text := "Approve USDC";
             button_url :=
               ApproveLink baseUrl (getUsdcAddress (flow_chainId config))
                 {| approve_spender := PERMIT2_ADDRESS;
                    approve_amount :=
                      default DEFAULT_APPROVAL_AMOUNT (defaultApprovalAmount config) |} |} ]
    else if (allowance_amount permit2Allowance >=? requiredAmount)
            && (expiration permit2Allowance >? now' / 1000) then
      steps = [] /\ buttons ui = []
    else
      map type steps = [permit2_signature] /\
      buttons ui
      = [ {| button_text := "Sign Authorization"; button_url := SignLink baseUrl |} ].
Proof.
  intros _ Ho. unfold call, getApprovalSteps.
  rewrite call_at_await, call_at_checkApprovalStatus.
  cbn [Permit2ApprovalFlow flow_spenderAddress]. rewrite Ho.
  unfold call_at, ret. cbn [fst snd needsApproval needsPermit2Allowance run].
  eexists. split; [reflexivity|].
  destruct (tokenAllowance <? requiredAmount);
    [|destruct ((allowance_amount permit2Allowance >=? requiredAmount) && _)];
    cbn; split; reflexivity.
Qed.

Lemma approval_ui_witness :
  exists steps,
    call (getApprovalSteps
            (Permit2ApprovalFlow
               {| flow_chainId := 84532;
                  flow_spenderAddress := spenderAddress sample_config;
                  defaultApprovalAmount := None; minAllowanceThreshold := None |})
            alice 500) chain_covers 1000 initial
      = (initial, Returned steps) /\
    map type steps = [token_approval; permit2_signature] /\
    buttons (generateApprovalUI steps "https://openclaw.ai/pay")
    = [ {| button_text := "Approve USDC";
           button_url :=
             ApproveLink "https://openclaw.ai/pay"
               (Some "0x036CbD53842c5426634e7929541eC2318f3dCF7e")
               {| approve_spender := PERMIT2_ADDRESS;
                  approve_amount := DEFAULT_APPROVAL_AMOUNT |} |} ].
Proof.
  apply (approval_ui_by_allowances
           {| flow_chainId := 84532;
              flow_spenderAddress := spenderAddress sample_config;
              defaultApprovalAmount := None; minAllowanceThreshold := None |}
           alice 500 "https://openclaw.ai/pay" chain_covers 1000 initial 100
           {| allowance_amount := 100; expiration := 2000000; allowance_nonce := 0 |}
           1500).
  - unfold encodable. vm_compute. split; discriminate || reflexivity.
  - reflexivity.
Defined.

End Approvals.

(* ===================================================================== *)
(** ** Configuration: the environment layer and the validation *)
(* ===================================================================== *)

Section Settings.
Import Config.

(** X27: what the environment decides.  [enabled] is taken from the
    environment alone: it is true exactly when X402_ENABLED is the text
    "true", whatever the supplied settings say.  A text field whose variable
    is set to a non-empty text takes that text, and the free quota takes the
    integer its variable starts with (an integer of at most [2 ^ 53] in size,
    which a number holds exactly), over the supplied settings and the
    defaults. *)
Theorem environment_decides pluginConfig env :
  get (resolveConfig pluginConfig env) "enabled"
  = VBool (bool_decide (env !! "X402_ENABLED" = Some "true")) /\
  (forall field var t,
      variable_of field = Some var ->
      field <> "enabled" -> field <> "freeMessagesPerSession" ->
      env !! var = Some t -> t <> "" ->
      get (resolveConfig pluginConfig env) field = VString t) /\
  (forall t n,
      env !! "X402_FREE_MESSAGES" = Some t -> Js.parseInt t = Some n ->
      Z.abs n <= 2 ^ 53 ->
      get (resolveConfig pluginConfig env) "freeMessagesPerSession" = VNumber n).
Proof.
  split; [|split].
  - apply resolveConfig_env_wins. reflexivity.
  - intros field var t Hvar Hne Hnf Henv Ht. apply resolveConfig_env_wins.
    assert (or_undefined (Some t) = VString t) as Hor
        by (destruct t; [now destruct Ht|reflexivity]).
    revert Hvar. unfold variable_of.
    repeat match goal with
           | |- context [String.eqb field ?x] =>
               destruct (String.eqb_spec field x) as [->|?];
               [ intros [= <-]; try (now destruct Hne); try (now destruct Hnf);
                 unfold loadConfigFromEnv; rewrite Henv, Hor; reflexivity | ]
           end.
    discriminate.
  - intros t n Henv Hparse Hexact. apply resolveConfig_env_wins.
    unfold loadConfigFromEnv. rewrite Henv, Hparse.
    assert (Js.exact n = true) as -> by (unfold Js.exact; apply Z.leb_le; exact Hexact).
    destruct t; [discriminate Hparse|reflexivity].
Qed.


End Settings.

